(** * fu-rom.c: decoding of PCI option ROM images

    A shallow embedding of [src/fu-rom.c] (fwupd) and the properties of its
    decode pipeline: the bounded search [fu_rom_pci_strstr], the header
    decoder [fu_rom_pci_get_header] with [fu_rom_pci_parse_data], the header
    loop, the vendor tests and the version search of [fu_rom_load_file], the
    additive checksum, the serial-number blanking pass, the reads of the
    diagnostics and [fu_rom_extract_all].

    Memory is modelled with its bounds.  A byte array is a [list byte]; an
    access is a function from an index to an [outcome], and an index outside
    the array ends the run with a [Fault] instead of a value, so that every
    theorem about a result is a theorem about a run whose accesses were all
    inside their arrays.  A read of the read buffer past the bytes of the
    file, which gives what [g_malloc] left there, is a fault of its own for
    the reader [buffer_read]; the code goes on after such a read, and
    [malloc_read] is the reader of the whole block for the properties of
    such runs.

    Integers are [Z] with the wrap-around of their C type written out:
    [guint], [guint32] 32 bits, [guint16] 16 bits, [guint8] a [byte];
    [gssize] and [gsize] have 64 bits and never wrap here.

    Not modelled: the opening of the file and the write that enables the
    read under /sys, the text that [g_debug] prints (the hex dumps apart),
    the SHA-1 digest (the object keeps the bytes given to it) and the guid
    made of the ids. *)

From Stdlib Require Import ZArith Lia Bool Sorted.
From Stdlib Require Import Strings.Byte Strings.String Strings.Ascii.
From stdpp Require Import base tactics option list.

Local Open Scope Z_scope.

(** ** Bytes and fixed-width integers *)

Global Instance byte_eq_dec : EqDecision byte := Byte.byte_eq_dec.

Definition b2z (b : byte) : Z := Z.of_N (Byte.to_N b).

(** Truncation of an integer to a [guint8], as an assignment to a byte does. *)
Definition z2b (z : Z) : byte :=
  match Byte.of_N (Z.to_N (z mod 256)) with
  | Some b => b
  | None => x00
  end.

Definition u16 (z : Z) : Z := z mod 65536.
Definition u32 (z : Z) : Z := z mod 4294967296.

(** A C string literal, without its terminator. *)
Definition cstr (s : string) : list byte := list_byte_of_string s.

(** ** Outcomes of a run *)

(** The ways [fu_rom_load_file] returns FALSE on an open file: the messages
    of its [g_set_error] calls, and the error of a failed read. *)
Inductive FwupdError : Type :=
| IoError           (* g_input_stream_read returned a negative size *)
| TooSmall          (* "Firmware too small" *)
| NotResponding     (* "firmware not fulfilling requests" *)
| NoHeaderFound     (* "Failed to detect firmware header" *)
| CorruptOverflow   (* "firmware corrupt (overflow)" *)
| UnknownKind       (* "Failed to detect firmware kind" *)
| VersionNotFound.  (* "Firmware version extractor not known" *)

(** What C leaves undefined.  [OutOfBounds]: an access outside the allocated
    block.  [Uninitialised]: a read inside the [g_malloc]ed read buffer but
    past the bytes the stream delivered.  [Hang]: a loop that never ends. *)
Inductive fault : Type := OutOfBounds | Uninitialised | Hang.

(** The outcome of a function that reads or writes memory. *)
Inductive outcome (A : Type) : Type :=
| Ok (a : A)
| Fault (f : fault).
Arguments Ok {A} a.
Arguments Fault {A} f.

Definition bind {A B : Type} (m : outcome A) (k : A -> outcome B) : outcome B :=
  match m with
  | Ok a => k a
  | Fault f => Fault f
  end.

Notation "'let*' x ':=' m 'in' k" := (bind m (fun x => k))
  (at level 10, x name, m at level 100, k at level 200,
   format "'[v' 'let*'  x  ':='  m  'in' '/' k ']'").
Notation "'let*' ' p ':=' m 'in' k" := (bind m (fun x => let 'p := x in k))
  (at level 10, p pattern, m at level 100, k at level 200).
Notation "'do' m 'then' k" := (bind m (fun _ => k))
  (at level 10, m at level 100, k at level 200).

(** ** Memory *)

(** [buffer_sz] of [fu_rom_load_file]: the size of the read buffer. *)
Definition buffer_sz : Z := 0x400000.

Definition reader : Type := Z -> outcome byte.

(** A block of exactly [length data] bytes, as [g_memdup] returns. *)
Definition rom_read (data : list byte) : reader := fun i =>
  if i <? 0 then Fault OutOfBounds
  else match data !! Z.to_nat i with
       | Some b => Ok b
       | None => Fault OutOfBounds
       end.

(** The read buffer: [buffer_sz] bytes were allocated and the first
    [length buffer] of them were filled from the stream.  This reader is
    strict: a read behind the bytes of the file ends the run, so a result
    with it is the result whatever the block holds there.  (The code reads
    on; see [malloc_read].) *)
Definition buffer_read (buffer : list byte) : reader := fun i =>
  if i <? 0 then Fault OutOfBounds
  else match buffer !! Z.to_nat i with
       | Some b => Ok b
       | None => if i <? buffer_sz then Fault Uninitialised
                 else Fault OutOfBounds
       end.

(** The [n] bytes at [off], [off+1], ... *)
Fixpoint mem_bytes (rd : reader) (off : Z) (n : nat) : outcome (list byte) :=
  match n with
  | O => Ok []
  | S n' =>
      let* b := rd off in
      let* bs := mem_bytes rd (off + 1) n' in
      Ok (b :: bs)
  end.

(** [memcmp (p, lit, strlen lit) == 0].  All the bytes compared have to be
    readable: [memcmp] may read them in any order and width. *)
Definition memcmp_eq (rd : reader) (off : Z) (lit : list byte) : outcome bool :=
  let* bs := mem_bytes rd off (length lit) in Ok (bool_decide (bs = lit)).

(** ** Headers *)

Record FuRomPciHeader : Type := {
  rom_data : list byte;       (* guint8 *rom_data, the empty list for NULL *)
  rom_len : Z;
  rom_offset : Z;
  entry_point : Z;
  reserved : list byte;       (* guint8 reserved[18] *)
  cpi_ptr : Z;
  vendor_id : Z;
  device_id : Z;
  device_list_ptr : Z;
  data_len : Z;
  data_rev : Z;
  class_code : Z;
  image_len : Z;
  revision_level : Z;
  code_type : Z;
  last_image : Z;
  max_runtime_len : Z;
  config_header_ptr : Z;
  dmtf_clp_ptr : Z
}.

(** [g_new0 (FuRomPciHeader, 1)] *)
Definition hdr_new0 : FuRomPciHeader := {|
  rom_data := []; rom_len := 0; rom_offset := 0; entry_point := 0;
  reserved := replicate 18 x00; cpi_ptr := 0; vendor_id := 0; device_id := 0;
  device_list_ptr := 0; data_len := 0; data_rev := 0; class_code := 0;
  image_len := 0; revision_level := 0; code_type := 0; last_image := 0;
  max_runtime_len := 0; config_header_ptr := 0; dmtf_clp_ptr := 0 |}.

Definition set_rom_data (d : list byte) (h : FuRomPciHeader) : FuRomPciHeader := {|
  rom_data := d; rom_len := rom_len h; rom_offset := rom_offset h;
  entry_point := entry_point h; reserved := reserved h; cpi_ptr := cpi_ptr h;
  vendor_id := vendor_id h; device_id := device_id h;
  device_list_ptr := device_list_ptr h; data_len := data_len h;
  data_rev := data_rev h; class_code := class_code h; image_len := image_len h;
  revision_level := revision_level h; code_type := code_type h;
  last_image := last_image h; max_runtime_len := max_runtime_len h;
  config_header_ptr := config_header_ptr h; dmtf_clp_ptr := dmtf_clp_ptr h |}.

Definition set_rom_offset (o : Z) (h : FuRomPciHeader) : FuRomPciHeader := {|
  rom_data := rom_data h; rom_len := rom_len h; rom_offset := o;
  entry_point := entry_point h; reserved := reserved h; cpi_ptr := cpi_ptr h;
  vendor_id := vendor_id h; device_id := device_id h;
  device_list_ptr := device_list_ptr h; data_len := data_len h;
  data_rev := data_rev h; class_code := class_code h; image_len := image_len h;
  revision_level := revision_level h; code_type := code_type h;
  last_image := last_image h; max_runtime_len := max_runtime_len h;
  config_header_ptr := config_header_ptr h; dmtf_clp_ptr := dmtf_clp_ptr h |}.

(** ** fu_rom_pci_strstr *)

(** The [for] loop of [fu_rom_pci_strstr]: [n] iterations are left and the
    next one is at index [i]. *)
Fixpoint strstr_loop (rd : reader) (haystack : Z) (needle : list byte)
    (n : nat) (i : Z) : outcome (option Z) :=
  match n with
  | O => Ok None
  | S n' =>
      let* same := memcmp_eq rd (haystack + i) needle in
      if same then Ok (Some (haystack + i))
      else strstr_loop rd haystack needle n' (i + 1)
  end.

(** The pointer returned is an offset into [rom_data]; [None] is NULL. *)
Definition fu_rom_pci_strstr (hdr : FuRomPciHeader) (needle : list byte)
    : outcome (option Z) :=
  match needle, rom_data hdr with
  | [], _ => Ok None
  | _, [] => Ok None
  | _, _ =>
      if data_len hdr >? rom_len hdr then Ok None
      else
        let haystack := data_len hdr in
        let haystack_len := rom_len hdr - data_len hdr in
        let needle_len := Z.of_nat (length needle) in
        if needle_len >? haystack_len then Ok None
        else strstr_loop (rom_read (rom_data hdr)) haystack needle
               (Z.to_nat (haystack_len - needle_len)) 0
  end.

(** ** fu_rom_blank_serial_numbers *)

(** The loop of [fu_rom_blank_serial_numbers (buffer, buffer_sz)], where
    [buffer] is [data + start]: [n] iterations are left and the next one is
    at index [i].  The result is the block after the writes and the value of
    [i] at the end. *)
Fixpoint blank_loop (data : list byte) (start : Z) (n : nat) (i : Z)
    : outcome (list byte * Z) :=
  match n with
  | O => Ok (data, i)
  | S n' =>
      let* b := rom_read data (start + i) in
      if bool_decide (b = xff) || bool_decide (b = x00)
         || bool_decide (b = x0a) || bool_decide (b = x0d)
      then Ok (data, i)
      else blank_loop (<[Z.to_nat (start + i) := x00]> data) start n' (i + 1)
  end.

Definition fu_rom_blank_serial_numbers (data : list byte) (start : Z)
    (buffer_sz : Z) : outcome (list byte * Z) :=
  blank_loop data start (Z.to_nat buffer_sz) 0.

(** ** fu_rom_pci_header_get_checksum *)

Fixpoint checksum_loop (rd : reader) (n : nat) (i : Z) (chksum_check : Z)
    : outcome Z :=
  match n with
  | O => Ok chksum_check
  | S n' =>
      let* b := rd i in
      checksum_loop rd n' (i + 1) ((chksum_check + b2z b) mod 256)
  end.

Definition fu_rom_pci_header_get_checksum (hdr : FuRomPciHeader) : outcome Z :=
  checksum_loop (rom_read (rom_data hdr)) (Z.to_nat (rom_len hdr)) 0 0.

(** ** The body of the loop of fu_rom_find_and_blank_serial_numbers *)

(** The blanking of the field at [tmp] and the checksum fix-up that follows
    it: [rom_data[rom_len - 1] -= chk]. *)
Definition blank_and_fix (hdr : FuRomPciHeader) (tmp : Z) : outcome FuRomPciHeader :=
  let* '(data, _) := fu_rom_blank_serial_numbers (rom_data hdr) tmp
                       (u32 (rom_len hdr - data_len hdr)) in
  let hdr := set_rom_data data hdr in
  let* chk := fu_rom_pci_header_get_checksum hdr in
  let last := u32 (rom_len hdr - 1) in
  let* b := rom_read (rom_data hdr) last in
  Ok (set_rom_data (<[Z.to_nat last := z2b (b2z b - chk)]> (rom_data hdr)) hdr).

(** ** Diagnostics

    The text that [g_debug] prints is not modelled, the reads that build it
    are: [fu_rom_get_hex_dump] reads [sz] bytes whatever the log level. *)

Definition fu_rom_get_hex_dump (rd : reader) (buffer : Z) (sz : Z) : outcome unit :=
  if sz <=? 0 then Ok tt
  else do mem_bytes rd buffer (Z.to_nat sz) then Ok tt.

(** The [while (TRUE)] loop of [fu_rom_pci_print_certificate_data], after
    [buffer += 27].  [off] is a [guint16] and nothing is written, so a loop
    that has not ended after 65536 rounds has been at some [off] twice and
    never ends: that is the case [O]. *)
Fixpoint certificate_loop (fuel : nat) (rd : reader) (buffer : Z) (sz : Z)
    (off : Z) : outcome unit :=
  match fuel with
  | O => Fault Hang
  | S fuel' =>
      do fu_rom_get_hex_dump rd (buffer + off) 29 then
      let* segment_kind := rd (buffer + off + 1) in
      let* b14 := rd (buffer + off + 14) in
      let* b13 := rd (buffer + off + 13) in
      let next_offset := u16 (Z.shiftl (b2z b14) 8 + b2z b13) in
      let data := buffer + off + 29 in
      let data_len :=
        if next_offset =? 0 then u16 (sz - off - 29 - 27)
        else u16 (next_offset - off - 29) in
      do (if b2z segment_kind =? 0x01 then fu_rom_get_hex_dump rd data data_len
          else if b2z segment_kind =? 0x02 then
            fu_rom_get_hex_dump rd data (if data_len <? 32 then data_len else 32)
          else Ok tt) then
      if next_offset =? 0x0000 then Ok tt
      else certificate_loop fuel' rd buffer sz next_offset
  end.

Definition fu_rom_pci_print_certificate_data (rd : reader) (buffer : Z) (sz : Z)
    : outcome unit :=
  do fu_rom_get_hex_dump rd buffer 27 then
  certificate_loop (Z.to_nat 65536) rd (buffer + 27) sz 0.

Definition fu_rom_pci_print_header (hdr : FuRomPciHeader) : outcome unit :=
  let rd := rom_read (rom_data hdr) in
  let buffer := cpi_ptr hdr in
  do (if image_len hdr <? 0x0f
      then fu_rom_get_hex_dump rd (buffer + data_len hdr) (image_len hdr)
      else fu_rom_get_hex_dump rd (buffer + data_len hdr) 0x0f) then
  do (if code_type hdr =? 0x70 then
        let* isbn := memcmp_eq rd (buffer + data_len hdr) (cstr "ISBN") in
        if isbn then
          fu_rom_pci_print_certificate_data rd (buffer + data_len hdr) (image_len hdr)
        else Ok tt
      else Ok tt) then
  if (image_len hdr <=? rom_len hdr) && (image_len hdr >? 0) then
    do fu_rom_pci_header_get_checksum hdr then
    do rd (image_len hdr - 1) then
    Ok tt
  else Ok tt.

(** ** fu_rom_pci_parse_data *)

Definition set_pci_data (vendor_id' device_id' device_list_ptr' data_len'
    data_rev' class_code' image_len' revision_level' code_type' last_image'
    max_runtime_len' config_header_ptr' dmtf_clp_ptr' : Z) (h : FuRomPciHeader)
    : FuRomPciHeader := {|
  rom_data := rom_data h; rom_len := rom_len h; rom_offset := rom_offset h;
  entry_point := entry_point h; reserved := reserved h; cpi_ptr := cpi_ptr h;
  vendor_id := vendor_id'; device_id := device_id';
  device_list_ptr := device_list_ptr'; data_len := data_len';
  data_rev := data_rev'; class_code := class_code'; image_len := image_len';
  revision_level := revision_level'; code_type := code_type';
  last_image := last_image'; max_runtime_len := max_runtime_len';
  config_header_ptr := config_header_ptr'; dmtf_clp_ptr := dmtf_clp_ptr' |}.

(** [((guint16) buffer[hi] << 8) + buffer[lo]] *)
Definition le16 (rd : reader) (lo hi : Z) : outcome Z :=
  let* h := rd hi in
  let* l := rd lo in
  Ok (Z.shiftl (b2z h) 8 + b2z l).

(** The header after the call and the [gboolean] returned. *)
Definition fu_rom_pci_parse_data (hdr : FuRomPciHeader)
    : outcome (FuRomPciHeader * bool) :=
  if cpi_ptr hdr =? 0x0000 then Ok (hdr, false)
  else if (rom_len hdr >? 0) && (cpi_ptr hdr >? rom_len hdr) then Ok (hdr, false)
  else if cpi_ptr hdr >? rom_len hdr then Ok (hdr, false)
  else
    let rd := rom_read (rom_data hdr) in
    let buffer := cpi_ptr hdr in
    let* pcir := memcmp_eq rd buffer (cstr "PCIR") in
    let* quirk :=
      (if pcir then Ok true
       else
         let* rgis := memcmp_eq rd buffer (cstr "RGIS") in
         if rgis then Ok true
         else
           let* npds := memcmp_eq rd buffer (cstr "NPDS") in
           if npds then Ok true
           else memcmp_eq rd buffer (cstr "NPDE")) in
    if negb quirk then Ok (hdr, false)
    else
      let* vendor_id' := le16 rd (buffer + 0x04) (buffer + 0x05) in
      let* device_id' := le16 rd (buffer + 0x06) (buffer + 0x07) in
      let* device_list_ptr' := le16 rd (buffer + 0x08) (buffer + 0x09) in
      let* data_len' := le16 rd (buffer + 0x0a) (buffer + 0x0b) in
      let* data_rev' := rd (buffer + 0x0c) in
      let* b0f := rd (buffer + 0x0f) in
      let* b0e := rd (buffer + 0x0e) in
      let* b0d := rd (buffer + 0x0d) in
      let* image_blocks := le16 rd (buffer + 0x10) (buffer + 0x11) in
      let* revision_level' := le16 rd (buffer + 0x12) (buffer + 0x13) in
      let* code_type' := rd (buffer + 0x14) in
      let* last_image' := rd (buffer + 0x15) in
      let* max_runtime_blocks := le16 rd (buffer + 0x16) (buffer + 0x17) in
      let* config_header_ptr' := le16 rd (buffer + 0x18) (buffer + 0x19) in
      let* dmtf_clp_ptr' := le16 rd (buffer + 0x1a) (buffer + 0x1b) in
      Ok (set_pci_data
            (u16 vendor_id') (u16 device_id') (u16 device_list_ptr')
            (u16 data_len') (b2z data_rev')
            (u32 (Z.shiftl (u16 (b2z b0f)) 16 + Z.shiftl (u16 (b2z b0e)) 8
                  + b2z b0d))
            (u32 (image_blocks * 512)) (u16 revision_level')
            (b2z code_type') (b2z last_image')
            (u32 (max_runtime_blocks * 512))
            (u16 config_header_ptr') (u16 dmtf_clp_ptr') hdr, true).

(** ** fu_rom_pci_get_header *)

(** [buffer] is the pointer passed, an offset into the read buffer that [rd]
    reads; [None] is the NULL returned for a wrong signature. *)
Definition fu_rom_pci_get_header (rd : reader) (buffer : Z) (sz : Z)
    : outcome (option FuRomPciHeader) :=
  let* pci := memcmp_eq rd buffer [x55; xaa] in
  let* sig :=
    (if pci then Ok true
     else
       let* nvidia := memcmp_eq rd buffer [x56; x4e] in
       if nvidia then Ok true
       else do fu_rom_get_hex_dump rd buffer 16 then Ok false) in
  if negb sig then Ok None
  else
    let* b02 := rd (buffer + 0x02) in
    let rom_len' := u32 (b2z b02 * 512) in
    let rom_len' := if rom_len' =? 0 then u32 sz else rom_len' in
    let* rom_data' := mem_bytes rd buffer (Z.to_nat rom_len') in
    let* b05 := rd (buffer + 0x05) in
    let* b04 := rd (buffer + 0x04) in
    let* b03 := rd (buffer + 0x03) in
    let* reserved' := mem_bytes rd (buffer + 6) 18 in
    let* cpi_ptr' := le16 rd (buffer + 0x18) (buffer + 0x19) in
    let hdr := {|
      rom_data := rom_data'; rom_len := rom_len'; rom_offset := 0;
      entry_point := u32 (Z.shiftl (b2z b05) 16 + Z.shiftl (b2z b04) 8 + b2z b03);
      reserved := reserved'; cpi_ptr := u16 cpi_ptr';
      vendor_id := 0; device_id := 0; device_list_ptr := 0; data_len := 0;
      data_rev := 0; class_code := 0; image_len := 0; revision_level := 0;
      code_type := 0; last_image := 0; max_runtime_len := 0;
      config_header_ptr := 0; dmtf_clp_ptr := 0 |} in
    let* '(hdr, _) := fu_rom_pci_parse_data hdr in
    Ok (Some hdr).

(** ** The version string *)

(** The C string at [off]: the bytes before the first NUL.  This is what
    [g_strdup] and [g_strsplit] read.  [fuel] is one more than the size of
    the block, so that a string with no NUL in the block has left the block
    before [fuel] runs out. *)
Fixpoint read_cstring (fuel : nat) (rd : reader) (off : Z) : outcome (list byte) :=
  match fuel with
  | O => Fault OutOfBounds
  | S fuel' =>
      let* b := rd off in
      if bool_decide (b = x00) then Ok []
      else
        let* s := read_cstring fuel' rd (off + 1) in
        Ok (b :: s)
  end.

Definition g_strdup (hdr : FuRomPciHeader) (off : Z) : outcome (list byte) :=
  read_cstring (S (length (rom_data hdr))) (rom_read (rom_data hdr)) off.

(** [g_strsplit (s, " ", -1)]: the pieces between the delimiters; the empty
    string has no piece. *)
Fixpoint split_at (delim : byte) (s : list byte) : list (list byte) :=
  match s with
  | [] => [[]]
  | b :: s' =>
      if bool_decide (b = delim) then [] :: split_at delim s'
      else match split_at delim s' with
           | [] => [[b]]
           | t :: ts => (b :: t) :: ts
           end
  end.

Definition g_strsplit (s : list byte) (delim : byte) : list (list byte) :=
  match s with
  | [] => []
  | _ => split_at delim s
  end.

(** [g_ascii_isspace]: space, form feed, newline, carriage return,
    horizontal and vertical tab. *)
Definition g_ascii_isspace (b : byte) : bool :=
  bool_decide (b = x20) || bool_decide (b = x0c) || bool_decide (b = x0a)
  || bool_decide (b = x0d) || bool_decide (b = x09) || bool_decide (b = x0b).

Fixpoint g_strchug (s : list byte) : list byte :=
  match s with
  | b :: s' => if g_ascii_isspace b then g_strchug s' else s
  | [] => []
  end.

Definition g_strchomp (s : list byte) : list byte :=
  reverse (g_strchug (reverse s)).

Definition g_strstrip (s : list byte) : list byte := g_strchomp (g_strchug s).

(** [g_strdelimit (s, delimiters, '\0')] as a C string: every delimiter
    becomes a NUL, so the string ends before the first of them. *)
Fixpoint g_strdelimit_nul (delimiters : list byte) (s : list byte) : list byte :=
  match s with
  | [] => []
  | b :: s' =>
      if bool_decide (b ∈ delimiters) then []
      else b :: g_strdelimit_nul delimiters s'
  end.

Definition fu_rom_find_version_pci (hdr : FuRomPciHeader)
    : outcome (option (list byte)) :=
  if bool_decide (take 5 (reserved hdr) = [x00; x00; x41; x52; x43]) then
    let* str := fu_rom_pci_strstr hdr (cstr "BIOS: ") in
    match str with
    | Some str => let* v := g_strdup hdr (str + 6) in Ok (Some v)
    | None => Ok None
    end
  else Ok None.

Definition fu_rom_find_version_nvidia (hdr : FuRomPciHeader)
    : outcome (option (list byte)) :=
  let rd := rom_read (rom_data hdr) in
  let* static := memcmp_eq rd 0x013d (cstr "Version ") in
  if static then let* v := g_strdup hdr (0x013d + 8) in Ok (Some v)
  else
    let* str := fu_rom_pci_strstr hdr (cstr "Version ") in
    match str with
    | Some str => let* v := g_strdup hdr (str + 8) in Ok (Some v)
    | None =>
        let* str := fu_rom_pci_strstr hdr (cstr "Vension:") in
        match str with
        | Some str => let* v := g_strdup hdr (str + 8) in Ok (Some v)
        | None =>
            let* str := fu_rom_pci_strstr hdr (cstr "Version") in
            match str with
            | Some str => let* v := g_strdup hdr (str + 7) in Ok (Some v)
            | None =>
                let* vbios := memcmp_eq rd 0xfa (cstr "VBIOS Ver") in
                if vbios then let* v := g_strdup hdr (0xfa + 9) in Ok (Some v)
                else Ok None
            end
        end
    end.

Definition fu_rom_find_version_intel (hdr : FuRomPciHeader)
    : outcome (option (list byte)) :=
  let* str := fu_rom_pci_strstr hdr (cstr "Build Number:") in
  let* build :=
    match str with
    | Some str =>
        let* s := g_strdup hdr (str + 14) in
        Ok (head (filter (fun tok => x2e ∈ tok) (g_strsplit s x20)))
    | None => Ok None
    end in
  match build with
  | Some v => Ok (Some v)
  | None =>
      let* str := fu_rom_pci_strstr hdr (cstr "VBIOS ") in
      match str with
      | Some str => let* v := g_strdup hdr (str + 6) in Ok (Some v)
      | None => Ok None
      end
  end.

Definition fu_rom_find_version_ati (hdr : FuRomPciHeader)
    : outcome (option (list byte)) :=
  let* str := fu_rom_pci_strstr hdr (cstr " VER0") in
  match str with
  | Some str => let* v := g_strdup hdr (str + 4) in Ok (Some v)
  | None =>
      let* str := fu_rom_pci_strstr hdr (cstr " VR") in
      match str with
      | Some str => let* v := g_strdup hdr (str + 4) in Ok (Some v)
      | None => Ok None
      end
  end.

(** Modelled from the spec: the enumeration [FuRomKind] is declared in
    fu-rom.h, which is not among the sources; its values are those the
    source file names, the closed set of the spec. *)
Inductive FuRomKind : Type :=
| FU_ROM_KIND_UNKNOWN
| FU_ROM_KIND_ATI
| FU_ROM_KIND_NVIDIA
| FU_ROM_KIND_INTEL
| FU_ROM_KIND_PCI.

Global Instance FuRomKind_eq_dec : EqDecision FuRomKind.
Proof. solve_decision. Defined.

Definition fu_rom_find_version (kind : FuRomKind) (hdr : FuRomPciHeader)
    : outcome (option (list byte)) :=
  match kind with
  | FU_ROM_KIND_PCI => fu_rom_find_version_pci hdr
  | FU_ROM_KIND_NVIDIA => fu_rom_find_version_nvidia hdr
  | FU_ROM_KIND_INTEL => fu_rom_find_version_intel hdr
  | FU_ROM_KIND_ATI => fu_rom_find_version_ati hdr
  | FU_ROM_KIND_UNKNOWN => Ok None
  end.

(** ** The object *)

Record FuRomPrivate : Type := {
  checksum_wip : list byte;      (* the bytes given to g_checksum_update *)
  kind : FuRomKind;
  version : option (list byte);
  guid : option (Z * Z);         (* the ids the guid is made from *)
  vendor : Z;
  model : Z;
  hdrs : list FuRomPciHeader
}.

(** [fu_rom_new]: zeroed private data, a new checksum, an empty array. *)
Definition fu_rom_new : FuRomPrivate := {|
  checksum_wip := []; kind := FU_ROM_KIND_UNKNOWN; version := None;
  guid := None; vendor := 0; model := 0; hdrs := [] |}.

Definition set_hdrs (l : list FuRomPciHeader) (p : FuRomPrivate) : FuRomPrivate :=
  {| checksum_wip := checksum_wip p; kind := kind p; version := version p;
     guid := guid p; vendor := vendor p; model := model p; hdrs := l |}.

Definition set_kind (k : FuRomKind) (p : FuRomPrivate) : FuRomPrivate :=
  {| checksum_wip := checksum_wip p; kind := k; version := version p;
     guid := guid p; vendor := vendor p; model := model p; hdrs := hdrs p |}.

Definition set_ids (v m : Z) (p : FuRomPrivate) : FuRomPrivate :=
  {| checksum_wip := checksum_wip p; kind := kind p; version := version p;
     guid := guid p; vendor := v; model := m; hdrs := hdrs p |}.

Definition set_version (v : option (list byte)) (p : FuRomPrivate) : FuRomPrivate :=
  {| checksum_wip := checksum_wip p; kind := kind p; version := v;
     guid := guid p; vendor := vendor p; model := model p; hdrs := hdrs p |}.

Definition set_checksum_wip (c : list byte) (p : FuRomPrivate) : FuRomPrivate :=
  {| checksum_wip := c; kind := kind p; version := version p;
     guid := guid p; vendor := vendor p; model := model p; hdrs := hdrs p |}.

Definition set_guid (g : option (Z * Z)) (p : FuRomPrivate) : FuRomPrivate :=
  {| checksum_wip := checksum_wip p; kind := kind p; version := version p;
     guid := g; vendor := vendor p; model := model p; hdrs := hdrs p |}.

(** ** fu_rom_find_and_blank_serial_numbers *)

(** One round of the [for] loop, on the header [hdr] of the array. *)
Definition blank_header (hdr : FuRomPciHeader) : outcome FuRomPciHeader :=
  let* tmp := fu_rom_pci_strstr hdr (cstr "PPID") in
  match tmp with
  | Some tmp =>
      let* hdr := blank_and_fix hdr tmp in
      do fu_rom_pci_print_header hdr then
      Ok hdr
  | None => Ok hdr
  end.

Fixpoint blank_headers (l : list FuRomPciHeader) : outcome (list FuRomPciHeader) :=
  match l with
  | [] => Ok []
  | hdr :: l' =>
      let* hdr := blank_header hdr in
      let* l' := blank_headers l' in
      Ok (hdr :: l')
  end.

Definition fu_rom_find_and_blank_serial_numbers (priv : FuRomPrivate)
    : outcome FuRomPrivate :=
  if bool_decide (kind priv = FU_ROM_KIND_PCI)
     || bool_decide (kind priv = FU_ROM_KIND_INTEL)
  then Ok priv
  else
    let* l := blank_headers (hdrs priv) in
    Ok (set_hdrs l priv).

(** ** Reading the file *)

(** The stream is the list of what the successive calls of
    [g_input_stream_read] deliver: [None] for an error (a negative size),
    [Some c] for the bytes [c]; at the end of the list every call returns 0.
    A call for [count] bytes takes at most [count] bytes of [c]; the rest of
    [c] is dropped, as the buffer is full then and no call follows. *)
Definition GInputStream : Type := list (option (list byte)).

Definition g_input_stream_read (stream : GInputStream) (count : Z)
    : option (list byte) * GInputStream :=
  match stream with
  | [] => (Some [], [])
  | None :: stream' => (None, stream')
  | Some c :: stream' => (Some (take (Z.to_nat count) c), stream')
  end.

(** The result of [fu_rom_load_file] and of its parts that can fail:
    [Ret] where the code goes on or returns TRUE, [Err] where it sets an
    error and returns FALSE, [Undefined] where an access has gone wrong. *)
Inductive result (A : Type) : Type :=
| Ret (a : A)
| Err (e : FwupdError)
| Undefined (f : fault).
Arguments Ret {A} a.
Arguments Err {A} e.
Arguments Undefined {A} f.

(** The loop "ensure we got enough data to fill the buffer"; the recursion
    is on the calls left in the stream. *)
Fixpoint fill_buffer (stream : GInputStream) (buffer : list byte)
    (number_reads : Z) : result (list byte) :=
  let sz := Z.of_nat (length buffer) in
  if sz <? buffer_sz then
    match stream with
    | [] => Ret buffer
    | None :: _ => Err IoError
    | Some c :: stream' =>
        let chunk := take (Z.to_nat (buffer_sz - sz)) c in
        if Z.of_nat (length chunk) =? 0 then Ret buffer
        else if number_reads >? 16 then Err NotResponding
        else fill_buffer stream' (buffer ++ chunk) (u32 (number_reads + 1))
    end
  else Ret buffer.

(** ** The header loop of fu_rom_load_file *)

Inductive byte_order : Type := G_LITTLE_ENDIAN | G_BIG_ENDIAN.

Definition GUINT16_SWAP_LE_BE (val : Z) : Z :=
  u16 (Z.lor (Z.shiftr (u16 val) 8) (u16 (Z.shiftl (u16 val) 8))).

(** Modelled from the spec: GLib's macro [GUINT16_FROM_BE] is not in the
    source file.  It takes a 16-bit value in big-endian order to the order of
    the host: nothing on a big-endian host, a swap of the two bytes on a
    little-endian one. *)
Definition GUINT16_FROM_BE (host : byte_order) (val : Z) : Z :=
  match host with
  | G_BIG_ENDIAN => u16 val
  | G_LITTLE_ENDIAN => GUINT16_SWAP_LE_BE val
  end.

(** "detect optional IFR header and skip to option ROM": the first value of
    [hdr_sz]. *)
Definition ifr_hdr_sz (host : byte_order) (buffer : list byte) : outcome Z :=
  let* nvgi := memcmp_eq (buffer_read buffer) 0 (cstr "NVGI") in
  if nvgi then
    let* b15 := buffer_read buffer 0x15 in
    Ok (GUINT16_FROM_BE host (b2z b15))
  else Ok 0.

(** "check it's not just NUL padding": the loop over [i], with [n] rounds
    left; [found_data] is returned. *)
Fixpoint junk_scan (rd : reader) (base : Z) (n : nat) (i : Z) : outcome bool :=
  match n with
  | O => Ok false
  | S n' =>
      let* b := rd (u32 (base + i)) in
      if negb (bool_decide (b = x00)) then Ok true
      else junk_scan rd base n' (u32 (i + 1))
  end.

(** "found junk data, adding fake" *)
Definition fake_header (rd : reader) (sz : Z) (hdr_sz jump : Z)
    : outcome FuRomPciHeader :=
  let rom_offset' := u32 (hdr_sz + jump) in
  let rom_len' := u32 (sz - rom_offset') in
  let* rom_data' := mem_bytes rd rom_offset' (Z.to_nat rom_len') in
  Ok {| rom_data := rom_data'; rom_len := rom_len'; rom_offset := rom_offset';
        entry_point := 0; reserved := replicate 18 x00; cpi_ptr := 0;
        vendor_id := 0x0000; device_id := 0x0000; device_list_ptr := 0;
        data_len := 0; data_rev := 0; class_code := 0; image_len := rom_len';
        revision_level := 0; code_type := 0x00; last_image := 0x80;
        max_runtime_len := 0; config_header_ptr := 0; dmtf_clp_ptr := 0 |}.

(** How a round of the [while] loop ends: at the end of the body, with the
    new [jump], or at a [break]; both with the array of headers. *)
Inductive loop_end : Type :=
| Continue (jump : Z) (l : list FuRomPciHeader)
| Break (l : list FuRomPciHeader).

(** The body of "read all the ROM headers". *)
Definition header_round (buffer : list byte) (hdr_sz jump : Z)
    (l : list FuRomPciHeader) : outcome loop_end :=
  let rd := buffer_read buffer in
  let sz := Z.of_nat (length buffer) in
  let* hdr := fu_rom_pci_get_header rd (u32 (hdr_sz + jump)) (sz - hdr_sz - jump) in
  match hdr with
  | None =>
      let* found_data :=
        junk_scan rd (u32 (hdr_sz + jump)) (Z.to_nat (u32 (hdr_sz + jump))) 0 in
      if found_data then
        let* hdr := fake_header rd sz hdr_sz jump in
        Ok (Break (l ++ [hdr]))
      else Ok (Break l)
  | Some hdr =>
      let hdr := set_rom_offset (u32 (hdr_sz + jump)) hdr in
      let l := l ++ [hdr] in
      let jump_sz := rom_len hdr in
      let jump_sz := if jump_sz =? 0 then image_len hdr else jump_sz in
      if jump_sz =? 0x0 then Ok (Break l)
      else Ok (Continue (u32 (jump + jump_sz)) l)
  end.

(** The [while] loop.  [None]: the loop has not ended within [fuel] rounds. *)
Fixpoint read_headers (fuel : nat) (buffer : list byte) (hdr_sz jump : Z)
    (l : list FuRomPciHeader) : option (outcome (list FuRomPciHeader)) :=
  match fuel with
  | O => None
  | S fuel' =>
      if Z.of_nat (length buffer) >? u32 (hdr_sz + jump) then
        match header_round buffer hdr_sz jump l with
        | Ok (Continue jump' l') => read_headers fuel' buffer hdr_sz jump' l'
        | Ok (Break l') => Some (Ok l')
        | Fault f => Some (Fault f)
        end
      else Some (Ok l)
  end.

(** The offsets at which the loop calls [fu_rom_pci_get_header], in order. *)
Fixpoint attempted_offsets (fuel : nat) (buffer : list byte) (hdr_sz jump : Z)
    (l : list FuRomPciHeader) : list Z :=
  match fuel with
  | O => []
  | S fuel' =>
      if Z.of_nat (length buffer) >? u32 (hdr_sz + jump) then
        u32 (hdr_sz + jump) ::
        match header_round buffer hdr_sz jump l with
        | Ok (Continue jump' l') => attempted_offsets fuel' buffer hdr_sz jump' l'
        | _ => []
        end
      else []
  end.

(** ** fu_rom_load_file *)

(** The function works on the private data of the object, and returns or
    goes wrong at many places: a state monad over [result]. *)
Definition rom_m (A : Type) : Type := FuRomPrivate -> FuRomPrivate * result A.

Definition m_ret {A : Type} (a : A) : rom_m A := fun priv => (priv, Ret a).

Definition m_bind {A B : Type} (m : rom_m A) (k : A -> rom_m B) : rom_m B :=
  fun priv =>
    match m priv with
    | (priv', Ret a) => k a priv'
    | (priv', Err e) => (priv', Err e)
    | (priv', Undefined f) => (priv', Undefined f)
    end.

Definition m_error {A : Type} (e : FwupdError) : rom_m A := fun priv => (priv, Err e).

Definition m_result {A : Type} (r : result A) : rom_m A := fun priv => (priv, r).

Definition m_access {A : Type} (o : outcome A) : rom_m A :=
  m_result (match o with Ok a => Ret a | Fault f => Undefined f end).

Definition m_get : rom_m FuRomPrivate := fun priv => (priv, Ret priv).

Definition m_update (f : FuRomPrivate -> FuRomPrivate) : rom_m unit :=
  fun priv => (f priv, Ret tt).

Notation "'let!' x ':=' m 'in' k" := (m_bind m (fun x => k))
  (at level 10, x name, m at level 100, k at level 200,
   format "'[v' 'let!'  x  ':='  m  'in' '/' k ']'").
Notation "'do!' m 'then' k" := (m_bind m (fun _ => k))
  (at level 10, m at level 100, k at level 200,
   format "'[v' 'do!'  m  'then' '/' k ']'").

(** "print all headers" *)
Fixpoint print_headers (l : list FuRomPciHeader) : outcome unit :=
  match l with
  | [] => Ok tt
  | hdr :: l' => do fu_rom_pci_print_header hdr then print_headers l'
  end.

(** "update checksum": [g_checksum_update] reads [rom_len] bytes of each
    header. *)
Fixpoint update_checksum (l : list FuRomPciHeader) (wip : list byte)
    : outcome (list byte) :=
  match l with
  | [] => Ok wip
  | hdr :: l' =>
      let* data := mem_bytes (rom_read (rom_data hdr)) 0 (Z.to_nat (rom_len hdr)) in
      update_checksum l' (wip ++ data)
  end.

(** [fu_rom_load_file] is long; its parts after the reads are given one by
    one, in the order of the code. *)

(** From "detect optional IFR header" to "print all headers": the headers
    are added to the array; the value is [hdr_sz] and the first header of
    the array. *)
Definition load_headers (host : byte_order) (buffer : list byte)
    : rom_m (Z * FuRomPciHeader) :=
  let! hdr_sz := m_access (ifr_hdr_sz host buffer) in
  let! priv := m_get in
  let! l :=
    match read_headers (S (length buffer)) buffer hdr_sz 0 (hdrs priv) with
    | Some o => m_access o
    | None => m_result (Undefined Hang)
    end in
  do! m_update (set_hdrs l) then
  match l with
  | [] =>
      do! m_access (mem_bytes (buffer_read buffer) 0 2) then
      m_error NoHeaderFound
  | hdr :: _ =>
      do! m_access (print_headers l) then
      m_ret (hdr_sz, hdr)
  end.

(** From "find first ROM header" to the test of the kind ("nothing"). *)
Definition detect_kind (buffer : list byte) (hdr_sz : Z) (hdr : FuRomPciHeader)
    : rom_m unit :=
  let rd := buffer_read buffer in
  let sz := Z.of_nat (length buffer) in
  do! m_update (set_ids (vendor_id hdr) (device_id hdr)) then
  do! m_update (set_kind FU_ROM_KIND_PCI) then
  let! hdr_sz :=
    (if bool_decide (take 11 (reserved hdr) = cstr "00000000000")
     then m_access (le16 rd 0x1a 0x1b)
     else m_ret hdr_sz) in
  if hdr_sz >? sz then m_error CorruptOverflow
  else
    let! k74 := m_access (memcmp_eq rd (hdr_sz + 0x04) (cstr "K74")) in
    do! (if k74 then m_update (set_kind FU_ROM_KIND_NVIDIA)
         else
           let! vbt := m_access (memcmp_eq rd hdr_sz (cstr "$VBT")) in
           if vbt then m_update (set_kind FU_ROM_KIND_INTEL)
           else
             let! ati := m_access (memcmp_eq rd 0x30 (cstr " 761295520")) in
             if ati then m_update (set_kind FU_ROM_KIND_ATI)
             else m_ret tt) then
    let! priv := m_get in
    if bool_decide (kind priv = FU_ROM_KIND_UNKNOWN) then m_error UnknownKind
    else m_ret tt.

(** From "find version string" to the end; [hdr] is the first header. *)
Definition finish_load (hdr : FuRomPciHeader) (blank_ppid : bool) : rom_m unit :=
  let! priv := m_get in
  let! v := m_access (fu_rom_find_version (kind priv) hdr) in
  do! m_update (set_version
        (g_strdelimit_nul [x0d; x0a; x20] <$> (g_strstrip <$> v))) then
  do! (if blank_ppid then
         let! priv := m_get in
         let! priv := m_access (fu_rom_find_and_blank_serial_numbers priv) in
         m_update (fun _ => priv)
       else m_ret tt) then
  let! priv := m_get in
  let! wip := m_access (update_checksum (hdrs priv) (checksum_wip priv)) in
  do! m_update (set_checksum_wip wip) then
  do! m_update (set_guid (Some (vendor priv, model priv))) then
  if bool_decide (version priv = None) then m_error VersionNotFound
  else m_ret tt.

(** [fu_rom_load_file] from "detect optional IFR header" on, with the bytes
    read in [buffer]. *)
Definition load_buffer (host : byte_order) (buffer : list byte)
    (blank_ppid : bool) : rom_m unit :=
  let! r := load_headers host buffer in
  do! detect_kind buffer (fst r) (snd r) then
  finish_load (snd r) blank_ppid.

(** The stream is that of the opened file.  Modelled from the spec: the
    flags are declared in fu-rom.h, which is not among the sources;
    [blank_ppid] says whether [FU_ROM_LOAD_FLAG_BLANK_PPID] is set, the
    [blank_serials] of the spec. *)
Definition fu_rom_load_file (host : byte_order) (stream : GInputStream)
    (blank_ppid : bool) : rom_m unit :=
  match g_input_stream_read stream buffer_sz with
  | (None, _) => m_error IoError
  | (Some buffer, stream) =>
      if Z.of_nat (length buffer) <? 1024 then m_error TooSmall
      else
        let! buffer := m_result (fill_buffer stream buffer 0) in
        load_buffer host buffer blank_ppid
  end.

(** ** Images for the examples *)

(** [l] with the bytes [bs] written at index [off]. *)
Definition patch (off : nat) (bs : list byte) (l : list byte) : list byte :=
  take off l ++ bs ++ drop (off + length bs) l.

Definition zeros (n : nat) : list byte := replicate n x00.

(** [l] from index [off] on, [n] bytes. *)
Definition slice (l : list byte) (off : Z) (n : nat) : list byte :=
  take n (drop (Z.to_nat off) l).

(** The sum of the bytes of [l], each as an unsigned number. *)
Definition byte_sum (l : list byte) : Z := foldr (fun b acc => b2z b + acc) 0 l.

(** ** Notions for the properties *)

(** A reader of the list [l]: its values are the elements of [l]. *)
Definition reads (rd : reader) (l : list byte) : Prop :=
  forall i b, rd i = Ok b <-> 0 <= i /\ l !! Z.to_nat i = Some b.

(** The loop of [fu_rom_pci_strstr] without its reads: the first of the [n]
    indices from [i] on at which the bytes are those of the needle. *)
Fixpoint first_match (data : list byte) (haystack : Z) (needle : list byte)
    (n : nat) (i : Z) : option Z :=
  match n with
  | O => None
  | S n' =>
      if bool_decide (slice data (haystack + i) (length needle) = needle)
      then Some (haystack + i)
      else first_match data haystack needle n' (i + 1)
  end.

(** The needle is at index [q] of the region of the header that
    [fu_rom_pci_strstr] searches, with a byte of the region after it. *)
Definition in_region (hdr : FuRomPciHeader) (needle : list byte) (q : Z) : Prop :=
  data_len hdr <= q
  /\ q + Z.of_nat (length needle) < rom_len hdr
  /\ slice (rom_data hdr) q (length needle) = needle.

(** No "PPID" of the region starts after the field that the pass blanks,
    the field at the first "PPID". *)
Definition no_ppid_after_field (hdr : FuRomPciHeader) : Prop :=
  forall p data len q,
    fu_rom_pci_strstr hdr (cstr "PPID") = Ok (Some p) ->
    fu_rom_blank_serial_numbers (rom_data hdr) p
      (u32 (rom_len hdr - data_len hdr)) = Ok (data, len) ->
    in_region hdr (cstr "PPID") q ->
    q < p + len.

(** ** Headers and images of the examples *)

(** A header with the block [data] at [offset] and no PCI data. *)
Definition plain_header (data : list byte) (offset : Z) : FuRomPciHeader := {|
  rom_data := data; rom_len := Z.of_nat (length data); rom_offset := offset;
  entry_point := 0; reserved := replicate 18 x00; cpi_ptr := 0;
  vendor_id := 0; device_id := 0; device_list_ptr := 0; data_len := 0;
  data_rev := 0; class_code := 0; image_len := 0; revision_level := 0;
  code_type := 0; last_image := 0; max_runtime_len := 0;
  config_header_ptr := 0; dmtf_clp_ptr := 0 |}.

(** 512 bytes with one serial number, and with two. *)
Definition hdr_one_ppid : FuRomPciHeader :=
  plain_header
    (patch 100 (cstr "PPID12345") (patch 0 [x55; xaa; x01] (zeros 512))) 0.

Definition hdr_two_ppid : FuRomPciHeader :=
  plain_header
    (patch 200 (cstr "PPID67890")
       (patch 100 (cstr "PPID12345") (patch 0 [x55; xaa; x01] (zeros 512)))) 0.

Definition rom_with (kind' : FuRomKind) (l : list FuRomPciHeader) : FuRomPrivate :=
  set_hdrs l (set_kind kind' fu_rom_new).

(** An image of 1040 bytes: a header of 1024 bytes with the mark of ATI,
    then 16 bytes that are no header and end in "PPID". *)
Definition rom_tail_ppid : list byte :=
  patch 1024 (cstr "xxxxxxxxxxxxPPID")
    (patch 48 (cstr " 761295520") (patch 0 [x55; xaa; x02] (zeros 1040))).

(** The header that the loop makes of these 16 bytes. *)
Definition hdr_tail_ppid : FuRomPciHeader := {|
  rom_data := cstr "xxxxxxxxxxxxPPID"; rom_len := 16; rom_offset := 1024;
  entry_point := 0; reserved := replicate 18 x00; cpi_ptr := 0;
  vendor_id := 0; device_id := 0; device_list_ptr := 0; data_len := 0;
  data_rev := 0; class_code := 0; image_len := 16; revision_level := 0;
  code_type := 0; last_image := 0x80; max_runtime_len := 0;
  config_header_ptr := 0; dmtf_clp_ptr := 0 |}.

(** An image that starts with "NVGI" and has 01 02 at 0x15. *)
Definition rom_ifr : list byte :=
  patch 21 [x01; x02] (patch 0 (cstr "NVGI") (zeros 1024)).

(** An image of 1024 bytes: a header of 512 bytes, then zeros. *)
Definition rom_padding : list byte := patch 0 [x55; xaa; x01] (zeros 1024).

(** The same with one byte that is not zero where the second header would
    start. *)
Definition rom_junk : list byte := patch 512 [x01] rom_padding.

(** The header "found junk data, adding fake" makes of the bytes of
    [buffer] from [off] on. *)
Definition fallback_header (buffer : list byte) (off : Z) : FuRomPciHeader := {|
  rom_data := drop (Z.to_nat off) buffer;
  rom_len := Z.of_nat (length buffer) - off;
  rom_offset := off;
  entry_point := 0; reserved := replicate 18 x00; cpi_ptr := 0;
  vendor_id := 0; device_id := 0; device_list_ptr := 0; data_len := 0;
  data_rev := 0; class_code := 0;
  image_len := Z.of_nat (length buffer) - off;
  revision_level := 0; code_type := 0; last_image := 0x80;
  max_runtime_len := 0; config_header_ptr := 0; dmtf_clp_ptr := 0 |}.

(** An image of 1024 bytes of the kind PCI: one header with the mark of ARC
    storage in its reserved bytes, a version after "BIOS: " and a serial
    number after "PPID". *)
Definition rom_arc : list byte :=
  patch 200 (cstr "PPID12345")
    (patch 100 (cstr "BIOS: 1.2.3") (patch 106 [x31; x2e; x32; x2e; x33; x0a]
       (patch 8 (cstr "ARC") (patch 0 [x55; xaa; x02] (zeros 1024))))).

(** An image of 1536 bytes: a header of 1024 bytes, then 512 zeros. *)
Definition rom_long_scan : list byte := patch 0 [x55; xaa; x02] (zeros 1536).

(** An image of 1088 bytes: "NVGI" and 04 at 0x15, so that [hdr_sz] is 1024
    on a little-endian host; at 1024 a header with size byte 0, of the 64
    bytes that are left, with the mark "K74" of NVIDIA. *)
Definition rom_short_header : list byte :=
  patch 1028 (cstr "K74")
    (patch 1024 [x55; xaa; x00] (patch 21 [x04] (patch 0 (cstr "NVGI") (zeros 1088)))).

Definition hdr_short : FuRomPciHeader := {|
  rom_data := slice rom_short_header 1024 64; rom_len := 64; rom_offset := 1024;
  entry_point := 0x374b00; reserved := x34 :: replicate 17 x00; cpi_ptr := 0;
  vendor_id := 0; device_id := 0; device_list_ptr := 0; data_len := 0;
  data_rev := 0; class_code := 0; image_len := 0; revision_level := 0;
  code_type := 0; last_image := 0; max_runtime_len := 0;
  config_header_ptr := 0; dmtf_clp_ptr := 0 |}.

(** An image of 1024 bytes with the mark of ATI: a header of 512 bytes
    whose last 12 bytes are a serial number with no end mark, then zeros. *)
Definition rom_open_serial : list byte :=
  patch 500 (cstr "PPIDabcdefgh")
    (patch 48 (cstr " 761295520") (patch 0 [x55; xaa; x01] (zeros 1024))).

(** A header as the loop makes them: a block of [rom_len] bytes, with
    [rom_len] and [data_len] in the range of their types. *)
Definition hdr_wf (hdr : FuRomPciHeader) : Prop :=
  Z.of_nat (length (rom_data hdr)) = rom_len hdr
  /\ 0 < rom_len hdr < 4294967296
  /\ 0 <= data_len hdr < 65536.

(** All the bytes that a stream delivers. *)
Definition stream_bytes (stream : GInputStream) : list byte :=
  concat (omap id stream).

(** A header whose PCI data says [data_len = 600] for a block of 512
    bytes. *)
Definition hdr_long_data : FuRomPciHeader := {|
  rom_data := rom_data hdr_one_ppid; rom_len := 512; rom_offset := 0;
  entry_point := 0; reserved := [x00; x00; x41; x52; x43] ++ replicate 13 x00;
  cpi_ptr := 0x20;
  vendor_id := 0; device_id := 0; device_list_ptr := 0; data_len := 600;
  data_rev := 0; class_code := 0; image_len := 512; revision_level := 0;
  code_type := 0; last_image := 0x80; max_runtime_len := 0;
  config_header_ptr := 0; dmtf_clp_ptr := 0 |}.

(** The bytes at which [fu_rom_blank_serial_numbers] stops: 0xff, NUL, line
    feed and carriage return. *)
Definition is_end_mark (b : byte) : bool :=
  bool_decide (b = xff) || bool_decide (b = x00)
  || bool_decide (b = x0a) || bool_decide (b = x0d).

(** The byte of [l] at [off] as a number, and the 16-bit little-endian
    number at [off]; 0 stands for a byte that [l] does not have. *)
Definition byte_at (l : list byte) (off : Z) : Z :=
  b2z (default x00 (l !! Z.to_nat off)).

Definition le16_at (l : list byte) (off : Z) : Z :=
  byte_at l off + 256 * byte_at l (off + 1).

(** The signatures that [fu_rom_pci_parse_data] takes for a PCI data
    structure. *)
Definition pci_signatures : list (list byte) :=
  [cstr "PCIR"; cstr "RGIS"; cstr "NPDS"; cstr "NPDE"].

(** A header of 512 bytes with a PCI data structure at 0x20. *)
Definition hdr_pcir : FuRomPciHeader :=
  set_rom_data
    (patch 32 (cstr "PCIR" ++ [x34; x12; x78; x56; x00; x00; x18; x00; x03;
                               x00; x00; x03; x01; x00; x01; x00; x00; x80;
                               x02; x00; x00; x00; x00; x00])
       (patch 24 [x20; x00] (patch 0 [x55; xaa; x01] (zeros 512))))
    {| rom_data := []; rom_len := 512; rom_offset := 0; entry_point := 0;
       reserved := replicate 18 x00; cpi_ptr := 0x20;
       vendor_id := 0; device_id := 0; device_list_ptr := 0; data_len := 0;
       data_rev := 0; class_code := 0; image_len := 0; revision_level := 0;
       code_type := 0; last_image := 0; max_runtime_len := 0;
       config_header_ptr := 0; dmtf_clp_ptr := 0 |}.

(** The headers of [l] lie one after the other in [buffer] from [off] on:
    each has its offset, at least one byte, the [rom_len] bytes from its
    offset on as its block, and ends where the next one starts. *)
Fixpoint contiguous (buffer : list byte) (off : Z) (l : list FuRomPciHeader)
    : Prop :=
  match l with
  | [] => True
  | hdr :: l' =>
      rom_offset hdr = off
      /\ 0 < rom_len hdr
      /\ off + rom_len hdr <= Z.of_nat (length buffer)
      /\ rom_data hdr = slice buffer off (Z.to_nat (rom_len hdr))
      /\ contiguous buffer (off + rom_len hdr) l'
  end.

(** The sum of the sizes of the headers. *)
Definition total_len (l : list FuRomPciHeader) : Z :=
  foldr (fun hdr acc => rom_len hdr + acc) 0 l.

(** [hdr1] is [hdr] with other bytes, as many, in its block. *)
Definition same_but_bytes (hdr hdr1 : FuRomPciHeader) : Prop :=
  exists data, hdr1 = set_rom_data data hdr
               /\ length data = length (rom_data hdr).

(** The value of [hdr_sz] after "detect intel header", for a buffer that
    has the bytes at 0x1a and 0x1b. *)
Definition intel_hdr_sz (buffer : list byte) (hdr_sz : Z) (hdr : FuRomPciHeader)
    : Z :=
  if bool_decide (take 11 (reserved hdr) = cstr "00000000000")
  then le16_at buffer 0x1a else hdr_sz.

(** The kind that the marks in the buffer stand for: "K74" at [hdr_sz + 4],
    then "$VBT" at [hdr_sz], then " 761295520" at 0x30. *)
Definition kind_of_marks (buffer : list byte) (hdr_sz : Z) : FuRomKind :=
  if bool_decide (slice buffer (hdr_sz + 4) 3 = cstr "K74")
  then FU_ROM_KIND_NVIDIA
  else if bool_decide (slice buffer hdr_sz 4 = cstr "$VBT")
  then FU_ROM_KIND_INTEL
  else if bool_decide (slice buffer 0x30 10 = cstr " 761295520")
  then FU_ROM_KIND_ATI
  else FU_ROM_KIND_PCI.

(** ** fu_rom_extract_all

    [g_file_set_contents] is a function of GLib: [can_write] says, for the
    number [i] of the file name "%02i.bin" in [path], whether the call
    succeeds.  The files written are kept with that number and their
    contents, in the order of the calls; the call reads the [rom_len] bytes
    it is given. *)
Fixpoint extract_loop (can_write : Z -> bool) (l : list FuRomPciHeader)
    (i : Z) (files : list (Z * list byte))
    : outcome (list (Z * list byte) * bool) :=
  match l with
  | [] => Ok (files, true)
  | hdr :: l' =>
      if rom_len hdr =? 0 then extract_loop can_write l' (u32 (i + 1)) files
      else
        let* contents :=
          mem_bytes (rom_read (rom_data hdr)) 0 (Z.to_nat (rom_len hdr)) in
        if can_write i
        then extract_loop can_write l' (u32 (i + 1)) (files ++ [(i, contents)])
        else Ok (files, false)
  end.

Definition fu_rom_extract_all (priv : FuRomPrivate) (can_write : Z -> bool)
    : outcome (list (Z * list byte) * bool) :=
  extract_loop can_write (hdrs priv) 0 [].

(** The blocks of the headers with their numbers, from [i] on. *)
Fixpoint numbered (i : Z) (l : list FuRomPciHeader) : list (Z * list byte) :=
  match l with
  | [] => []
  | hdr :: l' => (i, rom_data hdr) :: numbered (i + 1) l'
  end.

(** A header of 512 bytes with the version marker of ATI at 100. *)
Definition hdr_ati_ver : FuRomPciHeader :=
  plain_header (patch 100 (cstr " VER012.3") (zeros 512)) 0.

(** ** The text of fu_rom_get_hex_dump

    [g_ascii_isprint] is a function of GLib: the characters from the space
    to the tilde. *)
Definition g_ascii_isprint (b : byte) : bool :=
  (0x20 <=? b2z b) && (b2z b <? 0x7f).

(** A digit of "%02x". *)
Definition hex_digit (n : Z) : byte :=
  default x30 (cstr "0123456789abcdef" !! Z.to_nat n).

(** The string that [fu_rom_get_hex_dump] returns, [None] for NULL: the
    bytes as "%02x ", three spaces, then the bytes as characters, with '?'
    for a byte that is not printable. *)
Definition hex_dump_text (rd : reader) (buffer : Z) (sz : Z)
    : outcome (option (list byte)) :=
  if sz <=? 0 then Ok None
  else
    let* bs := mem_bytes rd buffer (Z.to_nat sz) in
    Ok (Some
          (concat ((fun b => [hex_digit (b2z b / 16); hex_digit (b2z b mod 16);
                              x20]) <$> bs)
           ++ [x20; x20; x20]
           ++ ((fun b => if g_ascii_isprint b then b else x3f) <$> bs))).

(** ** The read buffer as the code has it

    [buffer_read] ends a run at the first read past the bytes of the file.
    The code does not: the block that [g_malloc] returned has [buffer_sz]
    bytes, the reads of the stream have written the first ones, the bytes
    [buffer] of the file, and the others, [junk], are what the block held
    before.  C reads such a byte like any other, with a value that the
    file does not determine, and goes on; only a read past the block is
    out of bounds.  [malloc_read] is the reader of that block. *)
Definition malloc_read (buffer junk : list byte) : reader :=
  rom_read (buffer ++ junk).

(** The body of "read all the ROM headers" and the loop, for any reader
    [rd] of the read buffer and the size [sz] of the file: [header_round]
    and [read_headers] are these for [buffer_read buffer] and
    [length buffer]. *)
Definition header_round_at (rd : reader) (sz : Z) (hdr_sz jump : Z)
    (l : list FuRomPciHeader) : outcome loop_end :=
  let* hdr := fu_rom_pci_get_header rd (u32 (hdr_sz + jump)) (sz - hdr_sz - jump) in
  match hdr with
  | None =>
      let* found_data :=
        junk_scan rd (u32 (hdr_sz + jump)) (Z.to_nat (u32 (hdr_sz + jump))) 0 in
      if found_data then
        let* hdr := fake_header rd sz hdr_sz jump in
        Ok (Break (l ++ [hdr]))
      else Ok (Break l)
  | Some hdr =>
      let hdr := set_rom_offset (u32 (hdr_sz + jump)) hdr in
      let l := l ++ [hdr] in
      let jump_sz := rom_len hdr in
      let jump_sz := if jump_sz =? 0 then image_len hdr else jump_sz in
      if jump_sz =? 0x0 then Ok (Break l)
      else Ok (Continue (u32 (jump + jump_sz)) l)
  end.

Fixpoint read_headers_at (fuel : nat) (rd : reader) (sz : Z) (hdr_sz jump : Z)
    (l : list FuRomPciHeader) : option (outcome (list FuRomPciHeader)) :=
  match fuel with
  | O => None
  | S fuel' =>
      if sz >? u32 (hdr_sz + jump) then
        match header_round_at rd sz hdr_sz jump l with
        | Ok (Continue jump' l') => read_headers_at fuel' rd sz hdr_sz jump' l'
        | Ok (Break l') => Some (Ok l')
        | Fault f => Some (Fault f)
        end
      else Some (Ok l)
  end.

(** [rd'] reads what [rd] reads, and maybe more. *)
Definition extends (rd rd' : reader) : Prop :=
  forall i b, rd i = Ok b -> rd' i = Ok b.

(** An image of 1025 bytes: a header of 1024 bytes and one byte after it
    that is not zero. *)
Definition rom_one_more : list byte :=
  patch 0 [x55; xaa; x02] (zeros 1024) ++ [x01].

(** An image of 1024 bytes whose header gives its size as 3 blocks of 512
    bytes. *)
Definition rom_big_header : list byte := patch 0 [x55; xaa; x03] (zeros 1024).

(** * Properties *)

(** ** Bytes *)

Lemma b2z_range (b : byte) : 0 <= b2z b < 256.
Proof.
  unfold b2z. pose proof (Byte.to_N_bounded b) as H. lia.
Qed.

Lemma b2z_z2b (z : Z) : b2z (z2b z) = z mod 256.
Proof.
  unfold z2b, b2z.
  pose proof (Z.mod_pos_bound z 256 ltac:(lia)) as Hm.
  destruct (Byte.of_N (Z.to_N (z mod 256))) as [b|] eqn:E.
  - apply Byte.to_of_N in E. rewrite E. lia.
  - apply Byte.of_N_None_iff in E. lia.
Qed.

Lemma b2z_inj (a b : byte) : b2z a = b2z b -> a = b.
Proof.
  unfold b2z. intros H. apply N2Z.inj in H.
  pose proof (Byte.of_to_N a) as Ha. pose proof (Byte.of_to_N b) as Hb.
  congruence.
Qed.

Lemma z2b_b2z (b : byte) : z2b (b2z b) = b.
Proof.
  apply b2z_inj. rewrite b2z_z2b. pose proof (b2z_range b).
  apply Z.mod_small. lia.
Qed.

Lemma u32_small (z : Z) : 0 <= z < 4294967296 -> u32 z = z.
Proof. intros H. unfold u32. apply Z.mod_small. exact H. Qed.

Lemma u16_small (z : Z) : 0 <= z < 65536 -> u16 z = z.
Proof. intros H. unfold u16. apply Z.mod_small. exact H. Qed.

Lemma u32_range (z : Z) : 0 <= u32 z < 4294967296.
Proof. unfold u32. apply Z.mod_pos_bound. lia. Qed.

Lemma u16_range (z : Z) : 0 <= u16 z < 65536.
Proof. unfold u16. apply Z.mod_pos_bound. lia. Qed.

(** ** Reads *)

Lemma bind_Ok {A B : Type} (m : outcome A) (k : A -> outcome B) (b : B) :
  bind m k = Ok b <-> exists a, m = Ok a /\ k a = Ok b.
Proof.
  destruct m as [a|f]; simpl; split.
  - intros H. exists a. auto.
  - intros (a' & [= ->] & H). exact H.
  - discriminate.
  - intros (a' & H & _). discriminate.
Qed.

Lemma rom_read_Ok (data : list byte) (i : Z) (b : byte) :
  rom_read data i = Ok b <-> 0 <= i /\ data !! Z.to_nat i = Some b.
Proof.
  unfold rom_read. destruct (Z.ltb_spec i 0) as [Hi|Hi].
  - split; [discriminate | lia].
  - destruct (data !! Z.to_nat i) as [b'|]; split.
    + intros [= ->]. auto.
    + intros [_ [= ->]]. reflexivity.
    + discriminate.
    + intros [_ H]. discriminate.
Qed.

Lemma buffer_read_Ok (buffer : list byte) (i : Z) (b : byte) :
  buffer_read buffer i = Ok b <-> 0 <= i /\ buffer !! Z.to_nat i = Some b.
Proof.
  unfold buffer_read. destruct (Z.ltb_spec i 0) as [Hi|Hi].
  - split; [discriminate | lia].
  - destruct (buffer !! Z.to_nat i) as [b'|]; split.
    + intros [= ->]. auto.
    + intros [_ [= ->]]. reflexivity.
    + destruct (i <? buffer_sz); discriminate.
    + intros [_ H]. discriminate.
Qed.

Lemma reads_rom (data : list byte) : reads (rom_read data) data.
Proof. intros i b. apply rom_read_Ok. Qed.

Lemma reads_buffer (buffer : list byte) : reads (buffer_read buffer) buffer.
Proof. intros i b. apply buffer_read_Ok. Qed.

Lemma slice_cons (l : list byte) (off : Z) (n : nat) (b : byte) :
  0 <= off -> l !! Z.to_nat off = Some b ->
  slice l off (S n) = b :: slice l (off + 1) n.
Proof.
  intros Hoff Hb. unfold slice.
  rewrite (drop_S l b (Z.to_nat off) Hb). simpl.
  replace (Z.to_nat (off + 1)) with (S (Z.to_nat off)) by lia. reflexivity.
Qed.

Lemma slice_length (l : list byte) (off : Z) (n : nat) :
  (Z.to_nat off + n <= length l)%nat -> length (slice l off n) = n.
Proof. intros H. unfold slice. rewrite length_take, length_drop. lia. Qed.

Section Reads.
Context (rd : reader) (l : list byte) (Hrd : reads rd l).

(** Reading [n] bytes inside the list gives them. *)
Lemma mem_bytes_in (off : Z) (n : nat) :
  0 <= off -> (Z.to_nat off + n <= length l)%nat ->
  mem_bytes rd off n = Ok (slice l off n).
Proof using Hrd.
  revert off. induction n as [|n IH]; intros off Hoff Hlen.
  - unfold slice. rewrite take_0. reflexivity.
  - destruct (lookup_lt_is_Some_2 l (Z.to_nat off) ltac:(lia)) as [b Hb].
    simpl. rewrite (proj2 (Hrd off b) (conj Hoff Hb)). simpl.
    rewrite IH by lia. simpl. rewrite (slice_cons l off n b Hoff Hb).
    reflexivity.
Qed.

(** A read of [n] bytes that gives a value was inside the list. *)
Lemma mem_bytes_Ok (off : Z) (n : nat) (bs : list byte) :
  mem_bytes rd off n = Ok bs ->
  bs = slice l off n /\ (n <> 0%nat -> 0 <= off /\ (Z.to_nat off + n <= length l)%nat).
Proof using Hrd.
  revert off bs. induction n as [|n IH]; intros off bs H.
  - simpl in H. injection H as <-. unfold slice. rewrite take_0.
    split; [reflexivity | intros Hn; congruence].
  - simpl in H. apply bind_Ok in H as (b & Hb & H).
    apply bind_Ok in H as (bs' & Hbs & H). injection H as <-.
    apply Hrd in Hb as [Hoff Hb].
    apply IH in Hbs as [-> Hn].
    rewrite (slice_cons l off n b Hoff Hb). split; [reflexivity|].
    intros _. split; [exact Hoff|].
    apply lookup_lt_Some in Hb.
    destruct n as [|n]; [lia|]. specialize (Hn ltac:(lia)). lia.
Qed.

Lemma memcmp_eq_Ok (off : Z) (lit : list byte) (r : bool) :
  memcmp_eq rd off lit = Ok r ->
  r = bool_decide (slice l off (length lit) = lit)
  /\ (lit <> [] -> 0 <= off /\ (Z.to_nat off + length lit <= length l)%nat).
Proof using Hrd.
  unfold memcmp_eq. intros H. apply bind_Ok in H as (bs & Hbs & H).
  injection H as <-. apply mem_bytes_Ok in Hbs as [-> Hn]. split; [reflexivity|].
  intros Hlit. apply Hn. destruct lit; [congruence | discriminate].
Qed.

Lemma memcmp_eq_in (off : Z) (lit : list byte) :
  0 <= off -> (Z.to_nat off + length lit <= length l)%nat ->
  memcmp_eq rd off lit = Ok (bool_decide (slice l off (length lit) = lit)).
Proof using Hrd.
  intros Hoff Hlen. unfold memcmp_eq. rewrite mem_bytes_in by assumption.
  reflexivity.
Qed.
End Reads.

(** ** The search *)

Lemma strstr_loop_Ok data haystack needle n i r :
  strstr_loop (rom_read data) haystack needle n i = Ok r ->
  r = first_match data haystack needle n i.
Proof.
  revert i. induction n as [|n IH]; intros i H; simpl in H |- *.
  - congruence.
  - apply bind_Ok in H as (same & Hsame & H).
    apply (memcmp_eq_Ok _ _ (reads_rom data)) in Hsame as [-> _].
    destruct (bool_decide _); [congruence | auto].
Qed.

Lemma strstr_loop_in data haystack needle n i :
  0 <= haystack + i ->
  (n <> 0 -> Z.to_nat (haystack + i) + n + length needle <= S (length data))%nat ->
  strstr_loop (rom_read data) haystack needle n i
  = Ok (first_match data haystack needle n i).
Proof.
  revert i. induction n as [|n IH]; intros i Hi Hlen; simpl.
  - reflexivity.
  - rewrite (memcmp_eq_in _ _ (reads_rom data)) by lia. simpl.
    destruct (bool_decide _); [reflexivity|].
    replace (haystack + (i + 1)) with (haystack + i + 1) in * by lia.
    apply IH; [lia|]. intros Hn.
    replace (haystack + (i + 1)) with (haystack + i + 1) by lia. lia.
Qed.

Lemma first_match_Some data haystack needle n i p :
  first_match data haystack needle n i = Some p ->
  exists j, p = haystack + j /\ i <= j < i + Z.of_nat n
    /\ slice data p (length needle) = needle
    /\ forall j', i <= j' < j ->
         slice data (haystack + j') (length needle) <> needle.
Proof.
  revert i. induction n as [|n IH]; intros i H; simpl in H.
  - discriminate.
  - case_bool_decide as Hm.
    + injection H as <-. exists i. repeat split; [lia | lia | exact Hm | lia].
    + apply IH in H as (j & -> & Hj & Hs & Hfirst).
      exists j. repeat split; [lia | lia | exact Hs |].
      intros j' Hj'. destruct (decide (j' = i)) as [->|Hne]; [exact Hm|].
      apply Hfirst. lia.
Qed.

Lemma first_match_None data haystack needle n i :
  first_match data haystack needle n i = None ->
  forall j, i <= j < i + Z.of_nat n ->
    slice data (haystack + j) (length needle) <> needle.
Proof.
  revert i. induction n as [|n IH]; intros i H j Hj; simpl in H.
  - lia.
  - case_bool_decide as Hm; [discriminate|].
    destruct (decide (j = i)) as [->|Hne]; [exact Hm|].
    apply (IH _ H). lia.
Qed.

(** What a pointer returned by the search is: the first index of the
    region, with the needle at it and at least one byte of the region after
    the needle. *)
Lemma fu_rom_pci_strstr_Some hdr needle p :
  fu_rom_pci_strstr hdr needle = Ok (Some p) ->
  data_len hdr <= p
  /\ p + Z.of_nat (length needle) < rom_len hdr
  /\ slice (rom_data hdr) p (length needle) = needle
  /\ forall q, data_len hdr <= q < p ->
       slice (rom_data hdr) q (length needle) <> needle.
Proof.
  unfold fu_rom_pci_strstr. intros H.
  destruct needle as [|c needle]; [discriminate|].
  destruct (rom_data hdr) as [|d data] eqn:Hdata; [discriminate|].
  destruct (data_len hdr >? rom_len hdr); [discriminate|].
  destruct (_ >? _); [discriminate|].
  apply strstr_loop_Ok in H. symmetry in H.
  apply first_match_Some in H as (j & -> & Hj & Hs & Hfirst).
  repeat split; [lia | lia | exact Hs |].
  intros q Hq. replace q with (data_len hdr + (q - data_len hdr)) by lia.
  apply Hfirst. lia.
Qed.

(** What NULL says, for a needle and a block that are not empty: the needle
    is at no index of the region that leaves a byte of the region after it. *)
Lemma fu_rom_pci_strstr_None hdr needle :
  fu_rom_pci_strstr hdr needle = Ok None ->
  needle <> [] -> rom_data hdr <> [] ->
  forall q, data_len hdr <= q -> q + Z.of_nat (length needle) < rom_len hdr ->
    slice (rom_data hdr) q (length needle) <> needle.
Proof.
  unfold fu_rom_pci_strstr. intros H Hneedle Hdata q Hq1 Hq2.
  destruct needle as [|c needle]; [congruence|].
  destruct (rom_data hdr) as [|d data] eqn:Hd; [congruence|].
  destruct (Z.gtb_spec (data_len hdr) (rom_len hdr)); [lia|].
  destruct (Z.gtb_spec (Z.of_nat (length (c :: needle)))
              (rom_len hdr - data_len hdr)); [lia|].
  apply strstr_loop_Ok in H. symmetry in H.
  replace q with (data_len hdr + (q - data_len hdr)) by lia.
  apply (first_match_None _ _ _ _ _ H). lia.
Qed.

(** The search stays inside a block of [rom_len] bytes. *)
Lemma fu_rom_pci_strstr_in hdr needle :
  0 <= data_len hdr -> rom_len hdr <= Z.of_nat (length (rom_data hdr)) ->
  exists r, fu_rom_pci_strstr hdr needle = Ok r.
Proof.
  intros Hd Hlen. unfold fu_rom_pci_strstr.
  destruct needle as [|c needle]; [eauto|].
  destruct (rom_data hdr) as [|d data] eqn:Hdata; [eauto|].
  destruct (Z.gtb_spec (data_len hdr) (rom_len hdr)); [eauto|].
  destruct (Z.gtb_spec (Z.of_nat (length (c :: needle)))
              (rom_len hdr - data_len hdr)); [eauto|].
  rewrite strstr_loop_in; [eauto | lia |]. intros _. lia.
Qed.

(** The search finds the first occurrence that leaves a byte of the region
    after it, in a block of [rom_len] bytes. *)
Lemma fu_rom_pci_strstr_finds hdr needle q :
  0 <= data_len hdr -> rom_len hdr <= Z.of_nat (length (rom_data hdr)) ->
  needle <> [] -> in_region hdr needle q ->
  exists p,
    fu_rom_pci_strstr hdr needle = Ok (Some p)
    /\ p <= q /\ in_region hdr needle p
    /\ forall q', data_len hdr <= q' < p ->
         slice (rom_data hdr) q' (length needle) <> needle.
Proof.
  intros Hd Hlen Hneedle (Hq1 & Hq2 & Hq3).
  destruct (fu_rom_pci_strstr_in hdr needle Hd Hlen) as [[p|] Hr].
  - pose proof (fu_rom_pci_strstr_Some _ _ _ Hr) as (Hp1 & Hp2 & Hp3 & Hfirst).
    exists p. split; [exact Hr|]. split; [|split; [repeat split; assumption|exact Hfirst]].
    destruct (Z.leb_spec p q) as [|Hlt]; [assumption|].
    exfalso. apply (Hfirst q); [lia | exact Hq3].
  - exfalso. apply (fu_rom_pci_strstr_None _ _ Hr Hneedle) with (q := q); try assumption.
    intros Hnil. rewrite Hnil in Hlen. simpl in Hlen. lia.
Qed.

(** ** The checksum *)

Lemma byte_sum_app (l1 l2 : list byte) :
  byte_sum (l1 ++ l2) = byte_sum l1 + byte_sum l2.
Proof.
  induction l1 as [|b l1 IH]; simpl; [reflexivity|].
  unfold byte_sum in *. simpl. rewrite IH. lia.
Qed.

Lemma checksum_loop_Ok rd l n i acc c :
  reads rd l ->
  checksum_loop rd n i acc = Ok c ->
  c = foldl (fun a b => (a + b2z b) mod 256) acc (slice l i n)
  /\ (n <> 0%nat -> 0 <= i /\ (Z.to_nat i + n <= length l)%nat).
Proof.
  intros Hrd. revert i acc. induction n as [|n IH]; intros i acc H; simpl in H.
  - injection H as <-. split; [reflexivity | congruence].
  - apply bind_Ok in H as (b & Hb & H). apply Hrd in Hb as [Hi Hb].
    apply IH in H as [-> Hn]. rewrite (slice_cons l i n b Hi Hb). simpl.
    split; [reflexivity|]. intros _. split; [exact Hi|].
    apply lookup_lt_Some in Hb. destruct n as [|n]; [lia|].
    specialize (Hn ltac:(lia)). lia.
Qed.

Lemma checksum_loop_in rd l n i acc :
  reads rd l -> 0 <= i -> (Z.to_nat i + n <= length l)%nat ->
  checksum_loop rd n i acc
  = Ok (foldl (fun a b => (a + b2z b) mod 256) acc (slice l i n)).
Proof.
  intros Hrd. revert i acc. induction n as [|n IH]; intros i acc Hi Hlen; simpl.
  - reflexivity.
  - destruct (lookup_lt_is_Some_2 l (Z.to_nat i) ltac:(lia)) as [b Hb].
    rewrite (proj2 (Hrd i b) (conj Hi Hb)). simpl.
    rewrite IH by lia. rewrite (slice_cons l i n b Hi Hb). reflexivity.
Qed.

Lemma checksum_fold_sum (l : list byte) (acc : Z) :
  0 <= acc < 256 ->
  foldl (fun a b => (a + b2z b) mod 256) acc l = (acc + byte_sum l) mod 256.
Proof.
  revert acc. induction l as [|b l IH]; intros acc Hacc; simpl.
  - unfold byte_sum. simpl. rewrite Z.add_0_r. symmetry. apply Z.mod_small. lia.
  - rewrite IH by (apply Z.mod_pos_bound; lia).
    rewrite Zplus_mod_idemp_l. f_equal. unfold byte_sum. simpl. lia.
Qed.

(** The checksum of a header is the sum of its first [rom_len] bytes modulo
    256, and it is computed only if the block has that many bytes. *)
Lemma fu_rom_pci_header_get_checksum_Ok hdr c :
  fu_rom_pci_header_get_checksum hdr = Ok c ->
  c = byte_sum (take (Z.to_nat (rom_len hdr)) (rom_data hdr)) mod 256
  /\ (Z.to_nat (rom_len hdr) <= length (rom_data hdr))%nat.
Proof.
  unfold fu_rom_pci_header_get_checksum. intros H.
  apply (checksum_loop_Ok _ _ _ _ _ _ (reads_rom _)) in H as [-> Hn].
  rewrite checksum_fold_sum by lia. unfold slice. simpl. rewrite drop_0.
  split; [reflexivity|].
  destruct (Z.to_nat (rom_len hdr)) as [|n]; [lia|].
  specialize (Hn ltac:(lia)). lia.
Qed.

Lemma fu_rom_pci_header_get_checksum_in hdr :
  (Z.to_nat (rom_len hdr) <= length (rom_data hdr))%nat ->
  fu_rom_pci_header_get_checksum hdr
  = Ok (byte_sum (take (Z.to_nat (rom_len hdr)) (rom_data hdr)) mod 256).
Proof.
  intros H. unfold fu_rom_pci_header_get_checksum.
  rewrite (checksum_loop_in _ _ _ _ _ (reads_rom _)) by (simpl; lia).
  rewrite checksum_fold_sum by lia. unfold slice. simpl. rewrite drop_0.
  reflexivity.
Qed.

(** The arithmetic of the fix-up: with [s] the sum of the other bytes and [b]
    the last byte, taking the checksum from the last byte makes the sum 0. *)
Lemma checksum_fix_arith (s b : Z) :
  (s + (b - (s + b) mod 256) mod 256) mod 256 = 0.
Proof.
  rewrite Zplus_mod_idemp_r.
  replace (s + (b - (s + b) mod 256)) with ((s + b) - (s + b) mod 256) by lia.
  rewrite Zminus_mod_idemp_r. rewrite Z.sub_diag. reflexivity.
Qed.

(** ** The blanking pass over one header *)

Lemma blank_loop_length data start n i data' len :
  blank_loop data start n i = Ok (data', len) -> length data' = length data.
Proof.
  revert data i. induction n as [|n IH]; intros data i H; simpl in H.
  - congruence.
  - apply bind_Ok in H as (b & _ & H).
    destruct (_ || _).
    + congruence.
    + apply IH in H. rewrite length_insert in H. exact H.
Qed.

Lemma blank_and_fix_Ok hdr tmp hdr' :
  blank_and_fix hdr tmp = Ok hdr' ->
  exists data len chk b,
    fu_rom_blank_serial_numbers (rom_data hdr) tmp (u32 (rom_len hdr - data_len hdr))
      = Ok (data, len)
    /\ fu_rom_pci_header_get_checksum (set_rom_data data hdr) = Ok chk
    /\ rom_read data (u32 (rom_len hdr - 1)) = Ok b
    /\ hdr' = set_rom_data
                (<[Z.to_nat (u32 (rom_len hdr - 1)) := z2b (b2z b - chk)]> data) hdr.
Proof.
  unfold blank_and_fix. intros H.
  apply bind_Ok in H as ([data len] & Hblank & H).
  apply bind_Ok in H as (chk & Hchk & H).
  apply bind_Ok in H as (b & Hb & H). injection H as <-.
  exists data, len, chk, b. simpl in *. auto.
Qed.

(** What the blanking loop writes: zeros at the indices from [start + i] up
    to [start + len], nothing elsewhere. *)
Lemma blank_loop_Ok data start n i data' len :
  blank_loop data start n i = Ok (data', len) ->
  i <= len <= i + Z.of_nat n
  /\ (forall k : nat, Z.of_nat k < start + i \/ start + len <= Z.of_nat k ->
        data' !! k = data !! k)
  /\ (forall k : nat, start + i <= Z.of_nat k < start + len ->
        data' !! k = Some x00).
Proof.
  revert data i. induction n as [|n IH]; intros data i H; simpl in H.
  - injection H as <- <-. repeat split; lia.
  - apply bind_Ok in H as (b & Hb & H). apply rom_read_Ok in Hb as [Hi Hb].
    destruct (_ || _).
    + injection H as <- <-. repeat split; lia.
    + apply IH in H as (Hlen & Hout & Hin). split; [lia|]. split.
      * intros k Hk. rewrite Hout by lia.
        apply list_lookup_insert_ne. lia.
      * intros k Hk. destruct (decide (Z.of_nat k = start + i)) as [Heq|Hne].
        -- rewrite Hout by lia. replace k with (Z.to_nat (start + i)) by lia.
           apply list_lookup_insert_eq. apply lookup_lt_Some in Hb. exact Hb.
        -- apply Hin. lia.
Qed.

(** ** C4 *)

(** C4.  On a header on which the search for "PPID" has found a field and
    [blank_and_fix] has blanked it and has taken the new checksum from the
    last byte, [rom_data[rom_len - 1]], with the wrap-around of a byte, the
    checksum of the header is 0: the sum of its [rom_len] bytes is 0 modulo
    256.  [rom_len] is a [guint32] and at least 1. *)
Theorem C4_checksum_zero_after_fix (hdr hdr' : FuRomPciHeader) (tmp : Z) :
  1 <= rom_len hdr < 4294967296 ->
  fu_rom_pci_strstr hdr (cstr "PPID") = Ok (Some tmp) ->
  blank_and_fix hdr tmp = Ok hdr' ->
  fu_rom_pci_header_get_checksum hdr' = Ok 0
  /\ byte_sum (take (Z.to_nat (rom_len hdr')) (rom_data hdr')) mod 256 = 0.
Proof.
  intros Hlen _ H.
  apply blank_and_fix_Ok in H as (data & len & chk & b & _ & Hchk & Hb & ->).
  apply fu_rom_pci_header_get_checksum_Ok in Hchk as [-> Hdata]. simpl in *.
  rewrite u32_small in * by lia.
  apply rom_read_Ok in Hb as [_ Hb].
  set (k := Z.to_nat (rom_len hdr - 1)) in *.
  replace (Z.to_nat (rom_len hdr)) with (S k) in * by lia.
  assert (Hsum : byte_sum (take (S k)
                   (<[k := z2b (b2z b - byte_sum (take (S k) data) mod 256)]> data))
                 mod 256 = 0).
  { rewrite (take_S_r data k b Hb).
    rewrite insert_take_drop by (apply lookup_lt_Some in Hb; exact Hb).
    rewrite cons_middle, app_assoc.
    rewrite take_app_length' by (rewrite length_app, length_take; simpl; lia).
    rewrite !byte_sum_app. unfold byte_sum at 2 4. simpl.
    rewrite b2z_z2b, !Z.add_0_r. apply checksum_fix_arith. }
  split; [|exact Hsum].
  rewrite fu_rom_pci_header_get_checksum_in; simpl.
  - replace (Z.to_nat (rom_len hdr)) with (S k) by lia. rewrite Hsum. reflexivity.
  - rewrite length_insert. lia.
Qed.

Lemma C4_checksum_zero_after_fix_witness :
  exists hdr',
    blank_and_fix hdr_one_ppid 100 = Ok hdr'
    /\ fu_rom_pci_header_get_checksum hdr' = Ok 0.
Proof.
  destruct (blank_and_fix hdr_one_ppid 100) as [hdr'|f] eqn:E;
    [|vm_compute in E; discriminate].
  exists hdr'. split; [reflexivity|].
  apply (C4_checksum_zero_after_fix hdr_one_ppid hdr' 100).
  - vm_compute. split; [discriminate | reflexivity].
  - vm_compute. reflexivity.
  - exact E.
Defined.

(** ** C3 *)

(** C3.  [fu_rom_pci_strstr] does not find a needle that ends at [rom_len]:
    the loop stops one index short.  The image [rom_tail_ppid] ends in
    "PPID"; its second header is [hdr_tail_ppid], of 16 bytes, with
    [data_len = 0] and "PPID" at index 12 of its region, and the search
    for "PPID" in it returns NULL. *)
Theorem C3_strstr_misses_needle_at_end :
  hdrs (fst (fu_rom_load_file G_LITTLE_ENDIAN [Some rom_tail_ppid] false fu_rom_new))
    !! 1%nat = Some hdr_tail_ppid
  /\ data_len hdr_tail_ppid <= rom_len hdr_tail_ppid
  /\ slice (rom_data hdr_tail_ppid) 12 4 = cstr "PPID"
  /\ 12 + 4 = rom_len hdr_tail_ppid
  /\ fu_rom_pci_strstr hdr_tail_ppid (cstr "PPID") = Ok None.
Proof.
  repeat split; vm_compute; congruence.
Qed.

(** ** The pass run twice *)

Lemma fu_rom_pci_strstr_Some_nonneg hdr needle p :
  fu_rom_pci_strstr hdr needle = Ok (Some p) -> 0 <= data_len hdr.
Proof.
  unfold fu_rom_pci_strstr. intros H.
  destruct needle as [|c needle]; [discriminate|].
  destruct (rom_data hdr) as [|d data]; [discriminate|].
  destruct (data_len hdr >? rom_len hdr); [discriminate|].
  destruct (_ >? _); [discriminate|].
  destruct (Z.to_nat _) as [|n]; [discriminate|]. simpl in H.
  apply bind_Ok in H as (same & Hsame & _).
  apply (memcmp_eq_Ok _ _ (reads_rom _)) in Hsame as [_ Hb].
  specialize (Hb ltac:(discriminate)). lia.
Qed.

Lemma slice_lookup (l : list byte) (q : Z) (n t : nat) :
  (t < n)%nat -> slice l q n !! t = l !! (Z.to_nat q + t)%nat.
Proof.
  intros Ht. unfold slice. rewrite lookup_take_lt by exact Ht.
  apply lookup_drop.
Qed.

Lemma slice_ext (l l' : list byte) (q : Z) (n : nat) :
  (forall t, (t < n)%nat -> l !! (Z.to_nat q + t)%nat = l' !! (Z.to_nat q + t)%nat) ->
  slice l q n = slice l' q n.
Proof.
  intros H. apply list_eq. intros t.
  destruct (decide (t < n)%nat) as [Ht|Ht].
  - rewrite !slice_lookup by exact Ht. apply H. exact Ht.
  - unfold slice. rewrite !lookup_take_ge by lia. reflexivity.
Qed.

(** An occurrence of a needle without NUL in a block of which a range has
    been blanked is an occurrence in the block as it was, outside the
    range. *)
Lemma occurrence_after_blanking (data data1 needle : list byte) (p len q : Z) :
  (forall k : nat, Z.of_nat k < p \/ p + len <= Z.of_nat k -> data1 !! k = data !! k) ->
  (forall k : nat, p <= Z.of_nat k < p + len -> data1 !! k = Some x00) ->
  Forall (fun b => b <> x00) needle -> needle <> [] -> 0 <= q ->
  slice data1 q (length needle) = needle ->
  slice data q (length needle) = needle /\ (q < p \/ p + len <= q).
Proof.
  intros Hout Hin Hnz Hne Hq Hs.
  assert (Hfree : forall t, (t < length needle)%nat ->
            Z.of_nat (Z.to_nat q + t) < p \/ p + len <= Z.of_nat (Z.to_nat q + t)).
  { intros t Ht.
    destruct (Z.ltb_spec (Z.of_nat (Z.to_nat q + t)) p) as [|Hge]; [auto|].
    destruct (Z.leb_spec (p + len) (Z.of_nat (Z.to_nat q + t))) as [|Hlt]; [auto|].
    exfalso. pose proof (slice_lookup data1 q (length needle) t Ht) as Hl.
    rewrite Hs, (Hin _ (conj Hge Hlt)) in Hl.
    rewrite Forall_lookup in Hnz. apply (Hnz t x00 Hl). reflexivity. }
  split.
  - rewrite <- Hs at 2. apply slice_ext. intros t Ht. symmetry.
    apply Hout, Hfree, Ht.
  - destruct needle as [|c needle]; [congruence|].
    specialize (Hfree 0%nat ltac:(simpl; lia)). lia.
Qed.

(** A header on which the pass has run, and on which no "PPID" came after
    the field blanked, is left as it is by a second run. *)
Lemma blank_header_again (hdr hdr1 : FuRomPciHeader) :
  rom_len hdr < 4294967296 ->
  no_ppid_after_field hdr ->
  blank_header hdr = Ok hdr1 ->
  blank_header hdr1 = Ok hdr1.
Proof.
  intros Hlen Hafter H. pose proof H as H0. unfold blank_header in H.
  apply bind_Ok in H as (tmp & Hs & H).
  destruct tmp as [p|]; [|injection H as <-; exact H0].
  apply bind_Ok in H as (hdr' & Hfix & H).
  apply bind_Ok in H as (_ & _ & H). injection H as ->.
  pose proof (fu_rom_pci_strstr_Some_nonneg _ _ _ Hs) as Hdl.
  pose proof (fu_rom_pci_strstr_Some _ _ _ Hs) as (Hp1 & Hp2 & Hp3 & Hfirst).
  apply blank_and_fix_Ok in Hfix as (data & len & chk & b & Hblank & Hchk & Hb & ->).
  apply fu_rom_pci_header_get_checksum_Ok in Hchk as [_ Hdata]. simpl in Hdata.
  pose proof Hblank as Hspec. apply blank_loop_Ok in Hspec as (_ & Hout & Hin).
  change (cstr "PPID") with [x50; x50; x49; x44] in *. simpl length in *.
  rewrite u32_small in * by lia.
  set (hdr1 := set_rom_data _ hdr).
  destruct (fu_rom_pci_strstr_in hdr1 [x50; x50; x49; x44]) as [r Hr].
  { exact Hdl. }
  { subst hdr1. simpl. rewrite length_insert. lia. }
  unfold blank_header.
  change (cstr "PPID") with [x50; x50; x49; x44]. rewrite Hr.
  destruct r as [q|]; [exfalso | reflexivity].
  apply fu_rom_pci_strstr_Some in Hr as (Hq1 & Hq2 & Hq3 & _).
  subst hdr1. simpl in Hq1, Hq2, Hq3.
  assert (Hq4 : slice data q 4 = [x50; x50; x49; x44]).
  { rewrite <- Hq3. apply slice_ext. intros t Ht. symmetry.
    apply list_lookup_insert_ne. lia. }
  apply (occurrence_after_blanking (rom_data hdr) data [x50; x50; x49; x44]
           p len q) in Hq4 as [Hq5 Hq6]; try assumption.
  - destruct Hq6 as [Hq6|Hq6].
    + apply (Hfirst q); [lia | exact Hq5].
    + specialize (Hafter p data len q Hs).
      change (cstr "PPID") with [x50; x50; x49; x44] in Hafter.
      rewrite u32_small in Hafter by lia.
      specialize (Hafter Hblank (conj Hq1 (conj Hq2 Hq5))). lia.
  - intros k Hk. apply Hout. lia.
  - intros k Hk. apply Hin. lia.
  - repeat constructor; discriminate.
  - discriminate.
  - lia.
Qed.

Lemma blank_header_rom_len (hdr hdr1 : FuRomPciHeader) :
  blank_header hdr = Ok hdr1 ->
  rom_len hdr1 = rom_len hdr /\ data_len hdr1 = data_len hdr.
Proof.
  unfold blank_header. intros H. apply bind_Ok in H as (tmp & _ & H).
  destruct tmp as [p|]; [|injection H as <-; auto].
  apply bind_Ok in H as (hdr' & Hfix & H).
  apply bind_Ok in H as (_ & _ & H). injection H as ->.
  apply blank_and_fix_Ok in Hfix as (? & ? & ? & ? & _ & _ & _ & ->). auto.
Qed.

Lemma blank_headers_again (l l1 : list FuRomPciHeader) :
  Forall (fun hdr => rom_len hdr < 4294967296) l ->
  Forall no_ppid_after_field l ->
  blank_headers l = Ok l1 ->
  blank_headers l1 = Ok l1.
Proof.
  revert l1. induction l as [|hdr l IH]; intros l1 Hlen Hafter H; simpl in H.
  - injection H as <-. reflexivity.
  - apply bind_Ok in H as (hdr1 & Hhdr & H).
    apply bind_Ok in H as (l' & Hl & H). injection H as <-.
    apply Forall_cons in Hlen as [Hlen1 Hlen]. apply Forall_cons in Hafter as [Ha1 Ha].
    simpl. rewrite (blank_header_again hdr hdr1 Hlen1 Ha1 Hhdr). simpl.
    rewrite (IH l' Hlen Ha Hl). reflexivity.
Qed.

(** ** C5 *)

(** C5 as stated fails.  On an image of kind ATI whose header holds two
    serial numbers the pass runs twice without a fault; the first run blanks
    the first number, the second run the second one, so the bytes of the
    header after the second run are not those after the first. *)
Lemma C5_second_pass_blanks_second_field :
  exists priv1 priv2,
    fu_rom_find_and_blank_serial_numbers (rom_with FU_ROM_KIND_ATI [hdr_two_ppid])
      = Ok priv1
    /\ fu_rom_find_and_blank_serial_numbers priv1 = Ok priv2
    /\ slice (rom_data hdr_two_ppid) 200 9 = cstr "PPID67890"
    /\ (fun hdr => slice (rom_data hdr) 200 9) <$> hdrs priv1 = [cstr "PPID67890"]
    /\ (fun hdr => slice (rom_data hdr) 200 9) <$> hdrs priv2 = [zeros 9]
    /\ (rom_data <$> hdrs priv2) <> (rom_data <$> hdrs priv1).
Proof.
  destruct (fu_rom_find_and_blank_serial_numbers
              (rom_with FU_ROM_KIND_ATI [hdr_two_ppid])) as [priv1|] eqn:E1;
    [|vm_compute in E1; discriminate].
  destruct (fu_rom_find_and_blank_serial_numbers priv1) as [priv2|] eqn:E2;
    [|vm_compute in E1; injection E1 as <-; vm_compute in E2; discriminate].
  exists priv1, priv2.
  vm_compute in E1. injection E1 as <-. vm_compute in E2. injection E2 as <-.
  repeat split; try (vm_compute; reflexivity).
  vm_compute. discriminate.
Qed.

(** C5, amended.  A run of the pass blanks one field in each header, the
    one at the first "PPID" of the searched region.  On an image on which
    the pass has run without a fault and in which no header holds a "PPID"
    after that field, a second run finds no "PPID", writes nothing and
    leaves every header, and so its bytes, as the first run left them.
    [rom_len] is a [guint32]. *)
Theorem C5_second_pass_changes_nothing (priv priv1 : FuRomPrivate) :
  Forall (fun hdr => rom_len hdr < 4294967296) (hdrs priv) ->
  Forall no_ppid_after_field (hdrs priv) ->
  fu_rom_find_and_blank_serial_numbers priv = Ok priv1 ->
  fu_rom_find_and_blank_serial_numbers priv1 = Ok priv1.
Proof.
  intros Hlen Hafter H. pose proof H as H0.
  unfold fu_rom_find_and_blank_serial_numbers in H |- *.
  destruct (bool_decide (kind priv = FU_ROM_KIND_PCI)
            || bool_decide (kind priv = FU_ROM_KIND_INTEL)) eqn:Hk.
  - injection H as <-. rewrite Hk. reflexivity.
  - apply bind_Ok in H as (l & Hl & H). injection H as <-. simpl.
    rewrite Hk. rewrite (blank_headers_again _ _ Hlen Hafter Hl). reflexivity.
Qed.

Lemma hdr_one_ppid_no_later : no_ppid_after_field hdr_one_ppid.
Proof.
  intros p data len q Hs Hb (Hq1 & Hq2 & Hq3).
  vm_compute in Hs. injection Hs as <-.
  assert (Hlen : len = 9) by (vm_compute in Hb; congruence).
  subst len. clear Hb.
  destruct (Z.ltb_spec q 109) as [|Hge]; [assumption|]. exfalso.
  assert (Hnone : first_match (rom_data hdr_one_ppid) 109 (cstr "PPID") 400 0 = None)
    by (vm_compute; reflexivity).
  apply (first_match_None _ _ _ _ _ Hnone (q - 109)).
  - change (rom_len hdr_one_ppid) with 512 in Hq2. simpl in Hq2. lia.
  - replace (109 + (q - 109)) with q by lia. exact Hq3.
Qed.

Lemma C5_second_pass_changes_nothing_witness :
  exists priv1,
    fu_rom_find_and_blank_serial_numbers (rom_with FU_ROM_KIND_ATI [hdr_one_ppid])
      = Ok priv1
    /\ fu_rom_find_and_blank_serial_numbers priv1 = Ok priv1.
Proof.
  destruct (fu_rom_find_and_blank_serial_numbers
              (rom_with FU_ROM_KIND_ATI [hdr_one_ppid])) as [priv1|] eqn:E;
    [|vm_compute in E; discriminate].
  exists priv1. split; [reflexivity|].
  apply (C5_second_pass_changes_nothing (rom_with FU_ROM_KIND_ATI [hdr_one_ppid])).
  - repeat constructor.
  - constructor; [exact hdr_one_ppid_no_later | constructor].
  - exact E.
Defined.

(** ** C6 *)

Lemma GUINT16_FROM_BE_range (host : byte_order) (val : Z) :
  0 <= GUINT16_FROM_BE host val < 65536.
Proof.
  destruct host; simpl; [unfold GUINT16_SWAP_LE_BE|]; apply u16_range.
Qed.

Lemma ifr_hdr_sz_range (host : byte_order) (buffer : list byte) (hdr_sz : Z) :
  ifr_hdr_sz host buffer = Ok hdr_sz -> 0 <= hdr_sz < 65536.
Proof.
  unfold ifr_hdr_sz. intros H. apply bind_Ok in H as (nvgi & _ & H).
  destruct nvgi.
  - apply bind_Ok in H as (b & _ & H). injection H as <-.
    apply GUINT16_FROM_BE_range.
  - injection H as <-. lia.
Qed.

(** The second half of C6 holds: without "NVGI" at its start, and with at
    least four bytes, a buffer has [hdr_sz = 0]. *)
Lemma ifr_hdr_sz_without_nvgi (host : byte_order) (buffer : list byte) :
  (4 <= length buffer)%nat -> slice buffer 0 4 <> cstr "NVGI" ->
  ifr_hdr_sz host buffer = Ok 0.
Proof.
  intros Hlen Hne. unfold ifr_hdr_sz.
  rewrite (memcmp_eq_in _ _ (reads_buffer buffer)) by (simpl; lia). simpl.
  rewrite bool_decide_eq_false_2 by exact Hne. reflexivity.
Qed.

(** With "NVGI", [hdr_sz] is made of the byte at 0x15 alone. *)
Lemma ifr_hdr_sz_with_nvgi (host : byte_order) (buffer : list byte) (b : byte) :
  slice buffer 0 4 = cstr "NVGI" -> buffer !! 21%nat = Some b ->
  ifr_hdr_sz host buffer = Ok (GUINT16_FROM_BE host (b2z b)).
Proof.
  intros Hnvgi Hb. unfold ifr_hdr_sz.
  rewrite (memcmp_eq_in _ _ (reads_buffer buffer)).
  - simpl. rewrite bool_decide_eq_true_2 by exact Hnvgi.
    rewrite (proj2 (buffer_read_Ok buffer 21 b)) by (split; [lia | exact Hb]).
    reflexivity.
  - lia.
  - apply lookup_lt_Some in Hb. simpl. lia.
Qed.

Lemma buffer_read_insert_ne (buffer : list byte) (k : nat) (b : byte) (i : Z) :
  i <> Z.of_nat k -> buffer_read (<[k := b]> buffer) i = buffer_read buffer i.
Proof.
  intros Hne. unfold buffer_read. destruct (Z.ltb_spec i 0); [reflexivity|].
  rewrite list_lookup_insert_ne by lia. reflexivity.
Qed.

(** The byte at 0x16 has no part in [hdr_sz]. *)
Lemma ifr_hdr_sz_ignores_0x16 (host : byte_order) (buffer : list byte) (b : byte) :
  ifr_hdr_sz host (<[22%nat := b]> buffer) = ifr_hdr_sz host buffer.
Proof.
  unfold ifr_hdr_sz, memcmp_eq. simpl.
  rewrite !buffer_read_insert_ne by lia. reflexivity.
Qed.

(** C6.  The code gives [GUINT16_FROM_BE] the one byte [buffer[0x15]], not
    the two bytes at 0x15 and 0x16.  On [rom_ifr], which starts with "NVGI"
    and has 01 02 there, [hdr_sz] is 0x0100 on a little-endian host and
    0x0001 on a big-endian one, and on no host the big-endian value 0x0102
    of the two bytes. *)
Theorem C6_ifr_size_reads_one_byte :
  slice rom_ifr 0 4 = cstr "NVGI"
  /\ slice rom_ifr 21 2 = [x01; x02]
  /\ ifr_hdr_sz G_LITTLE_ENDIAN rom_ifr = Ok 256
  /\ ifr_hdr_sz G_BIG_ENDIAN rom_ifr = Ok 1
  /\ forall host, ifr_hdr_sz host rom_ifr <> Ok 258.
Proof.
  repeat split; try (vm_compute; reflexivity).
  intros [|]; vm_compute; discriminate.
Qed.

(** ** C7 *)

(** When the first read delivers fewer than 1024 bytes, the function fails
    with "Firmware too small". *)
Lemma too_small_first_read (host : byte_order) (buffer : list byte)
    (stream : GInputStream) (blank_ppid : bool) (priv : FuRomPrivate) :
  Z.of_nat (length buffer) < 1024 ->
  fu_rom_load_file host (Some buffer :: stream) blank_ppid priv
  = (priv, Err TooSmall).
Proof.
  intros Hlen. unfold fu_rom_load_file, g_input_stream_read.
  assert (Htake : take (Z.to_nat buffer_sz) buffer = buffer).
  { apply take_ge. unfold buffer_sz. lia. }
  rewrite Htake.
  destruct (Z.ltb_spec (Z.of_nat (length buffer)) 1024) as [_|Hge]; [|lia].
  reflexivity.
Qed.

(** C7.  For a file of fewer than 1024 bytes, however the stream delivers
    them, [fu_rom_load_file] fails with "Firmware too small", unless the
    first read itself fails, and the object is as it was: it has no
    header, kind or version of the file. *)
Theorem C7_too_small (host : byte_order) (stream : GInputStream)
    (blank_ppid : bool) (priv : FuRomPrivate) :
  head stream <> Some None ->
  Z.of_nat (length (stream_bytes stream)) < 1024 ->
  fu_rom_load_file host stream blank_ppid priv = (priv, Err TooSmall).
Proof.
  intros Hhead Hlen. destruct stream as [|[c|] stream].
  - reflexivity.
  - apply too_small_first_read.
    unfold stream_bytes in Hlen. simpl in Hlen. rewrite length_app in Hlen. lia.
  - simpl in Hhead. congruence.
Qed.

Lemma C7_too_small_witness :
  fu_rom_load_file G_LITTLE_ENDIAN [Some (zeros 600); Some (zeros 423)] true
    fu_rom_new
  = (fu_rom_new, Err TooSmall).
Proof.
  apply (C7_too_small G_LITTLE_ENDIAN [Some (zeros 600); Some (zeros 423)] true
           fu_rom_new).
  - discriminate.
  - vm_compute. reflexivity.
Defined.

(** ** The header decoder *)

(** The runs of a sequence of accesses that end with a value: every access
    of the sequence has given one. *)
Ltac bind_inv H :=
  repeat (cbv beta zeta in H;
          match type of H with
          | bind _ _ = Ok _ =>
              let a := fresh "a" in
              let Ha := fresh "Ha" in
              apply bind_Ok in H as (a & Ha & H)
          end);
  cbv beta zeta in H.

(** [fu_rom_pci_parse_data] writes the fields of the PCI data structure
    only. *)
Lemma fu_rom_pci_parse_data_frame hdr hdr' ok :
  fu_rom_pci_parse_data hdr = Ok (hdr', ok) ->
  rom_data hdr' = rom_data hdr /\ rom_len hdr' = rom_len hdr
  /\ rom_offset hdr' = rom_offset hdr /\ reserved hdr' = reserved hdr
  /\ cpi_ptr hdr' = cpi_ptr hdr /\ entry_point hdr' = entry_point hdr.
Proof.
  unfold fu_rom_pci_parse_data. intros H.
  repeat match type of H with
         | (if ?c then _ else _) = _ =>
             destruct c; [injection H as <- <-; repeat split; reflexivity|]
         end.
  bind_inv H. destruct (negb _).
  - injection H as <- <-. repeat split; reflexivity.
  - bind_inv H. injection H as <- <-. repeat split; reflexivity.
Qed.

Lemma fu_rom_pci_parse_data_data_len hdr hdr' ok :
  fu_rom_pci_parse_data hdr = Ok (hdr', ok) ->
  0 <= data_len hdr < 65536 -> 0 <= data_len hdr' < 65536.
Proof.
  unfold fu_rom_pci_parse_data. intros H Hd.
  repeat match type of H with
         | (if ?c then _ else _) = _ =>
             destruct c; [injection H as <- <-; exact Hd|]
         end.
  bind_inv H. destruct (negb _).
  - injection H as <- <-. exact Hd.
  - bind_inv H. injection H as <- <-. simpl. apply u16_range.
Qed.

(** A header that the decoder returns has its [rom_len] bytes inside the
    list read, from [buffer] on, and [rom_len] is not 0. *)
Lemma fu_rom_pci_get_header_Some rd l buffer sz hdr :
  reads rd l -> 0 < sz < 4294967296 ->
  fu_rom_pci_get_header rd buffer sz = Ok (Some hdr) ->
  0 <= buffer
  /\ 0 < rom_len hdr
  /\ buffer + rom_len hdr <= Z.of_nat (length l)
  /\ rom_data hdr = slice l buffer (Z.to_nat (rom_len hdr))
  /\ 0 <= data_len hdr < 65536.
Proof.
  intros Hrd Hsz H. unfold fu_rom_pci_get_header in H.
  apply bind_Ok in H as (pci & Hpci & H).
  apply bind_Ok in H as (sig & _ & H).
  destruct (negb sig); [discriminate|].
  apply bind_Ok in H as (b02 & _ & H). cbv beta zeta in H.
  apply bind_Ok in H as (data & Hdata & H).
  bind_inv H. destruct a4 as [hdr0 ok]. injection H as <-.
  pose proof (fu_rom_pci_parse_data_data_len _ _ _ Ha4 ltac:(simpl; lia)) as Hdl.
  apply fu_rom_pci_parse_data_frame in Ha4 as (Hd & Hl & _). simpl in Hd, Hl.
  rewrite Hd, Hl.
  apply (memcmp_eq_Ok _ _ Hrd) in Hpci as [_ Hb]. specialize (Hb ltac:(discriminate)).
  pose proof (b2z_range b02) as Hb02.
  assert (Hpos : 0 < (if u32 (b2z b02 * 512) =? 0 then u32 sz
                      else u32 (b2z b02 * 512))).
  { rewrite !u32_small by lia. destruct (Z.eqb_spec (b2z b02 * 512) 0); lia. }
  apply (mem_bytes_Ok _ _ Hrd) in Hdata as [-> Hin].
  specialize (Hin ltac:(lia)).
  repeat split; lia.
Qed.

(** ** The header loop *)

(** A round that ends at the end of the body has decoded a header of
    [rom_len] bytes inside the buffer and has added [rom_len], which is not
    0, to [jump]. *)
Lemma header_round_Continue buffer hdr_sz jump l jump' l' :
  0 <= hdr_sz -> 0 <= jump ->
  hdr_sz + jump < Z.of_nat (length buffer) < 4294967296 ->
  header_round buffer hdr_sz jump l = Ok (Continue jump' l') ->
  exists hdr,
    l' = l ++ [hdr]
    /\ rom_offset hdr = hdr_sz + jump
    /\ 0 < rom_len hdr
    /\ jump' = jump + rom_len hdr
    /\ hdr_sz + jump' <= Z.of_nat (length buffer)
    /\ rom_data hdr = slice buffer (hdr_sz + jump) (Z.to_nat (rom_len hdr)).
Proof.
  intros Hh Hj Hlt H. unfold header_round in H. cbv zeta in H.
  rewrite (u32_small (hdr_sz + jump)) in H by lia.
  apply bind_Ok in H as (hdr & Hhdr & H).
  destruct hdr as [hdr|].
  - apply (fu_rom_pci_get_header_Some _ _ _ _ _ (reads_buffer buffer)) in Hhdr
      as (_ & Hpos & Hin & Hdata & _); [|lia].
    simpl in H.
    destruct (Z.eqb_spec (rom_len hdr) 0) as [|_]; [lia|].
    destruct (Z.eqb_spec (rom_len hdr) 0) as [|_]; [lia|].
    injection H as <- <-.
    exists (set_rom_offset (hdr_sz + jump) hdr). simpl.
    rewrite u32_small by lia. repeat split; try lia. exact Hdata.
  - apply bind_Ok in H as (found_data & _ & H). destruct found_data.
    + apply bind_Ok in H as (fake & _ & H). discriminate.
    + discriminate.
Qed.

(** The loop ends: with more rounds of fuel than bytes left after
    [hdr_sz + jump], [read_headers] has a result. *)
Lemma read_headers_ends buffer hdr_sz fuel jump l :
  0 <= hdr_sz -> 0 <= jump ->
  Z.of_nat (length buffer) < 4294967296 -> hdr_sz + jump < 4294967296 ->
  (0 < fuel)%nat -> Z.of_nat (length buffer) - (hdr_sz + jump) < Z.of_nat fuel ->
  exists r, read_headers fuel buffer hdr_sz jump l = Some r.
Proof.
  intros Hh. revert jump l.
  induction fuel as [|fuel IH]; intros jump l Hj Hsz Hoff Hfuel Hleft; [lia|].
  simpl. rewrite u32_small by lia.
  destruct (Z.gtb_spec (Z.of_nat (length buffer)) (hdr_sz + jump)) as [Hgt|]; [|eauto].
  destruct (header_round buffer hdr_sz jump l) as [[jump' l'|l']|f] eqn:E; [|eauto..].
  apply header_round_Continue in E as (hdr & _ & _ & Hpos & -> & Hin & _); try lia.
  apply IH; lia.
Qed.

(** More fuel than needed changes nothing. *)
Lemma read_headers_more_fuel buffer hdr_sz fuel fuel' jump l r :
  read_headers fuel buffer hdr_sz jump l = Some r -> (fuel <= fuel')%nat ->
  read_headers fuel' buffer hdr_sz jump l = Some r
  /\ attempted_offsets fuel' buffer hdr_sz jump l
     = attempted_offsets fuel buffer hdr_sz jump l.
Proof.
  revert fuel' jump l. induction fuel as [|fuel IH]; intros fuel' jump l H Hle.
  - discriminate.
  - destruct fuel' as [|fuel']; [lia|]. simpl in H |- *.
    destruct (_ >? _); [|auto].
    destruct (header_round buffer hdr_sz jump l) as [[jump' l'|l']|f]; [|auto..].
    destruct (IH fuel' jump' l' H ltac:(lia)) as [-> ->]. auto.
Qed.

(** The offsets at which headers are looked for go up and stay below the
    length of the buffer. *)
Lemma attempted_offsets_sorted buffer hdr_sz fuel jump l :
  0 <= hdr_sz -> 0 <= jump ->
  Z.of_nat (length buffer) < 4294967296 -> hdr_sz + jump < 4294967296 ->
  Forall (fun o => hdr_sz + jump <= o < Z.of_nat (length buffer))
    (attempted_offsets fuel buffer hdr_sz jump l)
  /\ StronglySorted Z.lt (attempted_offsets fuel buffer hdr_sz jump l).
Proof.
  intros Hh. revert jump l.
  induction fuel as [|fuel IH]; intros jump l Hj Hsz Hoff; simpl.
  - split; constructor.
  - rewrite u32_small by lia.
    destruct (Z.gtb_spec (Z.of_nat (length buffer)) (hdr_sz + jump)) as [Hgt|];
      [|split; constructor].
    destruct (header_round buffer hdr_sz jump l) as [[jump' l'|l']|f] eqn:E;
      try (split; repeat constructor; lia).
    apply header_round_Continue in E as (hdr & _ & _ & Hpos & -> & Hin & _); try lia.
    destruct (IH (jump + rom_len hdr) l') as [Hall Hsorted]; try lia.
    split.
    + constructor; [lia|]. eapply Forall_impl; [exact Hall|].
      simpl. intros o Ho. lia.
    + constructor; [exact Hsorted|]. eapply Forall_impl; [exact Hall|].
      simpl. intros o Ho. lia.
Qed.

Lemma StronglySorted_lt_NoDup (l : list Z) : StronglySorted Z.lt l -> NoDup l.
Proof.
  induction 1 as [|o l _ IH Hall]; constructor; [|exact IH].
  intros Hin. rewrite Forall_forall in Hall. specialize (Hall o Hin). lia.
Qed.

(** ** C8 *)

(** C8.  On a buffer of at most [buffer_sz] bytes and for every [hdr_sz]
    of a [guint], the header loop ends within [length buffer + 1] rounds,
    and more fuel gives the same result and the same offsets.  The offsets
    at which it calls the decoder go strictly up, so none comes twice, and
    each is at least [hdr_sz] and below the length of the buffer.  A round
    that goes on to the next has added to [jump]. *)
Theorem C8_header_walk_terminates (buffer : list byte) (hdr_sz : Z)
    (l : list FuRomPciHeader) :
  Z.of_nat (length buffer) <= buffer_sz ->
  0 <= hdr_sz < 4294967296 ->
  let fuel := S (length buffer) in
  let offsets := attempted_offsets fuel buffer hdr_sz 0 l in
  (exists r, read_headers fuel buffer hdr_sz 0 l = Some r
     /\ forall fuel', (fuel <= fuel')%nat ->
          read_headers fuel' buffer hdr_sz 0 l = Some r
          /\ attempted_offsets fuel' buffer hdr_sz 0 l = offsets)
  /\ StronglySorted Z.lt offsets
  /\ NoDup offsets
  /\ Forall (fun o => hdr_sz <= o < Z.of_nat (length buffer)) offsets
  /\ (forall jump l jump' l',
        0 <= jump -> hdr_sz + jump < Z.of_nat (length buffer) ->
        header_round buffer hdr_sz jump l = Ok (Continue jump' l') ->
        jump < jump').
Proof.
  intros Hsz Hh fuel offsets. unfold buffer_sz in Hsz.
  destruct (read_headers_ends buffer hdr_sz fuel 0 l) as [r Hr];
    try (subst fuel; lia).
  destruct (attempted_offsets_sorted buffer hdr_sz fuel 0 l) as [Hall Hsorted];
    try lia.
  split; [|split; [|split; [|split]]].
  - exists r. split; [exact Hr|]. intros fuel' Hle.
    apply (read_headers_more_fuel _ _ _ _ _ _ _ Hr Hle).
  - exact Hsorted.
  - apply StronglySorted_lt_NoDup. exact Hsorted.
  - eapply Forall_impl; [exact Hall|]. simpl. intros o Ho. lia.
  - intros jump l0 jump' l' Hj Hlt E.
    apply header_round_Continue in E as (hdr & _ & _ & Hpos & -> & _); lia.
Qed.

Lemma C8_header_walk_terminates_witness :
  attempted_offsets 1025 rom_padding 0 0 [] = [0; 512]
  /\ (exists r, read_headers 1025 rom_padding 0 0 [] = Some r
        /\ forall fuel', (1025 <= fuel')%nat ->
             read_headers fuel' rom_padding 0 0 [] = Some r
             /\ attempted_offsets fuel' rom_padding 0 0 []
                = attempted_offsets 1025 rom_padding 0 0 [])
  /\ StronglySorted Z.lt (attempted_offsets 1025 rom_padding 0 0 [])
  /\ NoDup (attempted_offsets 1025 rom_padding 0 0 [])
  /\ Forall (fun o => 0 <= o < Z.of_nat (length rom_padding))
       (attempted_offsets 1025 rom_padding 0 0 [])
  /\ (forall jump l jump' l',
        0 <= jump -> 0 + jump < Z.of_nat (length rom_padding) ->
        header_round rom_padding 0 jump l = Ok (Continue jump' l') ->
        jump < jump').
Proof.
  split; [vm_compute; reflexivity|].
  apply (C8_header_walk_terminates rom_padding 0 []).
  - vm_compute. discriminate.
  - lia.
Defined.

(** ** The bytes after a failed decode *)

Lemma slice_nil (l : list byte) (off : Z) (n : nat) :
  l !! Z.to_nat off = None -> slice l off n = [].
Proof.
  intros H. unfold slice. apply lookup_ge_None in H.
  rewrite drop_ge by exact H. apply take_nil.
Qed.

(** The scan answers TRUE when one of the [n] bytes from [base + i] on that
    the buffer holds is not zero. *)
Lemma junk_scan_found rd l base n i :
  reads rd l -> 0 <= base -> 0 <= i ->
  base + i + Z.of_nat n < 4294967296 ->
  Exists (fun b => b <> x00) (slice l (base + i) n) ->
  junk_scan rd base n i = Ok true.
Proof.
  intros Hrd Hbase. revert i. induction n as [|n IH]; intros i Hi Hmax Hex.
  - unfold slice in Hex. rewrite take_0 in Hex. inversion Hex.
  - simpl. rewrite u32_small by lia.
    destruct (l !! Z.to_nat (base + i)) as [b|] eqn:Hb.
    + rewrite (proj2 (Hrd (base + i) b)) by (split; [lia | exact Hb]). simpl.
      rewrite (slice_cons l (base + i) n b ltac:(lia) Hb) in Hex.
      case_bool_decide as Hz; [|reflexivity]. simpl.
      apply Exists_cons in Hex as [Hex|Hex]; [congruence|].
      rewrite u32_small by lia. apply IH; [lia | lia |].
      replace (base + (i + 1)) with (base + i + 1) by lia. exact Hex.
    + rewrite (slice_nil l (base + i) (S n) Hb) in Hex. inversion Hex.
Qed.

(** It answers FALSE when these [n] bytes are all inside the buffer and all
    zero. *)
Lemma junk_scan_padding rd l base n i :
  reads rd l -> 0 <= base -> 0 <= i ->
  base + i + Z.of_nat n < 4294967296 ->
  (Z.to_nat (base + i) + n <= length l)%nat ->
  Forall (fun b => b = x00) (slice l (base + i) n) ->
  junk_scan rd base n i = Ok false.
Proof.
  intros Hrd Hbase. revert i. induction n as [|n IH]; intros i Hi Hmax Hin Hall.
  - reflexivity.
  - simpl. rewrite u32_small by lia.
    destruct (lookup_lt_is_Some_2 l (Z.to_nat (base + i)) ltac:(lia)) as [b Hb].
    rewrite (proj2 (Hrd (base + i) b)) by (split; [lia | exact Hb]). simpl.
    rewrite (slice_cons l (base + i) n b ltac:(lia) Hb) in Hall.
    apply Forall_cons in Hall as [-> Hall]. simpl.
    rewrite u32_small by lia. apply IH; [lia | lia | lia |].
    replace (base + (i + 1)) with (base + i + 1) by lia. exact Hall.
Qed.

Lemma fake_header_in buffer hdr_sz jump :
  0 <= hdr_sz + jump < Z.of_nat (length buffer) ->
  Z.of_nat (length buffer) < 4294967296 ->
  fake_header (buffer_read buffer) (Z.of_nat (length buffer)) hdr_sz jump
  = Ok (fallback_header buffer (hdr_sz + jump)).
Proof.
  intros Hoff Hsz. unfold fake_header. cbv zeta.
  rewrite (u32_small (hdr_sz + jump)) by lia.
  rewrite (u32_small (Z.of_nat (length buffer) - (hdr_sz + jump))) by lia.
  rewrite (mem_bytes_in _ _ (reads_buffer buffer)) by lia. simpl.
  unfold slice. rewrite take_ge by (rewrite length_drop; lia). reflexivity.
Qed.

(** ** The strict reader and the reader of the block *)

Lemma header_round_at_buffer buffer hdr_sz jump l :
  header_round buffer hdr_sz jump l
  = header_round_at (buffer_read buffer) (Z.of_nat (length buffer)) hdr_sz jump l.
Proof. reflexivity. Qed.

Lemma read_headers_at_buffer fuel buffer hdr_sz jump l :
  read_headers fuel buffer hdr_sz jump l
  = read_headers_at fuel (buffer_read buffer) (Z.of_nat (length buffer))
      hdr_sz jump l.
Proof.
  revert jump l. induction fuel as [|fuel IH]; intros jump l; [reflexivity|].
  simpl. destruct (_ >? _); [|reflexivity].
  rewrite <- header_round_at_buffer.
  destruct (header_round buffer hdr_sz jump l) as [[jump' l'|l']|f];
    [apply IH|reflexivity..].
Qed.

Lemma reads_malloc (buffer junk : list byte) :
  reads (malloc_read buffer junk) (buffer ++ junk).
Proof. apply reads_rom. Qed.

Lemma extends_malloc (buffer junk : list byte) :
  extends (buffer_read buffer) (malloc_read buffer junk).
Proof.
  intros i b H. apply buffer_read_Ok in H as [Hi H].
  apply rom_read_Ok. split; [exact Hi|].
  apply lookup_app_l_Some. exact H.
Qed.

Section Extends.
Context (rd rd' : reader) (Hext : extends rd rd').

Lemma mem_bytes_extends off n bs :
  mem_bytes rd off n = Ok bs -> mem_bytes rd' off n = Ok bs.
Proof using Hext.
  revert off bs. induction n as [|n IH]; intros off bs H; simpl in *; [exact H|].
  apply bind_Ok in H as (b & Hb & H). apply bind_Ok in H as (bs' & Hbs & H).
  rewrite (Hext _ _ Hb). simpl. rewrite (IH _ _ Hbs). exact H.
Qed.

Lemma memcmp_eq_extends off lit r :
  memcmp_eq rd off lit = Ok r -> memcmp_eq rd' off lit = Ok r.
Proof using Hext.
  unfold memcmp_eq. intros H. apply bind_Ok in H as (bs & Hbs & H).
  rewrite (mem_bytes_extends _ _ _ Hbs). exact H.
Qed.

Lemma le16_extends lo hi v : le16 rd lo hi = Ok v -> le16 rd' lo hi = Ok v.
Proof using Hext.
  unfold le16. intros H. apply bind_Ok in H as (h & Hh & H).
  apply bind_Ok in H as (b & Hb & H).
  rewrite (Hext _ _ Hh). simpl. rewrite (Hext _ _ Hb). exact H.
Qed.

Lemma fu_rom_get_hex_dump_extends buffer sz u :
  fu_rom_get_hex_dump rd buffer sz = Ok u ->
  fu_rom_get_hex_dump rd' buffer sz = Ok u.
Proof using Hext.
  unfold fu_rom_get_hex_dump. destruct (sz <=? 0); [auto|].
  intros H. apply bind_Ok in H as (bs & Hbs & H).
  rewrite (mem_bytes_extends _ _ _ Hbs). exact H.
Qed.

Lemma fu_rom_pci_get_header_extends buffer sz r :
  fu_rom_pci_get_header rd buffer sz = Ok r ->
  fu_rom_pci_get_header rd' buffer sz = Ok r.
Proof using Hext.
  unfold fu_rom_pci_get_header. intros H.
  apply bind_Ok in H as (pci & Hpci & H).
  rewrite (memcmp_eq_extends _ _ _ Hpci). cbn [bind].
  apply bind_Ok in H as (sig & Hsig & H).
  assert (Hsig' :
    (if pci then Ok true
     else
       let* nvidia := memcmp_eq rd' buffer [x56; x4e] in
       if nvidia then Ok true
       else do fu_rom_get_hex_dump rd' buffer 16 then Ok false) = Ok sig).
  { destruct pci; [exact Hsig|].
    apply bind_Ok in Hsig as (nvidia & Hn & Hsig).
    rewrite (memcmp_eq_extends _ _ _ Hn). cbn [bind].
    destruct nvidia; [exact Hsig|].
    apply bind_Ok in Hsig as (u & Hu & Hsig).
    rewrite (fu_rom_get_hex_dump_extends _ _ _ Hu). exact Hsig. }
  rewrite Hsig'. cbn [bind]. destruct (negb sig); [exact H|].
  apply bind_Ok in H as (b02 & Hb02 & H). rewrite (Hext _ _ Hb02). cbn [bind].
  cbv zeta in H |- *.
  apply bind_Ok in H as (data & Hdata & H).
  rewrite (mem_bytes_extends _ _ _ Hdata). cbn [bind].
  apply bind_Ok in H as (b05 & Hb05 & H). rewrite (Hext _ _ Hb05). cbn [bind].
  apply bind_Ok in H as (b04 & Hb04 & H). rewrite (Hext _ _ Hb04). cbn [bind].
  apply bind_Ok in H as (b03 & Hb03 & H). rewrite (Hext _ _ Hb03). cbn [bind].
  apply bind_Ok in H as (res & Hres & H).
  rewrite (mem_bytes_extends _ _ _ Hres). cbn [bind].
  apply bind_Ok in H as (cpi & Hcpi & H).
  rewrite (le16_extends _ _ _ Hcpi). cbn [bind]. exact H.
Qed.

Lemma junk_scan_extends base n i r :
  junk_scan rd base n i = Ok r -> junk_scan rd' base n i = Ok r.
Proof using Hext.
  revert i. induction n as [|n IH]; intros i H; simpl in *; [exact H|].
  apply bind_Ok in H as (b & Hb & H). rewrite (Hext _ _ Hb). cbn [bind].
  destruct (negb _); [exact H|apply IH, H].
Qed.

Lemma fake_header_extends sz hdr_sz jump hdr :
  fake_header rd sz hdr_sz jump = Ok hdr ->
  fake_header rd' sz hdr_sz jump = Ok hdr.
Proof using Hext.
  unfold fake_header. cbv zeta. intros H. apply bind_Ok in H as (d & Hd & H).
  rewrite (mem_bytes_extends _ _ _ Hd). exact H.
Qed.

Lemma header_round_at_extends sz hdr_sz jump l r :
  header_round_at rd sz hdr_sz jump l = Ok r ->
  header_round_at rd' sz hdr_sz jump l = Ok r.
Proof using Hext.
  unfold header_round_at. intros H. apply bind_Ok in H as (hdr & Hhdr & H).
  rewrite (fu_rom_pci_get_header_extends _ _ _ Hhdr). cbn [bind].
  destruct hdr as [hdr|]; [exact H|].
  apply bind_Ok in H as (found & Hfound & H).
  rewrite (junk_scan_extends _ _ _ _ Hfound). cbn [bind].
  destruct found; [|exact H].
  apply bind_Ok in H as (fake & Hfake & H).
  rewrite (fake_header_extends _ _ _ _ Hfake). exact H.
Qed.

Lemma read_headers_at_extends fuel sz hdr_sz jump l l' :
  read_headers_at fuel rd sz hdr_sz jump l = Some (Ok l') ->
  read_headers_at fuel rd' sz hdr_sz jump l = Some (Ok l').
Proof using Hext.
  revert jump l. induction fuel as [|fuel IH]; intros jump l H; simpl in *;
    [exact H|].
  destruct (_ >? _); [|exact H].
  destruct (header_round_at rd sz hdr_sz jump l) as [r|f] eqn:E;
    [|discriminate].
  rewrite (header_round_at_extends _ _ _ _ _ E).
  destruct r as [jump' l1|l1]; [apply IH, H|exact H].
Qed.
End Extends.

(** What the loop returns when no read leaves the bytes of the file, it
    returns on the block as the code has it, whatever the block holds behind
    the file. *)
Lemma read_headers_as_run fuel buffer junk hdr_sz jump l l' :
  read_headers fuel buffer hdr_sz jump l = Some (Ok l') ->
  read_headers_at fuel (malloc_read buffer junk) (Z.of_nat (length buffer))
    hdr_sz jump l = Some (Ok l').
Proof.
  rewrite read_headers_at_buffer.
  apply read_headers_at_extends, extends_malloc.
Qed.

(** The decoder returns NULL where the block has 16 bytes and no
    signature. *)
Lemma fu_rom_pci_get_header_fails rd block off sz :
  reads rd block -> 0 <= off -> off + 16 <= Z.of_nat (length block) ->
  slice block off 2 <> [x55; xaa] -> slice block off 2 <> [x56; x4e] ->
  fu_rom_pci_get_header rd off sz = Ok None.
Proof.
  intros Hrd Hoff Hlen H1 H2. unfold fu_rom_pci_get_header.
  rewrite (memcmp_eq_in _ _ Hrd) by (simpl; lia).
  simpl length. rewrite bool_decide_eq_false_2 by exact H1. cbn [bind].
  rewrite (memcmp_eq_in _ _ Hrd) by (simpl; lia).
  simpl length. rewrite bool_decide_eq_false_2 by exact H2. cbn [bind].
  unfold fu_rom_get_hex_dump. simpl (16 <=? 0). cbv iota.
  rewrite (mem_bytes_in _ _ Hrd) by lia. reflexivity.
Qed.

Lemma fake_header_block buffer junk hdr_sz jump :
  0 <= hdr_sz + jump < Z.of_nat (length buffer) ->
  Z.of_nat (length buffer) < 4294967296 ->
  fake_header (malloc_read buffer junk) (Z.of_nat (length buffer)) hdr_sz jump
  = Ok (fallback_header buffer (hdr_sz + jump)).
Proof.
  intros Hoff Hsz.
  apply (fake_header_extends _ _ (extends_malloc buffer junk)).
  apply fake_header_in; assumption.
Qed.

(** ** C2 *)

(** C2 as stated fails.  In [rom_padding] the decoder fails at offset 512,
    where [hdr_sz + jump = 0 + 512]; the 512 bytes before that offset hold
    the signature 55 AA and so bytes that are not zero, and yet the round
    adds no header: the walk ends with the one header that was decoded, the
    one of 512 bytes at offset 0. *)
Lemma C2_bytes_before_offset_not_scanned :
  fu_rom_pci_get_header (buffer_read rom_padding) 512 512 = Ok None
  /\ Exists (fun b => b <> x00) (slice rom_padding 0 512)
  /\ (forall l, header_round rom_padding 0 512 l = Ok (Break l))
  /\ read_headers 1025 rom_padding 0 0 []
     = Some (Ok [plain_header (slice rom_padding 0 512) 0]).
Proof.
  split; [vm_compute; reflexivity|].
  split; [apply Exists_cons_hd; discriminate|].
  split; [|vm_compute; reflexivity].
  intros l. vm_compute. reflexivity.
Qed.

(** C2, amended.  When the decoder fails at the offset [hdr_sz + jump], the
    loop looks, in order, at the [hdr_sz + jump] bytes of the read buffer
    that start at that offset, not at those before it; the bytes of the
    buffer behind the end of the file are what the block of [g_malloc] held,
    [junk].  If one of the bytes looked at is not zero, the round adds one
    header, the fallback header, which has the bytes of the file from the
    offset to its end, zero ids, [code_type = 0], [last_image = 0x80] and
    [image_len = rom_len], and the loop stops.  If all of them are zero, and
    in the block, the loop stops with no header added.  The decoder fails
    with its reads inside the block where the block has 16 bytes from the
    offset on, those of its debug message, and no signature
    ([fu_rom_pci_get_header_fails]), however few of them are bytes of the
    file. *)
Theorem C2_junk_after_failed_decode (buffer junk : list byte)
    (hdr_sz jump : Z) (l : list FuRomPciHeader) :
  let sz := Z.of_nat (length buffer) in
  let off := hdr_sz + jump in
  let rd := malloc_read buffer junk in
  0 <= hdr_sz -> 0 <= jump -> off < sz ->
  Z.of_nat (length (buffer ++ junk)) <= buffer_sz ->
  fu_rom_pci_get_header rd (u32 off) (sz - hdr_sz - jump) = Ok None ->
  (Exists (fun b => b <> x00) (slice (buffer ++ junk) off (Z.to_nat off)) ->
     header_round_at rd sz hdr_sz jump l
     = Ok (Break (l ++ [fallback_header buffer off])))
  /\ (Forall (fun b => b = x00) (slice (buffer ++ junk) off (Z.to_nat off)) ->
      2 * off <= Z.of_nat (length (buffer ++ junk)) ->
      header_round_at rd sz hdr_sz jump l = Ok (Break l)).
Proof.
  intros sz off rd Hh Hj Hoff Hsz Hfail. unfold buffer_sz in Hsz.
  rewrite length_app in Hsz.
  subst sz off rd. unfold header_round_at. rewrite Hfail. cbn [bind].
  rewrite (u32_small (hdr_sz + jump)) by lia. split.
  - intros Hex.
    rewrite (junk_scan_found _ _ _ _ _ (reads_malloc buffer junk)); try lia.
    + cbn [bind]. rewrite fake_header_block by lia. reflexivity.
    + rewrite Z.add_0_r. exact Hex.
  - intros Hall Hin.
    rewrite (junk_scan_padding _ _ _ _ _ (reads_malloc buffer junk)); try lia.
    + reflexivity.
    + rewrite Z.add_0_r. exact Hall.
Qed.

Lemma C2_junk_after_failed_decode_witness :
  header_round_at (malloc_read rom_one_more (replicate 15 xff)) 1025 0 1024 []
  = Ok (Break ([] ++ [fallback_header rom_one_more (0 + 1024)])).
Proof.
  refine (proj1 (C2_junk_after_failed_decode rom_one_more (replicate 15 xff)
                   0 1024 [] _ _ _ _ _) _).
  - lia.
  - lia.
  - vm_compute. reflexivity.
  - vm_compute. discriminate.
  - vm_compute. reflexivity.
  - apply Exists_cons_hd. discriminate.
Defined.

(** ** The headers of the loop *)

(** The headers of the array are well formed. *)
Lemma fu_rom_pci_get_header_wf buffer off sz hdr :
  0 < sz < 4294967296 -> Z.of_nat (length buffer) < 4294967296 ->
  fu_rom_pci_get_header (buffer_read buffer) off sz = Ok (Some hdr) ->
  hdr_wf hdr.
Proof.
  intros Hsz Hlen H.
  apply (fu_rom_pci_get_header_Some _ _ _ _ _ (reads_buffer buffer)) in H
    as (Hoff & Hpos & Hin & Hdata & Hdl); [|exact Hsz].
  unfold hdr_wf. rewrite Hdata, slice_length by lia. repeat split; lia.
Qed.

Lemma fallback_header_wf buffer off :
  0 <= off < Z.of_nat (length buffer) ->
  Z.of_nat (length buffer) < 4294967296 ->
  hdr_wf (fallback_header buffer off).
Proof.
  intros Hoff Hlen. unfold hdr_wf. simpl. rewrite length_drop. lia.
Qed.

Lemma header_round_wf buffer hdr_sz jump l r :
  0 <= hdr_sz -> 0 <= jump ->
  hdr_sz + jump < Z.of_nat (length buffer) < 4294967296 ->
  Forall hdr_wf l ->
  header_round buffer hdr_sz jump l = Ok r ->
  Forall hdr_wf match r with Continue _ l' => l' | Break l' => l' end.
Proof.
  intros Hh Hj Hlt Hl H. unfold header_round in H. cbv zeta in H.
  rewrite (u32_small (hdr_sz + jump)) in H by lia.
  apply bind_Ok in H as (hdr & Hhdr & H).
  destruct hdr as [hdr|].
  - apply fu_rom_pci_get_header_wf in Hhdr; [|lia..].
    assert (Hwf : Forall hdr_wf (l ++ [set_rom_offset (hdr_sz + jump) hdr])).
    { apply Forall_app. split; [exact Hl|]. constructor; [exact Hhdr|constructor]. }
    destruct (_ =? 0); injection H as <-; exact Hwf.
  - apply bind_Ok in H as (found_data & _ & H). destruct found_data.
    + rewrite fake_header_in in H by lia. simpl in H. injection H as <-.
      apply Forall_app. split; [exact Hl|].
      constructor; [|constructor]. apply fallback_header_wf; lia.
    + injection H as <-. exact Hl.
Qed.

Lemma read_headers_wf buffer hdr_sz fuel jump l l' :
  0 <= hdr_sz -> 0 <= jump ->
  Z.of_nat (length buffer) < 4294967296 -> hdr_sz + jump < 4294967296 ->
  Forall hdr_wf l ->
  read_headers fuel buffer hdr_sz jump l = Some (Ok l') ->
  Forall hdr_wf l'.
Proof.
  intros Hh. revert jump l.
  induction fuel as [|fuel IH]; intros jump l Hj Hsz Hoff Hl H; simpl in H.
  - discriminate.
  - rewrite u32_small in H by lia.
    destruct (Z.gtb_spec (Z.of_nat (length buffer)) (hdr_sz + jump)) as [Hgt|];
      [|injection H as <-; exact Hl].
    destruct (header_round buffer hdr_sz jump l) as [[jump' l1|l1]|f] eqn:E;
      [| |discriminate].
    + assert (Hlt : hdr_sz + jump < Z.of_nat (length buffer) < 4294967296) by lia.
      pose proof (header_round_wf _ _ _ _ _ Hh Hj Hlt Hl E) as Hwf.
      apply header_round_Continue in E as (hdr & _ & _ & Hpos & -> & Hin & _);
        try lia.
      apply (IH (jump + rom_len hdr) l1); try lia; assumption.
    + injection H as <-.
      assert (Hlt : hdr_sz + jump < Z.of_nat (length buffer) < 4294967296) by lia.
      apply (header_round_wf _ _ _ _ _ Hh Hj Hlt Hl E).
Qed.

(** ** Steps of fu_rom_load_file *)

Lemma m_bind_access {A B : Type} (o : outcome A) (k : A -> rom_m B) priv :
  m_bind (m_access o) k priv
  = match o with Ok a => k a priv | Fault f => (priv, Undefined f) end.
Proof. destruct o; reflexivity. Qed.

Lemma m_bind_update {B : Type} f (k : unit -> rom_m B) priv :
  m_bind (m_update f) k priv = k tt (f priv).
Proof. reflexivity. Qed.

Lemma m_bind_get {B : Type} (k : FuRomPrivate -> rom_m B) priv :
  m_bind m_get k priv = k priv priv.
Proof. reflexivity. Qed.

Lemma m_bind_ret {A B : Type} (a : A) (k : A -> rom_m B) priv :
  m_bind (m_ret a) k priv = k a priv.
Proof. reflexivity. Qed.

Lemma m_bind_error {A B : Type} e (k : A -> rom_m B) priv :
  m_bind (m_error e) k priv = (priv, Err e).
Proof. reflexivity. Qed.

Lemma m_bind_assoc {A B C : Type} (m : rom_m A) (k1 : A -> rom_m B)
    (k2 : B -> rom_m C) priv :
  m_bind (m_bind m k1) k2 priv = m_bind m (fun a => m_bind (k1 a) k2) priv.
Proof. unfold m_bind. destruct (m priv) as [priv' [a|e|f]]; reflexivity. Qed.

(** The reads fail with the error of a read or with "firmware not
    fulfilling requests" only, and fill at most the buffer. *)
Lemma fill_buffer_Err stream buffer number_reads e :
  fill_buffer stream buffer number_reads = Err e ->
  e = IoError \/ e = NotResponding.
Proof.
  revert buffer number_reads.
  induction stream as [|[c|] stream IH]; intros buffer number_reads H;
    simpl in H; destruct (_ <? buffer_sz); try discriminate.
  - destruct (_ =? 0); [discriminate|]. destruct (_ >? 16).
    + injection H as <-. auto.
    + eapply IH, H.
  - injection H as <-. auto.
Qed.

Lemma fill_buffer_Ret stream buffer number_reads buffer' :
  fill_buffer stream buffer number_reads = Ret buffer' ->
  Z.of_nat (length buffer) <= buffer_sz ->
  Z.of_nat (length buffer) <= Z.of_nat (length buffer') <= buffer_sz.
Proof.
  revert buffer number_reads.
  induction stream as [|[c|] stream IH]; intros buffer number_reads H Hlen;
    simpl in H; destruct (Z.ltb_spec (Z.of_nat (length buffer)) buffer_sz);
    try discriminate; try (injection H as <-; lia).
  destruct (_ =? 0); [injection H as <-; lia|]. destruct (_ >? 16); [discriminate|].
  apply IH in H.
  - rewrite length_app in H. lia.
  - rewrite length_app, length_take. lia.
Qed.

(** The pass over the headers keeps the kind and the number of headers. *)
Lemma blank_headers_length l l' :
  blank_headers l = Ok l' -> length l' = length l.
Proof.
  revert l'. induction l as [|hdr l IH]; intros l' H; simpl in H.
  - injection H as <-. reflexivity.
  - apply bind_Ok in H as (hdr' & _ & H). apply bind_Ok in H as (l1 & Hl & H).
    injection H as <-. simpl. f_equal. apply IH, Hl.
Qed.

Lemma fu_rom_find_and_blank_serial_numbers_frame priv priv' :
  fu_rom_find_and_blank_serial_numbers priv = Ok priv' ->
  kind priv' = kind priv /\ length (hdrs priv') = length (hdrs priv)
  /\ version priv' = version priv.
Proof.
  unfold fu_rom_find_and_blank_serial_numbers. intros H.
  destruct (_ || _).
  - injection H as <-. auto.
  - apply bind_Ok in H as (l & Hl & H). injection H as <-. simpl.
    split; [reflexivity|]. split; [|reflexivity]. apply blank_headers_length, Hl.
Qed.

(** The pass is skipped for the kinds PCI and Intel. *)
Lemma fu_rom_find_and_blank_serial_numbers_skip priv :
  kind priv = FU_ROM_KIND_PCI \/ kind priv = FU_ROM_KIND_INTEL ->
  fu_rom_find_and_blank_serial_numbers priv = Ok priv.
Proof.
  intros [H|H]; unfold fu_rom_find_and_blank_serial_numbers; rewrite H;
    reflexivity.
Qed.

(** The headers: the only error is "Failed to detect firmware header"; on
    success the array is not empty, and the kind is untouched. *)
Lemma load_headers_post host buffer priv priv' r :
  load_headers host buffer priv = (priv', r) ->
  kind priv' = kind priv
  /\ match r with
     | Ret (_, hdr) => exists l, hdrs priv' = hdr :: l
     | Err e => e = NoHeaderFound /\ hdrs priv' = []
     | Undefined _ => True
     end.
Proof.
  unfold load_headers. intros H.
  rewrite m_bind_access in H.
  destruct (ifr_hdr_sz host buffer) as [hdr_sz|f]; [|injection H as <- <-; auto].
  rewrite m_bind_get in H.
  destruct (read_headers _ _ _ _ _) as [[l|f]|].
  - rewrite m_bind_access, m_bind_update in H. destruct l as [|hdr l].
    + rewrite m_bind_access in H.
      destruct (mem_bytes _ _ _); injection H as <- <-; auto.
    + rewrite m_bind_access in H.
      destruct (print_headers _); injection H as <- <-; simpl; eauto.
  - rewrite m_bind_access in H. injection H as <- <-; auto.
  - injection H as <- <-; auto.
Qed.

(** The kind: it is PCI before the tests, so it is not "unknown" after
    them; the only error is "firmware corrupt (overflow)". *)
Lemma detect_kind_post buffer hdr_sz hdr priv priv' r :
  detect_kind buffer hdr_sz hdr priv = (priv', r) ->
  hdrs priv' = hdrs priv
  /\ kind priv' <> FU_ROM_KIND_UNKNOWN
  /\ match r with
     | Err e => e = CorruptOverflow /\ kind priv' = FU_ROM_KIND_PCI
     | _ => True
     end.
Proof.
  unfold detect_kind. cbv zeta. intros H.
  rewrite !m_bind_update in H.
  set (priv0 := set_kind FU_ROM_KIND_PCI _) in H.
  assert (Hpriv0 : hdrs priv0 = hdrs priv /\ kind priv0 = FU_ROM_KIND_PCI)
    by (split; reflexivity).
  clearbody priv0. destruct Hpriv0 as [Hh Hk].
  assert (Hgo : forall hdr_sz',
    (if hdr_sz' >? Z.of_nat (length buffer) then m_error CorruptOverflow
     else
       let! k74 := m_access (memcmp_eq (buffer_read buffer) (hdr_sz' + 0x04)
                               (cstr "K74")) in
       do! (if k74 then m_update (set_kind FU_ROM_KIND_NVIDIA)
            else
              let! vbt := m_access (memcmp_eq (buffer_read buffer) hdr_sz'
                                      (cstr "$VBT")) in
              if vbt then m_update (set_kind FU_ROM_KIND_INTEL)
              else
                let! ati := m_access (memcmp_eq (buffer_read buffer) 0x30
                                        (cstr " 761295520")) in
                if ati then m_update (set_kind FU_ROM_KIND_ATI)
                else m_ret tt) then
       let! priv := m_get in
       if bool_decide (kind priv = FU_ROM_KIND_UNKNOWN) then m_error UnknownKind
       else m_ret tt) priv0 = (priv', r) ->
    hdrs priv' = hdrs priv
    /\ kind priv' <> FU_ROM_KIND_UNKNOWN
    /\ match r with
       | Err e => e = CorruptOverflow /\ kind priv' = FU_ROM_KIND_PCI
       | _ => True
       end).
  { intros hdr_sz' G. destruct (_ >? _).
    - injection G as <- <-. rewrite Hk. repeat split; congruence.
    - rewrite m_bind_access in G.
      destruct (memcmp_eq _ (hdr_sz' + 4) _) as [k74|f];
        [|injection G as <- <-; rewrite Hk; repeat split; congruence].
      destruct k74.
      + rewrite m_bind_update, m_bind_get in G. simpl in G.
        injection G as <- <-. simpl. repeat split; congruence.
      + rewrite m_bind_assoc, m_bind_access in G.
        destruct (memcmp_eq _ hdr_sz' _) as [vbt|f];
          [|injection G as <- <-; rewrite Hk; repeat split; congruence].
        destruct vbt.
        * rewrite m_bind_update, m_bind_get in G. simpl in G.
          injection G as <- <-. simpl. repeat split; congruence.
        * rewrite m_bind_assoc, m_bind_access in G.
          destruct (memcmp_eq _ 48 _) as [ati|f];
            [|injection G as <- <-; rewrite Hk; repeat split; congruence].
          destruct ati.
          -- rewrite m_bind_update, m_bind_get in G. simpl in G.
             injection G as <- <-. simpl. repeat split; congruence.
          -- rewrite m_bind_ret, m_bind_get in G. rewrite Hk in G. simpl in G.
             injection G as <- <-. rewrite Hk. repeat split; congruence. }
  destruct (bool_decide _).
  - rewrite m_bind_access in H. destruct (le16 _ _ _) as [hdr_sz'|f].
    + eapply Hgo, H.
    + injection H as <- <-. rewrite Hk. repeat split; congruence.
  - rewrite m_bind_ret in H. eapply Hgo, H.
Qed.

(** The end of the function keeps the kind and the number of headers; its
    only error is "Firmware version extractor not known". *)
Lemma finish_load_post hdr blank_ppid priv priv' r :
  finish_load hdr blank_ppid priv = (priv', r) ->
  kind priv' = kind priv
  /\ length (hdrs priv') = length (hdrs priv)
  /\ match r with Err e => e = VersionNotFound | _ => True end.
Proof.
  unfold finish_load. intros H. rewrite m_bind_get, m_bind_access in H.
  destruct (fu_rom_find_version _ _) as [v|f]; [|injection H as <- <-; auto].
  rewrite m_bind_update in H.
  set (priv0 := set_version _ priv) in H.
  assert (Hpriv0 : kind priv0 = kind priv /\ hdrs priv0 = hdrs priv)
    by (split; reflexivity).
  clearbody priv0. destruct Hpriv0 as [Hk Hh].
  assert (Hend : forall priv1,
    kind priv1 = kind priv -> length (hdrs priv1) = length (hdrs priv) ->
    (let! priv := m_get in
     let! wip := m_access (update_checksum (hdrs priv) (checksum_wip priv)) in
     do! m_update (set_checksum_wip wip) then
     do! m_update (set_guid (Some (vendor priv, model priv))) then
     if bool_decide (version priv = None) then m_error VersionNotFound
     else m_ret tt) priv1 = (priv', r) ->
    kind priv' = kind priv
    /\ length (hdrs priv') = length (hdrs priv)
    /\ match r with Err e => e = VersionNotFound | _ => True end).
  { intros priv1 Hk1 Hh1 G. rewrite m_bind_get, m_bind_access in G.
    destruct (update_checksum _ _) as [wip|f]; [|injection G as <- <-; auto].
    rewrite !m_bind_update in G.
    destruct (bool_decide _); injection G as <- <-; simpl; auto. }
  destruct blank_ppid.
  - rewrite m_bind_assoc, m_bind_get, m_bind_assoc, m_bind_access in H.
    destruct (fu_rom_find_and_blank_serial_numbers priv0) as [priv1|f] eqn:E.
    + rewrite m_bind_update in H.
      apply fu_rom_find_and_blank_serial_numbers_frame in E as (Hk1 & Hh1 & _).
      apply (Hend priv1); [congruence | congruence | exact H].
    + injection H as <- <-. rewrite Hk, Hh. auto.
  - rewrite m_bind_ret in H. apply (Hend priv0); [congruence | congruence | exact H].
Qed.

(** For the kinds PCI and Intel the flag changes nothing. *)
Lemma finish_load_skip hdr priv :
  kind priv = FU_ROM_KIND_PCI \/ kind priv = FU_ROM_KIND_INTEL ->
  finish_load hdr true priv = finish_load hdr false priv.
Proof.
  intros Hk. unfold finish_load. rewrite !m_bind_get, !m_bind_access.
  destruct (fu_rom_find_version _ _) as [v|f]; [|reflexivity].
  rewrite !m_bind_update.
  rewrite m_bind_assoc, m_bind_get, m_bind_assoc, m_bind_access.
  rewrite fu_rom_find_and_blank_serial_numbers_skip by exact Hk.
  rewrite m_bind_update, m_bind_ret. reflexivity.
Qed.

(** In [fu_rom_load_file] the loop has fuel enough: the case of
    [load_headers] for a loop that has not ended never comes. *)
Lemma read_headers_in_load host stream buffer0 stream' buffer hdr_sz l :
  g_input_stream_read stream buffer_sz = (Some buffer0, stream') ->
  fill_buffer stream' buffer0 0 = Ret buffer ->
  ifr_hdr_sz host buffer = Ok hdr_sz ->
  exists r, read_headers (S (length buffer)) buffer hdr_sz 0 l = Some r.
Proof.
  intros Hread Hfill Hifr.
  assert (Hlen0 : Z.of_nat (length buffer0) <= buffer_sz).
  { destruct stream as [|[c|] stream]; simpl in Hread; [| |discriminate].
    - injection Hread as <- <-. unfold buffer_sz. simpl. lia.
    - injection Hread as <- <-. rewrite length_take. unfold buffer_sz. lia. }
  apply fill_buffer_Ret in Hfill; [|exact Hlen0]. unfold buffer_sz in Hfill.
  apply ifr_hdr_sz_range in Hifr.
  apply read_headers_ends; lia.
Qed.

(** ** C10 *)

(** C10.  [fu_rom_load_file] never fails with "Failed to detect firmware
    kind".  It fails with "Failed to detect firmware header" when the array
    of headers is empty after the loop; with any later result, "firmware
    corrupt (overflow)", "Firmware version extractor not known" or
    success, the array holds a header, one that the loop has decoded or
    made for trailing bytes, and the kind is not "unknown", since the kind
    is set to PCI before the vendor tests: it is still PCI at the overflow
    error. *)
Theorem C10_never_unknown_kind (host : byte_order) (stream : GInputStream)
    (blank_ppid : bool) (priv : FuRomPrivate) :
  let priv' := fst (fu_rom_load_file host stream blank_ppid priv) in
  let r := snd (fu_rom_load_file host stream blank_ppid priv) in
  r <> Err UnknownKind
  /\ (r = Err NoHeaderFound -> hdrs priv' = [])
  /\ (r = Err CorruptOverflow -> kind priv' = FU_ROM_KIND_PCI)
  /\ (r = Err CorruptOverflow \/ r = Err VersionNotFound \/ r = Ret tt ->
      hdrs priv' <> [] /\ kind priv' <> FU_ROM_KIND_UNKNOWN).
Proof.
  set (P := fun res : FuRomPrivate * result unit =>
    snd res <> Err UnknownKind
    /\ (snd res = Err NoHeaderFound -> hdrs (fst res) = [])
    /\ (snd res = Err CorruptOverflow -> kind (fst res) = FU_ROM_KIND_PCI)
    /\ (snd res = Err CorruptOverflow \/ snd res = Err VersionNotFound
        \/ snd res = Ret tt ->
        hdrs (fst res) <> [] /\ kind (fst res) <> FU_ROM_KIND_UNKNOWN)).
  change (P (fu_rom_load_file host stream blank_ppid priv)).
  assert (Hearly : forall (p : FuRomPrivate) (e : FwupdError),
    e = IoError \/ e = TooSmall \/ e = NotResponding -> P (p, Err e)).
  { intros p e He. unfold P. simpl.
    split; [|split; [|split]]; try (destruct He as [|[|]]; congruence).
    intros [|[|]]; destruct He as [|[|]]; congruence. }
  assert (Hfault : forall (p : FuRomPrivate) (f : fault), P (p, Undefined f)).
  { intros p f. unfold P. simpl. split; [|split; [|split]]; try congruence.
    intros [|[|]]; congruence. }
  unfold fu_rom_load_file.
  destruct (g_input_stream_read stream buffer_sz) as [[buffer|] stream'];
    [|apply Hearly; auto].
  destruct (_ <? 1024); [apply Hearly; auto|].
  unfold m_bind at 1, m_result.
  destruct (fill_buffer stream' buffer 0) as [buffer'|e|f] eqn:Efill;
    [|apply Hearly; apply fill_buffer_Err in Efill; destruct Efill; auto
     |apply Hfault].
  unfold load_buffer. unfold m_bind at 1.
  destruct (load_headers host buffer' priv) as [priv1 [[hdr_sz hdr]|e|f]] eqn:E1;
    apply load_headers_post in E1 as [_ E1]; [| |apply Hfault].
  - destruct E1 as [l Hl]. unfold m_bind at 1. simpl fst. simpl snd.
    destruct (detect_kind buffer' hdr_sz hdr priv1) as [priv2 [[]|e|f]] eqn:E2;
      apply detect_kind_post in E2 as (Hh2 & Hk2 & E2); [| |apply Hfault].
    + destruct (finish_load hdr blank_ppid priv2) as [priv3 r] eqn:E3.
      apply finish_load_post in E3 as (Hk3 & Hh3 & E3).
      assert (hdrs priv3 <> []).
      { intros H0. rewrite H0, Hh2, Hl in Hh3. discriminate. }
      unfold P. simpl. split; [|split; [|split]].
      * intros ->. discriminate E3.
      * intros ->. discriminate E3.
      * intros ->. discriminate E3.
      * intros _. split; congruence.
    + destruct E2 as [-> Hpci]. unfold P. simpl.
      split; [|split; [|split]]; try congruence.
      intros _. split; congruence.
  - destruct E1 as [-> Hnil]. unfold P. simpl.
    split; [|split; [|split]]; try congruence.
    intros [|[|]]; congruence.
Qed.

(** ** C9 *)

Lemma load_buffer_flag host buffer priv :
  kind (fst (load_buffer host buffer true priv)) = FU_ROM_KIND_PCI
  \/ kind (fst (load_buffer host buffer true priv)) = FU_ROM_KIND_INTEL ->
  load_buffer host buffer true priv = load_buffer host buffer false priv.
Proof.
  unfold load_buffer, m_bind.
  destruct (load_headers host buffer priv) as [priv1 [[hdr_sz hdr]|e|f]];
    [|reflexivity..].
  simpl fst. simpl snd.
  destruct (detect_kind buffer hdr_sz hdr priv1) as [priv2 [[]|e|f]];
    [|reflexivity..].
  intros Hk. apply finish_load_skip.
  destruct (finish_load hdr true priv2) as [priv3 r] eqn:E.
  apply finish_load_post in E as (Hk3 & _). simpl in Hk. rewrite <- Hk3. exact Hk.
Qed.

(** C9.  When the kind after a run with the flag [FU_ROM_LOAD_FLAG_BLANK_PPID]
    is PCI or Intel, the run without the flag has the same outcome and
    leaves the same object: the same headers with the same bytes, and the
    same bytes given to the checksum. *)
Theorem C9_flag_changes_nothing_for_pci_and_intel (host : byte_order)
    (stream : GInputStream) (priv : FuRomPrivate) :
  let blanked := fu_rom_load_file host stream true priv in
  let plain := fu_rom_load_file host stream false priv in
  kind (fst blanked) = FU_ROM_KIND_PCI \/ kind (fst blanked) = FU_ROM_KIND_INTEL ->
  blanked = plain
  /\ rom_data <$> hdrs (fst blanked) = rom_data <$> hdrs (fst plain)
  /\ checksum_wip (fst blanked) = checksum_wip (fst plain).
Proof.
  intros blanked plain Hk.
  assert (Heq : blanked = plain); [|rewrite Heq; auto].
  subst blanked plain. revert Hk. unfold fu_rom_load_file.
  destruct (g_input_stream_read stream buffer_sz) as [[buffer|] stream'];
    [|reflexivity].
  destruct (_ <? 1024); [reflexivity|].
  unfold m_bind, m_result.
  destruct (fill_buffer stream' buffer 0) as [buffer'|e|f]; [|reflexivity..].
  apply load_buffer_flag.
Qed.

Lemma C9_flag_changes_nothing_for_pci_and_intel_witness :
  snd (fu_rom_load_file G_LITTLE_ENDIAN [Some rom_arc] true fu_rom_new) = Ret tt
  /\ version (fst (fu_rom_load_file G_LITTLE_ENDIAN [Some rom_arc] true fu_rom_new))
     = Some (cstr "1.2.3")
  /\ fu_rom_load_file G_LITTLE_ENDIAN [Some rom_arc] true fu_rom_new
     = fu_rom_load_file G_LITTLE_ENDIAN [Some rom_arc] false fu_rom_new.
Proof.
  split; [vm_compute; reflexivity|]. split; [vm_compute; reflexivity|].
  apply (C9_flag_changes_nothing_for_pci_and_intel G_LITTLE_ENDIAN
           [Some rom_arc] fu_rom_new).
  left. vm_compute. reflexivity.
Defined.

(** ** C1 *)

(** C1.  Three accesses of [fu_rom_load_file] leave their arrays.

    On [rom_long_scan], 1536 bytes, the decoder finds no header at 1024 and
    the scan for junk reads the 1024 bytes from 1024 on: from 1536 on they
    are not bytes of the file.

    On [rom_short_header], on a little-endian host, the loop decodes one
    header, [hdr_short], whose block has 64 bytes; the kind is NVIDIA, and
    the version search compares the 8 bytes at 0x013d of that block.

    On [rom_open_serial] the header has 512 bytes and "PPID" at 500; with
    the flag set, the blanking loop, which is given the length of the
    region for a field that starts 500 bytes into it, goes on at 512.
    Without the flag the same file gives no fault. *)
Theorem C1_accesses_outside_bounds :
  (fu_rom_pci_get_header (buffer_read rom_long_scan) 1024 512 = Ok None
   /\ length rom_long_scan = 1536%nat
   /\ junk_scan (buffer_read rom_long_scan) 1024 1024 0 = Fault Uninitialised
   /\ snd (fu_rom_load_file G_LITTLE_ENDIAN [Some rom_long_scan] false fu_rom_new)
      = Undefined Uninitialised)
  /\ (load_headers G_LITTLE_ENDIAN rom_short_header fu_rom_new
      = (set_hdrs [hdr_short] fu_rom_new, Ret (1024, hdr_short))
      /\ detect_kind rom_short_header 1024 hdr_short (set_hdrs [hdr_short] fu_rom_new)
         = (set_kind FU_ROM_KIND_NVIDIA (set_hdrs [hdr_short] fu_rom_new), Ret tt)
      /\ length (rom_data hdr_short) = 64%nat
      /\ memcmp_eq (rom_read (rom_data hdr_short)) 0x013d (cstr "Version ")
         = Fault OutOfBounds
      /\ fu_rom_find_version_nvidia hdr_short = Fault OutOfBounds
      /\ snd (fu_rom_load_file G_LITTLE_ENDIAN [Some rom_short_header] false fu_rom_new)
         = Undefined OutOfBounds)
  /\ (fu_rom_pci_strstr (plain_header (slice rom_open_serial 0 512) 0) (cstr "PPID")
      = Ok (Some 500)
      /\ fu_rom_blank_serial_numbers (slice rom_open_serial 0 512) 500 512
         = Fault OutOfBounds
      /\ fu_rom_load_file G_LITTLE_ENDIAN [Some rom_open_serial] true fu_rom_new
         = (set_version None
              (set_kind FU_ROM_KIND_ATI
                 (set_hdrs [plain_header (slice rom_open_serial 0 512) 0] fu_rom_new)),
            Undefined OutOfBounds)
      /\ snd (fu_rom_load_file G_LITTLE_ENDIAN [Some rom_open_serial] false fu_rom_new)
         = Err VersionNotFound).
Proof.
  repeat split; vm_compute; reflexivity.
Qed.

(** * Further properties of the code *)

(** ** fu_rom_pci_strstr *)

(** X1.  A pointer that [fu_rom_pci_strstr] returns points into the region
    [rom_data[data_len .. rom_len)]: the needle, which is not empty, is at
    it, at least one byte of the region comes after the needle, and the
    needle is at no earlier index of the region. *)
Theorem X1_strstr_pointer (hdr : FuRomPciHeader) (needle : list byte) (p : Z) :
  fu_rom_pci_strstr hdr needle = Ok (Some p) ->
  needle <> []
  /\ in_region hdr needle p
  /\ forall q, data_len hdr <= q < p -> ~ in_region hdr needle q.
Proof.
  intros H.
  pose proof (fu_rom_pci_strstr_Some _ _ _ H) as (Hp1 & Hp2 & Hp3 & Hfirst).
  split; [|split].
  - intros ->. discriminate H.
  - repeat split; assumption.
  - intros q Hq (_ & _ & Hs). exact (Hfirst q Hq Hs).
Qed.

Lemma X1_strstr_pointer_witness :
  in_region hdr_one_ppid (cstr "PPID") 100.
Proof.
  apply (X1_strstr_pointer hdr_one_ppid (cstr "PPID") 100).
  vm_compute. reflexivity.
Defined.

(** X2.  On a header whose block has [rom_len] bytes and whose [data_len]
    is not negative, the search reads inside the block only, and it
    returns NULL exactly when the needle is empty or is at no index of the
    region that leaves a byte of the region after it. *)
Theorem X2_strstr_well_formed (hdr : FuRomPciHeader) (needle : list byte) :
  hdr_wf hdr ->
  exists r,
    fu_rom_pci_strstr hdr needle = Ok r
    /\ (r = None <-> needle = [] \/ forall q, ~ in_region hdr needle q).
Proof.
  intros (Hlen & Hpos & Hdl).
  destruct (fu_rom_pci_strstr_in hdr needle) as [r Hr]; [lia | lia |].
  exists r. split; [exact Hr|]. destruct r as [p|]; split.
  - discriminate.
  - pose proof (fu_rom_pci_strstr_Some _ _ _ Hr) as (Hp1 & Hp2 & Hp3 & _).
    intros [->|Hno]; [discriminate Hr|].
    exfalso. apply (Hno p). repeat split; assumption.
  - intros _. destruct needle as [|c needle]; [left; reflexivity|]. right.
    intros q (Hq1 & Hq2 & Hq3).
    apply (fu_rom_pci_strstr_None _ _ Hr) with (q := q);
      [discriminate | | assumption..].
    intros Hnil. rewrite Hnil in Hlen. simpl in Hlen. lia.
  - reflexivity.
Qed.

Lemma hdr_one_ppid_wf : hdr_wf hdr_one_ppid.
Proof. unfold hdr_wf. vm_compute. repeat split; congruence. Qed.

Lemma X2_strstr_well_formed_witness :
  exists r,
    fu_rom_pci_strstr hdr_one_ppid (cstr "BIOS: ") = Ok r
    /\ (r = None <->
        cstr "BIOS: " = [] \/ forall q, ~ in_region hdr_one_ppid (cstr "BIOS: ") q).
Proof.
  apply (X2_strstr_well_formed hdr_one_ppid (cstr "BIOS: ")).
  exact hdr_one_ppid_wf.
Defined.

(** X3.  On a header with [data_len > rom_len] every search returns NULL
    and reads nothing; so the version searches for the kinds PCI, Intel and
    ATI find no version, and the blanking pass leaves the header as it
    is.  (The search for NVIDIA also compares at fixed offsets.) *)
Theorem X3_data_len_beyond_rom_len (hdr : FuRomPciHeader) :
  data_len hdr > rom_len hdr ->
  (forall needle, fu_rom_pci_strstr hdr needle = Ok None)
  /\ fu_rom_find_version_pci hdr = Ok None
  /\ fu_rom_find_version_intel hdr = Ok None
  /\ fu_rom_find_version_ati hdr = Ok None
  /\ blank_header hdr = Ok hdr.
Proof.
  intros Hgt.
  assert (Hs : forall needle, fu_rom_pci_strstr hdr needle = Ok None).
  { intros needle. unfold fu_rom_pci_strstr.
    destruct needle as [|c needle]; [reflexivity|].
    destruct (rom_data hdr) as [|d data]; [reflexivity|].
    destruct (Z.gtb_spec (data_len hdr) (rom_len hdr)); [reflexivity | lia]. }
  split; [exact Hs|].
  unfold fu_rom_find_version_pci, fu_rom_find_version_intel,
    fu_rom_find_version_ati, blank_header.
  rewrite !Hs. simpl. destruct (bool_decide _); auto.
Qed.

Lemma X3_data_len_beyond_rom_len_witness :
  fu_rom_find_version_pci hdr_long_data = Ok None
  /\ blank_header hdr_long_data = Ok hdr_long_data.
Proof.
  destruct (X3_data_len_beyond_rom_len hdr_long_data) as (_ & H1 & _ & _ & H2).
  - vm_compute. reflexivity.
  - split; assumption.
Defined.

(** ** fu_rom_blank_serial_numbers *)

(** The bytes that the loop clears are no end marks, and when it stops
    before its [n] rounds are over it stops at an end mark. *)
Lemma blank_loop_marks data start n i data' len :
  blank_loop data start n i = Ok (data', len) ->
  (forall k : nat, start + i <= Z.of_nat k < start + len ->
     exists b, data !! k = Some b /\ is_end_mark b = false)
  /\ (len < i + Z.of_nat n ->
      exists b, data !! Z.to_nat (start + len) = Some b /\ is_end_mark b = true).
Proof.
  revert data i. induction n as [|n IH]; intros data i H; simpl in H.
  - injection H as <- <-. split; intros; lia.
  - apply bind_Ok in H as (b & Hb & H). apply rom_read_Ok in Hb as [Hi Hb].
    change (bool_decide (b = xff) || bool_decide (b = x00)
            || bool_decide (b = x0a) || bool_decide (b = x0d))
      with (is_end_mark b) in H.
    destruct (is_end_mark b) eqn:Hmark.
    + injection H as <- <-. split; [intros; lia|]. intros _. eauto.
    + pose proof (blank_loop_Ok _ _ _ _ _ _ H) as (Hlen & _ & _).
      apply IH in H as [Hclear Hstop]. split.
      * intros k Hk. destruct (decide (Z.of_nat k = start + i)) as [Heq|Hne].
        -- exists b. replace k with (Z.to_nat (start + i)) by lia. auto.
        -- destruct (Hclear k ltac:(lia)) as (b' & Hb' & Hm).
           rewrite list_lookup_insert_ne in Hb' by lia. eauto.
      * intros Hlt. destruct (Hstop ltac:(lia)) as (b' & Hb' & Hm).
        rewrite list_lookup_insert_ne in Hb' by lia. eauto.
Qed.

(** X4.  What [fu_rom_blank_serial_numbers (data + start, buffer_sz)] does
    when it returns [len]: [len] is at most [buffer_sz]; the block keeps its
    length; the [len] bytes from [start] on, none of which was an end mark
    (0xff, NUL, LF, CR), are zero; every other byte is as it was; and when
    [len] is less than [buffer_sz], the byte after them is an end mark. *)
Theorem X4_blanked_field (data data' : list byte) (start buffer_sz len : Z) :
  fu_rom_blank_serial_numbers data start buffer_sz = Ok (data', len) ->
  0 <= len <= Z.max 0 buffer_sz
  /\ length data' = length data
  /\ (forall k : nat, start <= Z.of_nat k < start + len ->
        data' !! k = Some x00
        /\ exists b, data !! k = Some b /\ is_end_mark b = false)
  /\ (forall k : nat, Z.of_nat k < start \/ start + len <= Z.of_nat k ->
        data' !! k = data !! k)
  /\ (len < buffer_sz ->
      exists b, data !! Z.to_nat (start + len) = Some b /\ is_end_mark b = true).
Proof.
  unfold fu_rom_blank_serial_numbers. intros H.
  pose proof (blank_loop_Ok _ _ _ _ _ _ H) as (Hlen & Hout & Hin).
  pose proof (blank_loop_length _ _ _ _ _ _ H) as Hl.
  pose proof (blank_loop_marks _ _ _ _ _ _ H) as (Hclear & Hstop).
  split; [lia|]. split; [exact Hl|]. split; [|split].
  - intros k Hk. split; [apply Hin; lia | apply Hclear; lia].
  - intros k Hk. apply Hout. lia.
  - intros Hlt. apply Hstop. lia.
Qed.

Lemma X4_blanked_field_witness :
  exists data',
    fu_rom_blank_serial_numbers (rom_data hdr_one_ppid) 100 512 = Ok (data', 9)
    /\ length data' = length (rom_data hdr_one_ppid)
    /\ exists b, rom_data hdr_one_ppid !! Z.to_nat (100 + 9) = Some b
                 /\ is_end_mark b = true.
Proof.
  destruct (fu_rom_blank_serial_numbers (rom_data hdr_one_ppid) 100 512)
    as [[data' len]|f] eqn:E; [|vm_compute in E; discriminate].
  assert (Hlen : len = 9) by (vm_compute in E; congruence). subst len.
  exists data'. split; [reflexivity|].
  destruct (X4_blanked_field _ _ _ _ _ E) as (_ & Hl & _ & _ & Hstop).
  split; [exact Hl|]. apply Hstop. lia.
Defined.

Lemma blank_loop_safe data start n i (e : nat) b :
  0 <= start + i -> start + i <= Z.of_nat e ->
  data !! e = Some b -> is_end_mark b = true ->
  exists data' len,
    blank_loop data start n i = Ok (data', len) /\ start + len <= Z.of_nat e.
Proof.
  revert data i. induction n as [|n IH]; intros data i Hi Hle He Hmark; simpl.
  - eauto.
  - destruct (lookup_lt_is_Some_2 data (Z.to_nat (start + i))) as [b0 Hb0].
    { apply lookup_lt_Some in He. lia. }
    rewrite (proj2 (rom_read_Ok data (start + i) b0) (conj Hi Hb0)). simpl.
    change (bool_decide (b0 = xff) || bool_decide (b0 = x00)
            || bool_decide (b0 = x0a) || bool_decide (b0 = x0d))
      with (is_end_mark b0).
    destruct (is_end_mark b0) eqn:Hm0; [eauto|].
    assert (Hne : Z.of_nat e <> start + i).
    { intros Heq. replace (Z.to_nat (start + i)) with e in Hb0 by lia. congruence. }
    destruct (IH (<[Z.to_nat (start + i) := x00]> data) (i + 1))
      as (data' & len & Hr & Hlen); try lia.
    + rewrite list_lookup_insert_ne by lia. exact He.
    + exact Hmark.
    + eauto.
Qed.

(** X5.  When the block holds an end mark at or after [start], the blanking
    loop stays inside the block whatever [buffer_sz] it is given, and it
    clears no byte at or after the mark. *)
Theorem X5_blank_stops_at_end_mark (data : list byte) (start buffer_sz : Z)
    (e : nat) (b : byte) :
  0 <= start <= Z.of_nat e -> data !! e = Some b -> is_end_mark b = true ->
  exists data' len,
    fu_rom_blank_serial_numbers data start buffer_sz = Ok (data', len)
    /\ start + len <= Z.of_nat e
    /\ forall k : nat, (e <= k)%nat -> data' !! k = data !! k.
Proof.
  intros Hstart He Hmark. unfold fu_rom_blank_serial_numbers.
  destruct (blank_loop_safe data start (Z.to_nat buffer_sz) 0 e b)
    as (data' & len & Hr & Hlen); try lia; try assumption.
  exists data', len. split; [exact Hr|]. split; [exact Hlen|].
  pose proof (blank_loop_Ok _ _ _ _ _ _ Hr) as (_ & Hout & _).
  intros k Hk. apply Hout. lia.
Qed.

Lemma X5_blank_stops_at_end_mark_witness :
  exists data' len,
    fu_rom_blank_serial_numbers (rom_data hdr_one_ppid) 100 4294967295
      = Ok (data', len)
    /\ 100 + len <= Z.of_nat 109
    /\ forall k : nat, (109 <= k)%nat -> data' !! k = rom_data hdr_one_ppid !! k.
Proof.
  apply (X5_blank_stops_at_end_mark (rom_data hdr_one_ppid) 100 4294967295
           109 x00).
  - lia.
  - vm_compute. reflexivity.
  - reflexivity.
Defined.

(** X6.  When the search has found "PPID" at [p] and [blank_and_fix] has
    returned, the new header differs from the old one in its block only;
    the block has its length, the four bytes of the "PPID" are zero, and
    no byte before [p] has changed. *)
Theorem X6_marker_erased (hdr hdr' : FuRomPciHeader) (p : Z) :
  rom_len hdr < 4294967296 ->
  fu_rom_pci_strstr hdr (cstr "PPID") = Ok (Some p) ->
  blank_and_fix hdr p = Ok hdr' ->
  hdr' = set_rom_data (rom_data hdr') hdr
  /\ length (rom_data hdr') = length (rom_data hdr)
  /\ slice (rom_data hdr') p 4 = zeros 4
  /\ forall k : nat, Z.of_nat k < p -> rom_data hdr' !! k = rom_data hdr !! k.
Proof.
  intros Hmax Hs H.
  pose proof (fu_rom_pci_strstr_Some_nonneg _ _ _ Hs) as Hdl.
  pose proof (fu_rom_pci_strstr_Some _ _ _ Hs) as (Hp1 & Hp2 & Hp3 & _).
  change (cstr "PPID") with [x50; x50; x49; x44] in *. simpl length in *.
  apply blank_and_fix_Ok in H as (data & len & chk & b & Hblank & _ & Hb & ->).
  rewrite !u32_small in * by lia.
  pose proof (blank_loop_marks _ _ _ _ _ _ Hblank) as (_ & Hstop).
  pose proof (blank_loop_Ok _ _ _ _ _ _ Hblank) as (Hlen & Hout & Hin).
  pose proof (blank_loop_length _ _ _ _ _ _ Hblank) as Hl.
  assert (H4 : 4 <= len).
  { destruct (Z.leb_spec 4 len) as [|Hlt]; [assumption|]. exfalso.
    destruct (Hstop ltac:(lia)) as (b' & Hb' & Hm).
    pose proof (slice_lookup (rom_data hdr) p 4 (Z.to_nat len) ltac:(lia)) as Hsl.
    rewrite Hp3 in Hsl. replace (Z.to_nat p + Z.to_nat len)%nat
      with (Z.to_nat (p + len)) in Hsl by lia.
    rewrite Hb' in Hsl.
    destruct (Z.to_nat len) as [|[|[|[|?]]]] eqn:E4; simpl in Hsl;
      try (injection Hsl as <-; discriminate Hm); lia. }
  simpl. split; [reflexivity|]. split; [rewrite length_insert; exact Hl|].
  split.
  - apply list_eq. intros t. destruct (decide (t < 4)%nat) as [Ht|Ht].
    + rewrite slice_lookup by exact Ht.
      rewrite list_lookup_insert_ne by lia. rewrite Hin by lia.
      unfold zeros. rewrite lookup_replicate_2 by exact Ht. reflexivity.
    + unfold slice, zeros. rewrite lookup_take_ge by lia.
      symmetry. apply lookup_ge_None. rewrite length_replicate. lia.
  - intros k Hk. rewrite list_lookup_insert_ne by lia. apply Hout. lia.
Qed.

Lemma X6_marker_erased_witness :
  exists hdr',
    blank_and_fix hdr_one_ppid 100 = Ok hdr'
    /\ slice (rom_data hdr') 100 4 = zeros 4.
Proof.
  destruct (blank_and_fix hdr_one_ppid 100) as [hdr'|f] eqn:E;
    [|vm_compute in E; discriminate].
  exists hdr'. split; [reflexivity|].
  destruct (X6_marker_erased hdr_one_ppid hdr' 100) as (_ & _ & H & _).
  - vm_compute. reflexivity.
  - vm_compute. reflexivity.
  - exact E.
  - exact H.
Defined.

(** ** fu_rom_pci_header_get_checksum *)

Lemma checksum_loop_short data n i acc :
  0 <= i -> (Z.to_nat i <= length data < Z.to_nat i + n)%nat ->
  checksum_loop (rom_read data) n i acc = Fault OutOfBounds.
Proof.
  revert i acc. induction n as [|n IH]; intros i acc Hi Hlen; simpl; [lia|].
  unfold rom_read at 1. destruct (Z.ltb_spec i 0); [reflexivity|].
  destruct (data !! Z.to_nat i) as [b|] eqn:Hb; [|reflexivity]. simpl.
  apply lookup_lt_Some in Hb. apply IH; lia.
Qed.

(** X7.  The checksum of a header whose block has at least [rom_len] bytes
    is the sum of the first [rom_len] bytes modulo 256; on a shorter block
    the loop leaves the block.  A checksum is a byte. *)
Theorem X7_checksum_is_byte_sum (hdr : FuRomPciHeader) :
  ((Z.to_nat (rom_len hdr) <= length (rom_data hdr))%nat ->
   fu_rom_pci_header_get_checksum hdr
   = Ok (byte_sum (take (Z.to_nat (rom_len hdr)) (rom_data hdr)) mod 256))
  /\ ((length (rom_data hdr) < Z.to_nat (rom_len hdr))%nat ->
      fu_rom_pci_header_get_checksum hdr = Fault OutOfBounds)
  /\ forall c, fu_rom_pci_header_get_checksum hdr = Ok c -> 0 <= c < 256.
Proof.
  split; [apply fu_rom_pci_header_get_checksum_in|]. split.
  - intros H. apply checksum_loop_short; simpl; lia.
  - intros c H. apply fu_rom_pci_header_get_checksum_Ok in H as [-> _].
    apply Z.mod_pos_bound. lia.
Qed.

Lemma X7_checksum_is_byte_sum_witness :
  fu_rom_pci_header_get_checksum hdr_one_ppid
  = Ok (byte_sum (take (Z.to_nat (rom_len hdr_one_ppid)) (rom_data hdr_one_ppid))
        mod 256).
Proof.
  apply (proj1 (X7_checksum_is_byte_sum hdr_one_ppid)).
  vm_compute. lia.
Defined.

(** ** fu_rom_pci_parse_data *)

Lemma byte_at_range (l : list byte) (off : Z) : 0 <= byte_at l off < 256.
Proof. apply b2z_range. Qed.

Lemma le16_at_range (l : list byte) (off : Z) : 0 <= le16_at l off < 65536.
Proof.
  unfold le16_at. pose proof (byte_at_range l off).
  pose proof (byte_at_range l (off + 1)). lia.
Qed.

Lemma byte_at_lookup (l : list byte) (off : Z) (b : byte) :
  l !! Z.to_nat off = Some b -> byte_at l off = b2z b.
Proof. intros H. unfold byte_at. rewrite H. reflexivity. Qed.

Section Fields.
Context (rd : reader) (l : list byte) (Hrd : reads rd l).

Lemma le16_Ok (lo hi v : Z) :
  hi = lo + 1 -> le16 rd lo hi = Ok v ->
  v = le16_at l lo /\ 0 <= lo /\ lo + 2 <= Z.of_nat (length l).
Proof using Hrd.
  intros -> H. unfold le16 in H.
  apply bind_Ok in H as (h & Hh & H). apply bind_Ok in H as (b & Hb & H).
  injection H as <-. apply Hrd in Hh as [_ Hh]. apply Hrd in Hb as [Hlo Hb].
  unfold le16_at. rewrite (byte_at_lookup _ _ _ Hh), (byte_at_lookup _ _ _ Hb).
  rewrite Z.shiftl_mul_pow2 by lia. apply lookup_lt_Some in Hh.
  split; [change (2 ^ 8) with 256; lia|]. lia.
Qed.

Lemma le16_in (lo hi : Z) :
  hi = lo + 1 -> 0 <= lo -> lo + 2 <= Z.of_nat (length l) ->
  le16 rd lo hi = Ok (le16_at l lo).
Proof using Hrd.
  intros -> Hlo Hlen. unfold le16.
  destruct (lookup_lt_is_Some_2 l (Z.to_nat (lo + 1)) ltac:(lia)) as [h Hh].
  destruct (lookup_lt_is_Some_2 l (Z.to_nat lo) ltac:(lia)) as [b Hb].
  rewrite (proj2 (Hrd (lo + 1) h)) by (split; [lia | exact Hh]). simpl.
  rewrite (proj2 (Hrd lo b)) by (split; [lia | exact Hb]). simpl.
  unfold le16_at. rewrite (byte_at_lookup _ _ _ Hh), (byte_at_lookup _ _ _ Hb).
  rewrite Z.shiftl_mul_pow2 by lia. f_equal. change (2 ^ 8) with 256. lia.
Qed.

Lemma read_Ok_byte_at (i : Z) (b : byte) :
  rd i = Ok b -> b2z b = byte_at l i /\ 0 <= i < Z.of_nat (length l).
Proof using Hrd.
  intros H. apply Hrd in H as [Hi H]. rewrite (byte_at_lookup _ _ _ H).
  apply lookup_lt_Some in H. split; [reflexivity | lia].
Qed.

Lemma read_in (i : Z) :
  0 <= i < Z.of_nat (length l) ->
  exists b, rd i = Ok b /\ b2z b = byte_at l i.
Proof using Hrd.
  intros Hi. destruct (lookup_lt_is_Some_2 l (Z.to_nat i) ltac:(lia)) as [b Hb].
  exists b. split; [apply Hrd; split; [lia | exact Hb]|].
  symmetry. apply byte_at_lookup, Hb.
Qed.
End Fields.

(** The fields of a PCI data structure at [c] in the block [d]. *)
Lemma parse_data_fields_eq (d : list byte) (c : Z) (hdr : FuRomPciHeader) :
  set_pci_data
    (u16 (le16_at d (c + 4))) (u16 (le16_at d (c + 6))) (u16 (le16_at d (c + 8)))
    (u16 (le16_at d (c + 10))) (byte_at d (c + 12))
    (u32 (Z.shiftl (u16 (byte_at d (c + 15))) 16
          + Z.shiftl (u16 (byte_at d (c + 14))) 8 + byte_at d (c + 13)))
    (u32 (le16_at d (c + 16) * 512)) (u16 (le16_at d (c + 18)))
    (byte_at d (c + 20)) (byte_at d (c + 21))
    (u32 (le16_at d (c + 22) * 512))
    (u16 (le16_at d (c + 24))) (u16 (le16_at d (c + 26))) hdr
  = set_pci_data
      (le16_at d (c + 4)) (le16_at d (c + 6)) (le16_at d (c + 8))
      (le16_at d (c + 10)) (byte_at d (c + 12))
      (byte_at d (c + 13) + 256 * byte_at d (c + 14) + 65536 * byte_at d (c + 15))
      (512 * le16_at d (c + 16)) (le16_at d (c + 18))
      (byte_at d (c + 20)) (byte_at d (c + 21))
      (512 * le16_at d (c + 22))
      (le16_at d (c + 24)) (le16_at d (c + 26)) hdr.
Proof.
  pose proof (le16_at_range d) as Hr. pose proof (byte_at_range d) as Hb.
  rewrite !(u16_small (le16_at _ _)) by apply Hr.
  rewrite (u16_small (byte_at d (c + 15))) by (specialize (Hb (c + 15)); lia).
  rewrite (u16_small (byte_at d (c + 14))) by (specialize (Hb (c + 14)); lia).
  rewrite !Z.shiftl_mul_pow2 by lia.
  rewrite !u32_small.
  - f_equal; lia.
  - specialize (Hr (c + 22)). lia.
  - specialize (Hr (c + 16)). lia.
  - pose proof (Hb (c + 13)). pose proof (Hb (c + 14)). pose proof (Hb (c + 15)).
    change (2 ^ 16) with 65536. change (2 ^ 8) with 256. lia.
Qed.

Ltac inv_le16 H :=
  let v := fresh "v" in
  let Hv := fresh "Hv" in
  apply bind_Ok in H as (v & Hv & H);
  apply (le16_Ok _ _ (reads_rom _)) in Hv as (-> & ? & ?); [|lia].

Ltac inv_read H :=
  let b := fresh "b" in
  let Hb := fresh "Hb" in
  let Hbv := fresh "Hbv" in
  apply bind_Ok in H as (b & Hb & H);
  apply (read_Ok_byte_at _ _ (reads_rom _)) in Hb as [Hbv ?];
  rewrite ?Hbv in H.

(** X8.  When [fu_rom_pci_parse_data] returns FALSE the header is as it
    was.  When it returns TRUE, [cpi_ptr] is not 0 and at most [rom_len],
    one of the signatures "PCIR", "RGIS", "NPDS", "NPDE" is at [cpi_ptr] in
    the block, the 28 bytes of the structure are inside the block, and the
    fields are those of the structure: the 16-bit ones little-endian, the
    class code of three bytes, the two lengths in units of 512 bytes. *)
Theorem X8_parse_data_fields (hdr hdr' : FuRomPciHeader) (ok : bool) :
  fu_rom_pci_parse_data hdr = Ok (hdr', ok) ->
  let d := rom_data hdr in
  let c := cpi_ptr hdr in
  if ok then
    0 < c /\ c <= rom_len hdr
    /\ slice d c 4 ∈ pci_signatures
    /\ c + 28 <= Z.of_nat (length d)
    /\ hdr' = set_pci_data
                (le16_at d (c + 4)) (le16_at d (c + 6)) (le16_at d (c + 8))
                (le16_at d (c + 10)) (byte_at d (c + 12))
                (byte_at d (c + 13) + 256 * byte_at d (c + 14)
                 + 65536 * byte_at d (c + 15))
                (512 * le16_at d (c + 16)) (le16_at d (c + 18))
                (byte_at d (c + 20)) (byte_at d (c + 21))
                (512 * le16_at d (c + 22))
                (le16_at d (c + 24)) (le16_at d (c + 26)) hdr
  else hdr' = hdr.
Proof.
  intros H d c. subst d c. unfold fu_rom_pci_parse_data in H.
  destruct (Z.eqb_spec (cpi_ptr hdr) 0) as [|Hc0];
    [injection H as <- <-; reflexivity|].
  destruct (_ && _); [injection H as <- <-; reflexivity|].
  destruct (Z.gtb_spec (cpi_ptr hdr) (rom_len hdr)) as [|Hle];
    [injection H as <- <-; reflexivity|].
  cbv zeta in H.
  apply bind_Ok in H as (pcir & Hpcir & H).
  apply (memcmp_eq_Ok _ _ (reads_rom _)) in Hpcir as [-> Hin].
  specialize (Hin ltac:(discriminate)).
  apply bind_Ok in H as (quirk & Hq & H).
  assert (Hsig : quirk = true -> slice (rom_data hdr) (cpi_ptr hdr) 4 ∈ pci_signatures).
  { intros ->. unfold pci_signatures. rewrite !elem_of_cons.
    case_bool_decide as H1; [auto|].
    apply bind_Ok in Hq as (rgis & Hr & Hq).
    apply (memcmp_eq_Ok _ _ (reads_rom _)) in Hr as [-> _].
    case_bool_decide as H2; [auto|].
    apply bind_Ok in Hq as (npds & Hn & Hq).
    apply (memcmp_eq_Ok _ _ (reads_rom _)) in Hn as [-> _].
    case_bool_decide as H3; [auto|].
    apply (memcmp_eq_Ok _ _ (reads_rom _)) in Hq as [Hq _].
    symmetry in Hq. apply bool_decide_eq_true in Hq. auto 6. }
  destruct quirk; simpl in H; [|injection H as <- <-; reflexivity].
  specialize (Hsig eq_refl).
  do 4 inv_le16 H. do 4 inv_read H. do 2 inv_le16 H. do 2 inv_read H.
  do 3 inv_le16 H.
  injection H as <- <-.
  split; [lia|]. split; [lia|]. split; [exact Hsig|]. split; [lia|].
  apply parse_data_fields_eq.
Qed.

Lemma X8_parse_data_fields_witness :
  exists hdr',
    fu_rom_pci_parse_data hdr_pcir = Ok (hdr', true)
    /\ vendor_id hdr' = 0x1234 /\ device_id hdr' = 0x5678
    /\ image_len hdr' = 512 /\ last_image hdr' = 0x80.
Proof.
  destruct (fu_rom_pci_parse_data hdr_pcir) as [[hdr' ok]|f] eqn:E;
    [|vm_compute in E; discriminate].
  assert (Hok : ok = true) by (vm_compute in E; congruence). subst ok.
  exists hdr'. split; [reflexivity|].
  pose proof (X8_parse_data_fields hdr_pcir hdr' true E) as (_ & _ & _ & _ & ->).
  repeat split; vm_compute; reflexivity.
Defined.

Lemma rom_read_in (data : list byte) (i : Z) :
  0 <= i < Z.of_nat (length data) ->
  rom_read data i = Ok (default x00 (data !! Z.to_nat i)).
Proof.
  intros Hi. unfold rom_read. destruct (Z.ltb_spec i 0); [lia|].
  destruct (lookup_lt_is_Some_2 data (Z.to_nat i) ltac:(lia)) as [b Hb].
  rewrite Hb. reflexivity.
Qed.

Lemma mem_bytes_rom_short (data : list byte) (off : Z) (n : nat) :
  0 <= off -> (Z.to_nat off <= length data < Z.to_nat off + n)%nat ->
  mem_bytes (rom_read data) off n = Fault OutOfBounds.
Proof.
  revert off. induction n as [|n IH]; intros off Hoff Hlen; simpl; [lia|].
  unfold rom_read at 1. destruct (Z.ltb_spec off 0); [reflexivity|].
  destruct (data !! Z.to_nat off) as [b|] eqn:Hb; [|reflexivity]. simpl.
  apply lookup_lt_Some in Hb. rewrite IH by lia. reflexivity.
Qed.

(** X9.  When [cpi_ptr] is not 0 and at most [rom_len], and the 28 bytes
    from [cpi_ptr] on are inside the block, [fu_rom_pci_parse_data] reads
    inside the block only, and it returns TRUE exactly when one of the four
    signatures is at [cpi_ptr]. *)
Theorem X9_parse_data_in_bounds (hdr : FuRomPciHeader) :
  0 < cpi_ptr hdr <= rom_len hdr ->
  cpi_ptr hdr + 28 <= Z.of_nat (length (rom_data hdr)) ->
  exists hdr',
    fu_rom_pci_parse_data hdr
    = Ok (hdr', bool_decide (slice (rom_data hdr) (cpi_ptr hdr) 4 ∈ pci_signatures)).
Proof.
  intros Hc Hlen. unfold fu_rom_pci_parse_data.
  destruct (Z.eqb_spec (cpi_ptr hdr) 0); [lia|].
  destruct (Z.gtb_spec (cpi_ptr hdr) (rom_len hdr)); [lia|].
  rewrite andb_false_r. cbv zeta.
  rewrite !(memcmp_eq_in _ _ (reads_rom _)) by (simpl; lia).
  unfold le16. rewrite !rom_read_in by lia.
  set (sig := slice (rom_data hdr) (cpi_ptr hdr) _).
  assert (Hdec : bool_decide (sig ∈ pci_signatures)
                 = bool_decide (sig = cstr "PCIR") || bool_decide (sig = cstr "RGIS")
                   || bool_decide (sig = cstr "NPDS") || bool_decide (sig = cstr "NPDE")).
  { unfold pci_signatures. apply eq_true_iff_eq.
    rewrite !orb_true_iff, !bool_decide_eq_true, !elem_of_cons, elem_of_nil.
    tauto. }
  rewrite Hdec.
  destruct (bool_decide (sig = cstr "PCIR")); simpl; [eauto|].
  destruct (bool_decide (sig = cstr "RGIS")); simpl; [eauto|].
  destruct (bool_decide (sig = cstr "NPDS")); simpl; [eauto|].
  destruct (bool_decide (sig = cstr "NPDE")); simpl; eauto.
Qed.

Lemma X9_parse_data_in_bounds_witness :
  exists hdr', fu_rom_pci_parse_data hdr_pcir = Ok (hdr', true).
Proof.
  destruct (X9_parse_data_in_bounds hdr_pcir) as [hdr' H].
  - vm_compute. split; [reflexivity | discriminate].
  - vm_compute. discriminate.
  - exists hdr'. rewrite H. reflexivity.
Defined.

(** X10.  The test of [cpi_ptr] against [rom_len] lets a pointer to one of
    the last three bytes of the block, or to its end, through: on a header
    whose block has [rom_len] bytes, the comparison of the signature then
    reads past the block. *)
Theorem X10_parse_data_pointer_at_end (hdr : FuRomPciHeader) :
  Z.of_nat (length (rom_data hdr)) = rom_len hdr ->
  0 < cpi_ptr hdr -> rom_len hdr - 4 < cpi_ptr hdr <= rom_len hdr ->
  fu_rom_pci_parse_data hdr = Fault OutOfBounds.
Proof.
  intros Hlen Hpos Hc. unfold fu_rom_pci_parse_data.
  destruct (Z.eqb_spec (cpi_ptr hdr) 0); [lia|].
  destruct (Z.gtb_spec (cpi_ptr hdr) (rom_len hdr)); [lia|].
  rewrite andb_false_r. cbv zeta. unfold memcmp_eq at 1.
  rewrite mem_bytes_rom_short by (simpl; lia). reflexivity.
Qed.

Lemma X10_parse_data_pointer_at_end_witness :
  fu_rom_pci_parse_data
    {| rom_data := rom_data hdr_pcir; rom_len := 512; rom_offset := 0;
       entry_point := 0; reserved := replicate 18 x00; cpi_ptr := 510;
       vendor_id := 0; device_id := 0; device_list_ptr := 0; data_len := 0;
       data_rev := 0; class_code := 0; image_len := 0; revision_level := 0;
       code_type := 0; last_image := 0; max_runtime_len := 0;
       config_header_ptr := 0; dmtf_clp_ptr := 0 |}
  = Fault OutOfBounds.
Proof.
  apply X10_parse_data_pointer_at_end.
  - vm_compute. reflexivity.
  - simpl. lia.
  - simpl. lia.
Defined.

(** ** fu_rom_pci_get_header *)

(** X11.  [fu_rom_pci_get_header (buffer, sz)] returns NULL exactly for
    bytes that start with neither 55 AA nor 56 4E.  The header it returns
    otherwise has [rom_len] 512 times the byte at 2, or [sz] when that byte
    is 0; its block is the [rom_len] bytes from [buffer] on, which are
    inside the array read; [entry_point] is the three bytes at 3,
    [reserved] the 18 bytes at 6 and [cpi_ptr] the two bytes at 0x18,
    little-endian; [rom_offset] is 0. *)
Theorem X11_get_header_result (rd : reader) (l : list byte) (buffer sz : Z)
    (r : option FuRomPciHeader) :
  reads rd l -> 0 < sz < 4294967296 ->
  fu_rom_pci_get_header rd buffer sz = Ok r ->
  match r with
  | None => slice l buffer 2 <> [x55; xaa] /\ slice l buffer 2 <> [x56; x4e]
  | Some hdr =>
      (slice l buffer 2 = [x55; xaa] \/ slice l buffer 2 = [x56; x4e])
      /\ rom_len hdr = (if byte_at l (buffer + 2) =? 0 then sz
                        else 512 * byte_at l (buffer + 2))
      /\ rom_data hdr = slice l buffer (Z.to_nat (rom_len hdr))
      /\ buffer + rom_len hdr <= Z.of_nat (length l)
      /\ rom_offset hdr = 0
      /\ entry_point hdr = byte_at l (buffer + 3) + 256 * byte_at l (buffer + 4)
                           + 65536 * byte_at l (buffer + 5)
      /\ reserved hdr = slice l (buffer + 6) 18
      /\ cpi_ptr hdr = le16_at l (buffer + 24)
  end.
Proof.
  intros Hrd Hsz H. pose proof H as H0. unfold fu_rom_pci_get_header in H.
  apply bind_Ok in H as (pci & Hpci & H).
  apply (memcmp_eq_Ok _ _ Hrd) in Hpci as [-> _]. simpl length in *.
  apply bind_Ok in H as (sig & Hsig & H).
  assert (Hs : sig = bool_decide (slice l buffer 2 = [x55; xaa])
                     || bool_decide (slice l buffer 2 = [x56; x4e])).
  { destruct (bool_decide (slice l buffer 2 = [x55; xaa])); simpl; [congruence|].
    apply bind_Ok in Hsig as (nvidia & Hn & Hsig).
    apply (memcmp_eq_Ok _ _ Hrd) in Hn as [-> _]. simpl length in *.
    destruct (bool_decide (slice l buffer 2 = [x56; x4e])); [congruence|].
    apply bind_Ok in Hsig as (_ & _ & Hsig). congruence. }
  clear Hsig. subst sig.
  destruct (bool_decide (slice l buffer 2 = [x55; xaa])
            || bool_decide (slice l buffer 2 = [x56; x4e])) eqn:Hor;
    cbn [negb] in H.
  - apply bind_Ok in H as (b02 & Hb02 & H). cbv beta zeta in H.
    apply (read_Ok_byte_at _ _ Hrd) in Hb02 as [Hb02 _]. rewrite Hb02 in H.
    apply bind_Ok in H as (data & _ & H).
    apply bind_Ok in H as (b05 & Hb05 & H).
    apply (read_Ok_byte_at _ _ Hrd) in Hb05 as [Hb05 _].
    apply bind_Ok in H as (b04 & Hb04 & H).
    apply (read_Ok_byte_at _ _ Hrd) in Hb04 as [Hb04 _].
    apply bind_Ok in H as (b03 & Hb03 & H).
    apply (read_Ok_byte_at _ _ Hrd) in Hb03 as [Hb03 _].
    apply bind_Ok in H as (res & Hres & H).
    apply (mem_bytes_Ok _ _ Hrd) in Hres as [-> _].
    apply bind_Ok in H as (cpi & Hcpi & H).
    apply (le16_Ok _ _ Hrd) in Hcpi as (-> & _ & _); [|lia].
    apply bind_Ok in H as ([hdr0 ok] & Hparse & H). injection H as <-.
    apply (fu_rom_pci_get_header_Some _ _ _ _ _ Hrd Hsz) in H0
      as (Hb0 & Hpos & Hin & Hdata & _).
    apply fu_rom_pci_parse_data_frame in Hparse
      as (_ & Hl & Ho & Hr & Hc & He). simpl in Hl, Ho, Hr, Hc, He.
    pose proof (byte_at_range l (buffer + 2)) as R2.
    pose proof (byte_at_range l (buffer + 3)) as R3.
    pose proof (byte_at_range l (buffer + 4)) as R4.
    pose proof (byte_at_range l (buffer + 5)) as R5.
    split; [apply orb_true_iff in Hor as [Ho1|Ho2];
            [left | right]; eapply bool_decide_eq_true; eassumption|].
    split.
    { rewrite Hl. rewrite !u32_small by lia.
      destruct (Z.eqb_spec (byte_at l (buffer + 2) * 512) 0);
        destruct (Z.eqb_spec (byte_at l (buffer + 2)) 0); lia. }
    split; [exact Hdata|]. split; [exact Hin|]. split; [exact Ho|].
    split.
    { rewrite He, Hb05, Hb04, Hb03, !Z.shiftl_mul_pow2 by lia.
      change (2 ^ 16) with 65536. change (2 ^ 8) with 256.
      rewrite u32_small by lia. lia. }
    split; [exact Hr|]. rewrite Hc. apply u16_small, le16_at_range.
  - injection H as <-. apply orb_false_iff in Hor as [Ho1 Ho2].
    apply bool_decide_eq_false in Ho1, Ho2. auto.
Qed.

Lemma X11_get_header_result_witness :
  exists hdr,
    fu_rom_pci_get_header (buffer_read rom_padding) 0 1024 = Ok (Some hdr)
    /\ rom_len hdr = 512 /\ rom_data hdr = slice rom_padding 0 512.
Proof.
  destruct (fu_rom_pci_get_header (buffer_read rom_padding) 0 1024)
    as [[hdr|]|f] eqn:E; try (vm_compute in E; discriminate).
  exists hdr. split; [reflexivity|].
  pose proof (X11_get_header_result _ rom_padding 0 1024 _
                (reads_buffer rom_padding) ltac:(lia) E)
    as (_ & Hlen & Hdata & _).
  change (byte_at rom_padding (0 + 2)) with 1 in Hlen. simpl in Hlen.
  rewrite Hlen in Hdata. auto.
Defined.

(** ** The header loop *)

Lemma header_round_Break buffer hdr_sz jump l l' :
  0 <= hdr_sz -> 0 <= jump ->
  hdr_sz + jump < Z.of_nat (length buffer) < 4294967296 ->
  header_round buffer hdr_sz jump l = Ok (Break l') ->
  l' = l \/ l' = l ++ [fallback_header buffer (hdr_sz + jump)].
Proof.
  intros Hh Hj Hlt H. unfold header_round in H. cbv zeta in H.
  rewrite (u32_small (hdr_sz + jump)) in H by lia.
  apply bind_Ok in H as (hdr & Hhdr & H).
  destruct hdr as [hdr|].
  - apply (fu_rom_pci_get_header_Some _ _ _ _ _ (reads_buffer buffer)) in Hhdr
      as (_ & Hpos & _); [|lia].
    change (rom_len (set_rom_offset (hdr_sz + jump) hdr)) with (rom_len hdr) in H.
    destruct (Z.eqb_spec (rom_len hdr) 0) as [E|E]; [lia|].
    destruct (Z.eqb_spec (rom_len hdr) 0) as [E'|E']; [lia|discriminate].
  - apply bind_Ok in H as (found_data & _ & H). destruct found_data.
    + rewrite fake_header_in in H by lia. simpl in H. injection H as <-.
      right. reflexivity.
    + injection H as <-. left. reflexivity.
Qed.

Lemma read_headers_contiguous buffer hdr_sz fuel jump l l' :
  0 <= hdr_sz -> 0 <= jump ->
  Z.of_nat (length buffer) < 4294967296 -> hdr_sz + jump < 4294967296 ->
  read_headers fuel buffer hdr_sz jump l = Some (Ok l') ->
  exists l2, l' = l ++ l2 /\ contiguous buffer (hdr_sz + jump) l2.
Proof.
  intros Hh. revert jump l.
  induction fuel as [|fuel IH]; intros jump l Hj Hsz Hoff H; simpl in H.
  - discriminate.
  - rewrite u32_small in H by lia.
    destruct (Z.gtb_spec (Z.of_nat (length buffer)) (hdr_sz + jump)) as [Hgt|];
      [|injection H as <-; exists []; rewrite app_nil_r; split; [reflexivity|exact I]].
    assert (Hlt : hdr_sz + jump < Z.of_nat (length buffer) < 4294967296) by lia.
    destruct (header_round buffer hdr_sz jump l) as [[jump' l1|l1]|f] eqn:E;
      [| |discriminate].
    + apply header_round_Continue in E
        as (hdr & -> & Hro & Hpos & -> & Hin & Hdata); try lia.
      apply IH in H as (l3 & -> & Hc); try lia.
      exists (hdr :: l3). split; [rewrite <- app_assoc; reflexivity|].
      simpl. replace (hdr_sz + jump + rom_len hdr)
        with (hdr_sz + (jump + rom_len hdr)) by lia.
      repeat split; try assumption; lia.
    + injection H as <-.
      apply header_round_Break in E as [->| ->]; try lia.
      * exists []. rewrite app_nil_r. split; [reflexivity|exact I].
      * eexists. split; [reflexivity|]. simpl.
        split; [reflexivity|]. split; [lia|]. split; [lia|].
        split; [|exact I]. unfold slice. rewrite take_ge; [reflexivity|].
        rewrite length_drop. lia.
Qed.

Lemma slice_app (l : list byte) (off : Z) (n m : nat) :
  0 <= off ->
  slice l off (n + m) = slice l off n ++ slice l (off + Z.of_nat n) m.
Proof.
  intros Hoff. unfold slice.
  replace (Z.to_nat (off + Z.of_nat n)) with (Z.to_nat off + n)%nat by lia.
  rewrite <- drop_drop, <- take_take_drop. reflexivity.
Qed.

Lemma contiguous_concat buffer off l :
  0 <= off -> contiguous buffer off l ->
  0 <= total_len l
  /\ off + total_len l <= Z.max off (Z.of_nat (length buffer))
  /\ concat (rom_data <$> l) = slice buffer off (Z.to_nat (total_len l)).
Proof.
  revert off. induction l as [|hdr l IH]; intros off Hoff H.
  - simpl. split; [lia|]. split; [lia|]. unfold slice. rewrite take_0. reflexivity.
  - destruct H as (_ & Hpos & Hin & Hdata & H).
    apply IH in H as (Hnn & Hle & Hcat); [|lia].
    change (total_len (hdr :: l)) with (rom_len hdr + total_len l).
    split; [lia|]. split; [lia|].
    rewrite fmap_cons. simpl concat. rewrite Hcat, Hdata.
    replace (Z.to_nat (rom_len hdr + total_len l))
      with (Z.to_nat (rom_len hdr) + Z.to_nat (total_len l))%nat by lia.
    rewrite slice_app by lia. do 2 f_equal. lia.
Qed.

(** ** The header loop on the block *)

Section Block.
Context (rd : reader) (block : list byte) (Hrd : reads rd block).

Lemma header_round_at_Continue sz hdr_sz jump l jump' l' :
  0 <= hdr_sz -> 0 <= jump -> hdr_sz + jump < sz ->
  Z.of_nat (length block) < 4294967296 -> sz < 4294967296 ->
  header_round_at rd sz hdr_sz jump l = Ok (Continue jump' l') ->
  exists hdr,
    l' = l ++ [hdr]
    /\ rom_offset hdr = hdr_sz + jump
    /\ 0 < rom_len hdr
    /\ jump' = jump + rom_len hdr
    /\ hdr_sz + jump' <= Z.of_nat (length block)
    /\ rom_data hdr = slice block (hdr_sz + jump) (Z.to_nat (rom_len hdr)).
Proof using Hrd.
  intros Hh Hj Hlt Hlen Hsz H. unfold header_round_at in H.
  rewrite (u32_small (hdr_sz + jump)) in H by lia.
  apply bind_Ok in H as (hdr & Hhdr & H).
  destruct hdr as [hdr|].
  - apply (fu_rom_pci_get_header_Some _ _ _ _ _ Hrd) in Hhdr
      as (_ & Hpos & Hin & Hdata & _); [|lia].
    cbv zeta in H.
    change (rom_len (set_rom_offset (hdr_sz + jump) hdr)) with (rom_len hdr) in H.
    destruct (Z.eqb_spec (rom_len hdr) 0) as [|_]; [lia|].
    destruct (Z.eqb_spec (rom_len hdr) 0) as [|_]; [lia|].
    injection H as <- <-.
    exists (set_rom_offset (hdr_sz + jump) hdr). simpl.
    rewrite u32_small by lia. repeat split; try lia. exact Hdata.
  - apply bind_Ok in H as (found_data & _ & H). destruct found_data.
    + apply bind_Ok in H as (fake & _ & H). discriminate.
    + discriminate.
Qed.

Lemma header_round_at_Break sz hdr_sz jump l l' :
  0 <= hdr_sz -> 0 <= jump -> hdr_sz + jump < sz ->
  Z.of_nat (length block) < 4294967296 -> sz < 4294967296 ->
  header_round_at rd sz hdr_sz jump l = Ok (Break l') ->
  l' = l
  \/ exists hdr,
       l' = l ++ [hdr]
       /\ rom_offset hdr = hdr_sz + jump
       /\ 0 < rom_len hdr
       /\ hdr_sz + jump + rom_len hdr <= Z.of_nat (length block)
       /\ rom_data hdr = slice block (hdr_sz + jump) (Z.to_nat (rom_len hdr)).
Proof using Hrd.
  intros Hh Hj Hlt Hlen Hsz H. unfold header_round_at in H.
  rewrite (u32_small (hdr_sz + jump)) in H by lia.
  apply bind_Ok in H as (hdr & Hhdr & H).
  destruct hdr as [hdr|].
  - apply (fu_rom_pci_get_header_Some _ _ _ _ _ Hrd) in Hhdr
      as (_ & Hpos & _); [|lia].
    cbv zeta in H.
    change (rom_len (set_rom_offset (hdr_sz + jump) hdr)) with (rom_len hdr) in H.
    destruct (Z.eqb_spec (rom_len hdr) 0) as [E|E]; [lia|].
    destruct (Z.eqb_spec (rom_len hdr) 0) as [E'|E']; [lia|discriminate].
  - apply bind_Ok in H as (found_data & _ & H). destruct found_data;
      [|injection H as <-; left; reflexivity].
    apply bind_Ok in H as (fake & Hfake & H). injection H as <-. right.
    unfold fake_header in Hfake. cbv zeta in Hfake.
    rewrite (u32_small (hdr_sz + jump)) in Hfake by lia.
    rewrite (u32_small (sz - (hdr_sz + jump))) in Hfake by lia.
    apply bind_Ok in Hfake as (data & Hdata & Hfake). injection Hfake as <-.
    apply (mem_bytes_Ok _ _ Hrd) in Hdata as [-> Hin].
    specialize (Hin ltac:(lia)).
    eexists. split; [reflexivity|]. simpl. repeat split; try lia.
Qed.

Lemma read_headers_at_contiguous sz hdr_sz fuel jump l l' :
  0 <= hdr_sz -> 0 <= jump ->
  Z.of_nat (length block) < 4294967296 -> sz < 4294967296 ->
  hdr_sz + jump < 4294967296 ->
  read_headers_at fuel rd sz hdr_sz jump l = Some (Ok l') ->
  exists l2,
    l' = l ++ l2 /\ contiguous block (hdr_sz + jump) l2
    /\ Forall (fun hdr => rom_offset hdr < sz) l2.
Proof using Hrd.
  intros Hh. revert jump l.
  induction fuel as [|fuel IH]; intros jump l Hj Hlen Hsz Hoff H; simpl in H.
  - discriminate.
  - rewrite u32_small in H by lia.
    destruct (Z.gtb_spec sz (hdr_sz + jump)) as [Hgt|];
      [|injection H as <-; exists []; rewrite app_nil_r;
        split; [reflexivity|split; [exact I|constructor]]].
    destruct (header_round_at rd sz hdr_sz jump l) as [[jump' l1|l1]|f] eqn:E;
      [| |discriminate].
    + apply header_round_at_Continue in E
        as (hdr & -> & Hro & Hpos & -> & Hin & Hdata); try lia.
      apply IH in H as (l3 & -> & Hc & Hall); try lia.
      exists (hdr :: l3). split; [rewrite <- app_assoc; reflexivity|].
      split; [|constructor; [lia|exact Hall]].
      simpl. replace (hdr_sz + jump + rom_len hdr)
        with (hdr_sz + (jump + rom_len hdr)) by lia.
      repeat split; try assumption; lia.
    + injection H as <-.
      apply header_round_at_Break in E
        as [->|(hdr & -> & Hro & Hpos & Hin & Hdata)]; try lia.
      * exists []. rewrite app_nil_r.
        split; [reflexivity|split; [exact I|constructor]].
      * exists [hdr]. split; [reflexivity|].
        split; [|constructor; [lia|constructor]].
        simpl. repeat split; try assumption; lia.
Qed.
End Block.

(** X12.  The headers that the loop "read all the ROM headers" adds to an
    empty array tile the read buffer from [hdr_sz] on, in every run in which
    no read leaves the read buffer.  The read buffer is the block of
    [g_malloc]: the bytes of the file, [buffer], and behind them what the
    block held, [junk]; reads of the latter are reads like the others.
    Each header's offset is the end of the one before it, the first one's
    is [hdr_sz], and each offset is inside the file; its block is the
    [rom_len] bytes of the read buffer from that offset on.  So the blocks,
    one after the other, are the bytes of the read buffer from [hdr_sz] on
    with no gap and no overlap.  They end inside the read buffer, but the
    last header may end behind the end of the file: the loop does not
    compare [rom_len] with what is left of the file, and the block of such
    a header holds bytes that the file did not supply. *)
Theorem X12_headers_tile_buffer (buffer junk : list byte) (hdr_sz : Z)
    (fuel : nat) (l : list FuRomPciHeader) :
  let sz := Z.of_nat (length buffer) in
  let block := buffer ++ junk in
  0 <= hdr_sz < 65536 -> Z.of_nat (length block) < 4294967296 ->
  read_headers_at fuel (malloc_read buffer junk) sz hdr_sz 0 [] = Some (Ok l) ->
  contiguous block hdr_sz l
  /\ Forall (fun hdr => rom_offset hdr < sz) l
  /\ concat (rom_data <$> l) = slice block hdr_sz (Z.to_nat (total_len l))
  /\ (l <> [] -> hdr_sz + total_len l <= Z.of_nat (length block)).
Proof.
  intros sz block Hh Hlen H.
  assert (Hsz : sz < 4294967296).
  { subst sz block. rewrite length_app in Hlen. lia. }
  apply (read_headers_at_contiguous _ _ (reads_malloc buffer junk)) in H
    as (l2 & -> & Hc & Hall); try lia; [|exact Hlen].
  rewrite Z.add_0_r in Hc. simpl app.
  assert (Hh0 : 0 <= hdr_sz) by lia.
  pose proof (contiguous_concat _ _ _ Hh0 Hc) as (Hnn & Hle & Hcat).
  split; [exact Hc|]. split; [exact Hall|]. split; [exact Hcat|].
  intros Hne. destruct l2 as [|hdr l2]; [congruence|].
  destruct Hc as (_ & Hpos & Hin & _). fold block in Hle, Hin. lia.
Qed.

Lemma X12_headers_tile_buffer_witness :
  exists hdr,
    read_headers_at 3 (malloc_read rom_big_header (replicate 512 xff)) 1024 0 0 []
    = Some (Ok [hdr])
    /\ rom_len hdr = 1536
    /\ rom_data hdr = slice (rom_big_header ++ replicate 512 xff) 0 1536.
Proof.
  destruct (read_headers_at 3 (malloc_read rom_big_header (replicate 512 xff))
              1024 0 0 []) as [[[|hdr [|hdr' l]]|f]|] eqn:E;
    try (vm_compute in E; discriminate).
  exists hdr. split; [reflexivity|].
  assert (Hlen : rom_len hdr = 1536).
  { assert (Hl : rom_len <$> [hdr] = [1536]).
    { change [hdr] with (match Some (Ok [hdr]) with
                         | Some (Ok l) => l | _ => [] end).
      rewrite <- E. vm_compute. reflexivity. }
    injection Hl as Hl. exact Hl. }
  split; [exact Hlen|].
  destruct (X12_headers_tile_buffer rom_big_header (replicate 512 xff) 0 3 [hdr])
    as ((_ & _ & _ & Hdata & _) & _).
  - lia.
  - vm_compute. reflexivity.
  - exact E.
  - rewrite Hdata, Hlen. reflexivity.
Defined.

(** ** The reads of fu_rom_load_file *)

Lemma stream_bytes_cons c stream :
  stream_bytes (Some c :: stream) = c ++ stream_bytes stream.
Proof. reflexivity. Qed.

Lemma fill_buffer_not_Undefined stream buffer number_reads f :
  fill_buffer stream buffer number_reads <> Undefined f.
Proof.
  revert buffer number_reads.
  induction stream as [|[c|] stream IH]; intros buffer n; simpl;
    destruct (_ <? _); try discriminate.
  destruct (_ =? 0); [discriminate|]. destruct (_ >? _); [discriminate|].
  apply IH.
Qed.

(** The buffer after the loop is the buffer before it and bytes of the
    stream, in their order and from the first one on. *)
Lemma fill_buffer_prefix stream buffer number_reads buffer' :
  fill_buffer stream buffer number_reads = Ret buffer' ->
  exists k, buffer' = buffer ++ take k (stream_bytes stream).
Proof.
  revert buffer number_reads.
  induction stream as [|[c|] stream IH]; intros buffer n H; simpl in H.
  - exists 0%nat. rewrite take_0, app_nil_r.
    destruct (_ <? _); congruence.
  - destruct (Z.ltb_spec (Z.of_nat (length buffer)) buffer_sz) as [Hlt|Hge].
    + destruct (Z.eqb_spec (Z.of_nat (length (take (Z.to_nat
                  (buffer_sz - Z.of_nat (length buffer))) c))) 0) as [E|E].
      * injection H as <-. exists 0%nat. rewrite take_0, app_nil_r. reflexivity.
      * destruct (n >? 16); [discriminate|].
        rewrite stream_bytes_cons.
        destruct (decide (Z.to_nat (buffer_sz - Z.of_nat (length buffer))
                          < length c)%nat) as [Hc|Hc].
        -- destruct stream as [|o stream]; simpl in H;
             rewrite length_app, length_take in H;
             destruct (Z.ltb_spec (Z.of_nat (length buffer + (Z.to_nat
               (buffer_sz - Z.of_nat (length buffer)) `min` length c)))
               buffer_sz) as [Hlt'|Hge']; try lia; injection H as <-;
             exists (Z.to_nat (buffer_sz - Z.of_nat (length buffer)));
             rewrite take_app_le by lia; reflexivity.
        -- rewrite take_ge in H by lia.
           apply IH in H as (k & ->). exists (length c + k)%nat.
           rewrite take_app_add, <- app_assoc. reflexivity.
    + injection H as <-. exists 0%nat. rewrite take_0, app_nil_r. reflexivity.
  - destruct (_ <? _); [discriminate|].
    injection H as <-. exists 0%nat. rewrite take_0, app_nil_r. reflexivity.
Qed.

(** The two ways of [fu_rom_load_file]: an error of the reads, or the
    decoding of a buffer. *)
Lemma fu_rom_load_file_cases (host : byte_order) (stream : GInputStream)
    (blank_ppid : bool) (priv : FuRomPrivate) :
  (exists e, (e = IoError \/ e = TooSmall \/ e = NotResponding)
             /\ fu_rom_load_file host stream blank_ppid priv = (priv, Err e))
  \/ (exists k, 1024 <= Z.of_nat (length (take k (stream_bytes stream))) <= buffer_sz
                /\ fu_rom_load_file host stream blank_ppid priv
                   = load_buffer host (take k (stream_bytes stream)) blank_ppid priv).
Proof.
  unfold fu_rom_load_file, g_input_stream_read.
  destruct stream as [|[c|] stream].
  - left. exists TooSmall. split; [auto|]. reflexivity.
  - destruct (Z.ltb_spec (Z.of_nat (length (take (Z.to_nat buffer_sz) c))) 1024)
      as [Hlt|Hge].
    + left. exists TooSmall. split; [auto|]. reflexivity.
    + unfold m_bind, m_result.
      destruct (fill_buffer stream (take (Z.to_nat buffer_sz) c) 0)
        as [buffer|e|f] eqn:E.
      * right. pose proof E as E'. apply fill_buffer_Ret in E'.
        2:{ rewrite length_take. unfold buffer_sz. lia. }
        apply fill_buffer_prefix in E as (k & ->).
        destruct (decide (Z.to_nat buffer_sz < length c)%nat) as [Hc|Hc].
        -- exists (Z.to_nat buffer_sz).
           rewrite length_app, !length_take in E'.
           rewrite stream_bytes_cons, take_app_le by lia.
           rewrite length_take. split; [unfold buffer_sz in *; lia|].
           replace (take k (stream_bytes stream)) with (@nil byte).
           ++ rewrite app_nil_r. reflexivity.
           ++ symmetry. apply length_zero_iff_nil. rewrite length_take. lia.
        -- exists (length c + k)%nat.
           rewrite (take_ge c) in E', Hge by lia. rewrite (take_ge c) by lia.
           rewrite stream_bytes_cons, take_app_add.
           split; [lia|reflexivity].
      * left. exists e. apply fill_buffer_Err in E as [-> | ->]; auto.
      * exfalso. exact (fill_buffer_not_Undefined _ _ _ _ E).
  - left. exists IoError. split; [auto|]. reflexivity.
Qed.

(** X13.  [fu_rom_load_file] either fails while it reads, with an I/O error,
    "Firmware too small" or "firmware not fulfilling requests", and leaves
    the object as it was; or it decodes a buffer that holds the first bytes
    that the stream delivers, in their order, at least 1024 and at most
    0x400000 of them: what it does is what [load_buffer] does on them. *)
Theorem X13_load_file_reads_prefix (host : byte_order) (stream : GInputStream)
    (blank_ppid : bool) (priv : FuRomPrivate) :
  (exists e, (e = IoError \/ e = TooSmall \/ e = NotResponding)
             /\ fu_rom_load_file host stream blank_ppid priv = (priv, Err e))
  \/ (exists buffer,
        buffer `prefix_of` stream_bytes stream
        /\ 1024 <= Z.of_nat (length buffer) <= buffer_sz
        /\ fu_rom_load_file host stream blank_ppid priv
           = load_buffer host buffer blank_ppid priv).
Proof.
  destruct (fu_rom_load_file_cases host stream blank_ppid priv)
    as [H|(k & Hlen & H)]; [left; exact H|right].
  exists (take k (stream_bytes stream)).
  split; [apply prefix_take|]. split; [exact Hlen|exact H].
Qed.

Lemma fill_buffer_small_chunks stream buffer number_reads :
  0 <= number_reads <= 17 ->
  Forall (fun o => exists b c, o = Some (b :: c)) stream ->
  Z.of_nat (length buffer) + Z.of_nat (length (stream_bytes stream)) < buffer_sz ->
  fill_buffer stream buffer number_reads
  = if decide (18 - number_reads <= Z.of_nat (length stream))
    then Err NotResponding
    else Ret (buffer ++ stream_bytes stream).
Proof.
  revert buffer number_reads.
  induction stream as [|o stream IH]; intros buffer n Hn Hall Hlen; simpl.
  - destruct (Z.ltb_spec (Z.of_nat (length buffer)) buffer_sz);
      destruct (decide _); try lia; rewrite app_nil_r; reflexivity.
  - apply Forall_cons in Hall as [(b & c & ->) Hall].
    rewrite stream_bytes_cons, length_app in Hlen.
    destruct (Z.ltb_spec (Z.of_nat (length buffer)) buffer_sz); [|lia].
    rewrite take_ge by lia.
    destruct (Z.eqb_spec (Z.of_nat (length (b :: c))) 0) as [E|_];
      [simpl in E; lia|].
    destruct (Z.gtb_spec n 16).
    + destruct (decide _); [reflexivity|lia].
    + rewrite u32_small by lia. rewrite IH; [|lia|exact Hall|].
      * rewrite stream_bytes_cons, <- app_assoc.
        destruct (decide _), (decide _); try lia; reflexivity.
      * rewrite length_app. lia.
Qed.

(** X14.  "check the firmware isn't serving us small chunks": when every
    read after the first delivers at least one byte and all the bytes fit
    in the buffer, the loop fails with "firmware not fulfilling requests"
    exactly when the stream has 18 chunks or more after the first; with
    fewer it ends with all the bytes of the stream in the buffer. *)
Theorem X14_not_responding (stream : GInputStream) (buffer : list byte) :
  Forall (fun o => exists b c, o = Some (b :: c)) stream ->
  Z.of_nat (length buffer) + Z.of_nat (length (stream_bytes stream)) < buffer_sz ->
  (18 <= length stream)%nat /\ fill_buffer stream buffer 0 = Err NotResponding
  \/ (length stream < 18)%nat
     /\ fill_buffer stream buffer 0 = Ret (buffer ++ stream_bytes stream).
Proof.
  intros Hall Hlen.
  rewrite (fill_buffer_small_chunks stream buffer 0) by (lia || assumption).
  destruct (decide _); [left|right]; split; (lia || reflexivity).
Qed.

Lemma X14_not_responding_witness :
  fill_buffer (replicate 18 (Some [x01])) (zeros 1024) 0 = Err NotResponding
  /\ fill_buffer (replicate 17 (Some [x01])) (zeros 1024) 0
     = Ret (zeros 1024 ++ replicate 17 x01).
Proof.
  split.
  - destruct (X14_not_responding (replicate 18 (Some [x01])) (zeros 1024))
      as [[_ H]|[H _]].
    + repeat constructor; eexists _, _; reflexivity.
    + vm_compute. reflexivity.
    + exact H.
    + simpl in H. lia.
  - destruct (X14_not_responding (replicate 17 (Some [x01])) (zeros 1024))
      as [[H _]|[_ H]].
    + repeat constructor; eexists _, _; reflexivity.
    + vm_compute. reflexivity.
    + simpl in H. lia.
    + exact H.
Defined.

(** ** The version string *)

Lemma read_cstring_Ok rd l fuel off s :
  reads rd l ->
  read_cstring fuel rd off = Ok s ->
  0 <= off /\ slice l off (length s) = s /\ (x00 ∉ s)
  /\ l !! (Z.to_nat off + length s)%nat = Some x00.
Proof.
  intros Hrd. revert off s.
  induction fuel as [|fuel IH]; intros off s H; simpl in H; [discriminate|].
  apply bind_Ok in H as (b & Hb & H). apply Hrd in Hb as [Hoff Hb].
  destruct (bool_decide_reflect (b = x00)) as [->|Hne].
  - injection H as <-. simpl. rewrite Nat.add_0_r.
    repeat split; [lia|apply not_elem_of_nil|exact Hb].
  - apply bind_Ok in H as (s' & Hs' & H). injection H as <-.
    apply IH in Hs' as (_ & Hsl & Hnul & Hend).
    split; [exact Hoff|]. split; [|split].
    + simpl length. rewrite (slice_cons _ _ _ b) by assumption. congruence.
    + intros [?|?]%elem_of_cons; [congruence|contradiction].
    + simpl length. rewrite <- Hend. f_equal. lia.
Qed.

Lemma read_cstring_in rd l fuel off s :
  reads rd l -> 0 <= off -> (length s < fuel)%nat ->
  slice l off (length s) = s -> x00 ∉ s ->
  l !! (Z.to_nat off + length s)%nat = Some x00 ->
  read_cstring fuel rd off = Ok s.
Proof.
  intros Hrd. revert off fuel.
  induction s as [|b s IH]; intros off fuel Hoff Hfuel Hsl Hnul Hend;
    (destruct fuel as [|fuel]; [simpl in Hfuel; lia|]); simpl.
  - simpl in Hend. rewrite Nat.add_0_r in Hend.
    rewrite (proj2 (Hrd off x00)) by auto. simpl. reflexivity.
  - assert (Hb : l !! Z.to_nat off = Some b).
    { rewrite <- (Nat.add_0_r (Z.to_nat off)).
      rewrite <- (slice_lookup l off (length (b :: s)) 0) by (simpl; lia).
      rewrite Hsl. reflexivity. }
    rewrite (proj2 (Hrd off b)) by auto. simpl.
    rewrite bool_decide_eq_false_2
      by (intros ->; apply Hnul; apply elem_of_cons; auto).
    simpl length in Hsl. rewrite (slice_cons _ _ _ b) in Hsl by assumption.
    injection Hsl as Hsl.
    rewrite (IH (off + 1) fuel); [reflexivity|lia|simpl in Hfuel; lia|exact Hsl| |].
    + intros Hin. apply Hnul. apply elem_of_cons. auto.
    + rewrite <- Hend. simpl length. f_equal. lia.
Qed.

(** X15.  [g_strdup] at offset [off] of a header's block returns [s] exactly
    when [off] is not negative, [s] is the bytes of the block from [off] on,
    holds no NUL and is followed by a NUL in the block.  So a string that
    no NUL ends inside the block is read past the end of the block. *)
Theorem X15_g_strdup_result (hdr : FuRomPciHeader) (off : Z) (s : list byte) :
  g_strdup hdr off = Ok s
  <-> 0 <= off /\ slice (rom_data hdr) off (length s) = s /\ (x00 ∉ s)
      /\ rom_data hdr !! (Z.to_nat off + length s)%nat = Some x00.
Proof.
  unfold g_strdup. split.
  - apply read_cstring_Ok. intros i b. apply rom_read_Ok.
  - intros (Hoff & Hsl & Hnul & Hend).
    apply (read_cstring_in _ (rom_data hdr)); try assumption.
    + intros i b. apply rom_read_Ok.
    + apply lookup_lt_Some in Hend. lia.
Qed.

Lemma g_strdup_no_nul hdr off s : g_strdup hdr off = Ok s -> x00 ∉ s.
Proof.
  intros H. apply (read_cstring_Ok _ _ _ _ _ (reads_rom (rom_data hdr))) in H.
  tauto.
Qed.

Lemma split_at_elem (delim : byte) (s t : list byte) (b : byte) :
  t ∈ split_at delim s -> b ∈ t -> b ∈ s.
Proof.
  revert t. induction s as [|c s IH]; intros t Ht Hb; simpl in Ht.
  - apply list_elem_of_singleton in Ht. subst t. exact Hb.
  - destruct (bool_decide (c = delim)).
    + apply elem_of_cons in Ht as [->|Ht].
      * inversion Hb.
      * apply elem_of_cons. right. eapply IH; eassumption.
    + destruct (split_at delim s) as [|t0 ts].
      * apply list_elem_of_singleton in Ht. subst t.
        apply list_elem_of_singleton in Hb. subst b. apply elem_of_cons. auto.
      * apply elem_of_cons in Ht as [->|Ht].
        -- apply elem_of_cons in Hb as [->|Hb]; apply elem_of_cons; [auto|].
           right. apply (IH t0); [apply elem_of_cons; auto|exact Hb].
        -- apply elem_of_cons. right. apply (IH t); [|exact Hb].
           apply elem_of_cons. auto.
Qed.

Lemma g_strchug_elem (s : list byte) (b : byte) : b ∈ g_strchug s -> b ∈ s.
Proof.
  induction s as [|c s IH]; simpl; [auto|].
  destruct (g_ascii_isspace c); [|auto].
  intros H. apply elem_of_cons. auto.
Qed.

Lemma g_strstrip_elem (s : list byte) (b : byte) : b ∈ g_strstrip s -> b ∈ s.
Proof.
  unfold g_strstrip, g_strchomp. intros H.
  apply (proj1 (elem_of_reverse _ _)), g_strchug_elem in H.
  apply (proj1 (elem_of_reverse _ _)) in H.
  apply g_strchug_elem, H.
Qed.

Lemma g_strdelimit_nul_elem (delimiters s : list byte) (b : byte) :
  b ∈ g_strdelimit_nul delimiters s -> b ∈ s /\ b ∉ delimiters.
Proof.
  induction s as [|c s IH]; simpl; [intros H; inversion H|].
  destruct (bool_decide_reflect (c ∈ delimiters)) as [Hc|Hc];
    [intros H; inversion H|].
  intros [->|H]%elem_of_cons.
  - split; [apply elem_of_cons; auto|exact Hc].
  - apply IH in H as [H1 H2]. split; [apply elem_of_cons; auto|exact H2].
Qed.

(** The strings that the version finders return are C strings. *)
Lemma fu_rom_find_version_no_nul kind hdr v :
  fu_rom_find_version kind hdr = Ok (Some v) -> x00 ∉ v.
Proof.
  assert (Hdup : forall off (o : option Z -> outcome (option (list byte))) s,
    (let* v := g_strdup hdr off in Ok (Some v)) = Ok (Some s) -> x00 ∉ s).
  { intros off _ s H. apply bind_Ok in H as (s' & Hs' & H).
    injection H as <-. eapply g_strdup_no_nul, Hs'. }
  specialize (fun off => Hdup off (fun _ => Ok None)).
  destruct kind; simpl; intros H; try discriminate.
  - unfold fu_rom_find_version_ati in H.
    apply bind_Ok in H as ([p|] & _ & H); [eapply Hdup, H|].
    apply bind_Ok in H as ([p|] & _ & H); [eapply Hdup, H|discriminate].
  - unfold fu_rom_find_version_nvidia in H. cbv zeta in H.
    apply bind_Ok in H as ([|] & _ & H); [eapply Hdup, H|].
    apply bind_Ok in H as ([p|] & _ & H); [eapply Hdup, H|].
    apply bind_Ok in H as ([p|] & _ & H); [eapply Hdup, H|].
    apply bind_Ok in H as ([p|] & _ & H); [eapply Hdup, H|].
    apply bind_Ok in H as ([|] & _ & H); [eapply Hdup, H|discriminate].
  - unfold fu_rom_find_version_intel in H.
    apply bind_Ok in H as (str & _ & H).
    apply bind_Ok in H as (build & Hbuild & H).
    destruct build as [t|].
    + injection H as <-. destruct str as [p|]; [|discriminate].
      apply bind_Ok in Hbuild as (s & Hs & Hbuild). injection Hbuild as Hhead.
      apply head_Some_elem_of, list_elem_of_filter in Hhead as [_ Hin].
      apply g_strdup_no_nul in Hs. intros Hnul. apply Hs.
      unfold g_strsplit in Hin. destruct s as [|c s]; [inversion Hin|].
      eapply split_at_elem; eassumption.
    + apply bind_Ok in H as ([p|] & _ & H); [eapply Hdup, H|discriminate].
  - unfold fu_rom_find_version_pci in H.
    destruct (bool_decide _); [|discriminate].
    apply bind_Ok in H as ([p|] & _ & H); [eapply Hdup, H|discriminate].
Qed.

(** ** The end of fu_rom_load_file *)

Lemma load_buffer_eq host buffer blank_ppid priv :
  load_buffer host buffer blank_ppid priv
  = match load_headers host buffer priv with
    | (priv1, Ret r) =>
        match detect_kind buffer (fst r) (snd r) priv1 with
        | (priv2, Ret _) => finish_load (snd r) blank_ppid priv2
        | (priv2, Err e) => (priv2, Err e)
        | (priv2, Undefined f) => (priv2, Undefined f)
        end
    | (priv1, Err e) => (priv1, Err e)
    | (priv1, Undefined f) => (priv1, Undefined f)
    end.
Proof.
  unfold load_buffer, m_bind.
  destruct (load_headers host buffer priv) as [priv1 [r|e|f]]; reflexivity.
Qed.

Lemma finish_load_eq hdr blank_ppid priv :
  finish_load hdr blank_ppid priv
  = match fu_rom_find_version (kind priv) hdr with
    | Fault f => (priv, Undefined f)
    | Ok v =>
        let priv0 :=
          set_version (g_strdelimit_nul [x0d; x0a; x20] <$> (g_strstrip <$> v))
            priv in
        match (if blank_ppid then fu_rom_find_and_blank_serial_numbers priv0
               else Ok priv0) with
        | Fault f => (priv0, Undefined f)
        | Ok priv1 =>
            match update_checksum (hdrs priv1) (checksum_wip priv1) with
            | Fault f => (priv1, Undefined f)
            | Ok wip =>
                (set_guid (Some (vendor priv1, model priv1))
                   (set_checksum_wip wip priv1),
                 if bool_decide (version priv1 = None)
                 then Err VersionNotFound else Ret tt)
            end
        end
    end.
Proof.
  unfold finish_load. rewrite m_bind_get, m_bind_access.
  destruct (fu_rom_find_version _ _) as [v|f]; [|reflexivity].
  rewrite m_bind_update. cbv zeta.
  set (priv0 := set_version _ priv).
  assert (Hend : forall priv1,
    (let! priv := m_get in
     let! wip := m_access (update_checksum (hdrs priv) (checksum_wip priv)) in
     do! m_update (set_checksum_wip wip) then
     do! m_update (set_guid (Some (vendor priv, model priv))) then
     if bool_decide (version priv = None) then m_error VersionNotFound
     else m_ret tt) priv1
    = match update_checksum (hdrs priv1) (checksum_wip priv1) with
      | Fault f => (priv1, Undefined f)
      | Ok wip =>
          (set_guid (Some (vendor priv1, model priv1))
             (set_checksum_wip wip priv1),
           if bool_decide (version priv1 = None)
           then Err VersionNotFound else Ret tt)
      end).
  { intros priv1. rewrite m_bind_get, m_bind_access.
    destruct (update_checksum _ _) as [wip|f]; [|reflexivity].
    rewrite !m_bind_update. destruct (bool_decide _); reflexivity. }
  destruct blank_ppid.
  - rewrite m_bind_assoc, m_bind_get, m_bind_assoc, m_bind_access.
    destruct (fu_rom_find_and_blank_serial_numbers priv0) as [priv1|f];
      [|reflexivity].
    rewrite m_bind_update. apply Hend.
  - rewrite m_bind_ret. apply Hend.
Qed.

(** A run that gets to the end of the function, with TRUE or with
    "Firmware version extractor not known", has gone through its parts. *)
Lemma fu_rom_load_file_finish host stream blank_ppid priv priv' r :
  fu_rom_load_file host stream blank_ppid priv = (priv', r) ->
  r = Ret tt \/ r = Err VersionNotFound ->
  exists buffer hdr_sz hdr priv1 priv2,
    buffer `prefix_of` stream_bytes stream
    /\ 1024 <= Z.of_nat (length buffer) <= buffer_sz
    /\ load_headers host buffer priv = (priv1, Ret (hdr_sz, hdr))
    /\ detect_kind buffer hdr_sz hdr priv1 = (priv2, Ret tt)
    /\ finish_load hdr blank_ppid priv2 = (priv', r).
Proof.
  intros H Hr.
  destruct (fu_rom_load_file_cases host stream blank_ppid priv)
    as [(e & He & H')|(k & Hlen & H')]; rewrite H' in H.
  - injection H as <- <-. destruct Hr as [?|?], He as [->|[->| ->]]; discriminate.
  - exists (take k (stream_bytes stream)). rewrite load_buffer_eq in H.
    destruct (load_headers _ _ _) as [priv1 [[hdr_sz hdr]|e|f]] eqn:E1.
    + destruct (detect_kind _ _ _ _) as [priv2 [[]|e|f]] eqn:E2.
      * exists hdr_sz, hdr, priv1, priv2. simpl in *.
        split; [apply prefix_take|]. auto.
      * apply detect_kind_post in E2 as (_ & _ & -> & _). injection H as <- <-.
        destruct Hr; discriminate.
      * injection H as <- <-. destruct Hr; discriminate.
    + apply load_headers_post in E1 as (_ & -> & _). injection H as <- <-.
      destruct Hr; discriminate.
    + injection H as <- <-. destruct Hr; discriminate.
Qed.

(** X16.  When [fu_rom_load_file] returns TRUE the object has a version, a
    string with no NUL, carriage return, line feed or space in it; when it
    fails with "Firmware version extractor not known" the version is
    NULL. *)
Theorem X16_version_characters (host : byte_order) (stream : GInputStream)
    (blank_ppid : bool) (priv priv' : FuRomPrivate) (r : result unit) :
  fu_rom_load_file host stream blank_ppid priv = (priv', r) ->
  match r with
  | Ret _ => exists v, version priv' = Some v
                       /\ forall b, b ∈ v -> b ∉ [x00; x0d; x0a; x20]
  | Err VersionNotFound => version priv' = None
  | _ => True
  end.
Proof.
  intros H.
  assert (Hr : r = Ret tt \/ r = Err VersionNotFound -> 
    match r with
    | Ret _ => exists v, version priv' = Some v
                         /\ forall b, b ∈ v -> b ∉ [x00; x0d; x0a; x20]
    | _ => version priv' = None
    end).
  { intros Hr.
    destruct (fu_rom_load_file_finish _ _ _ _ _ _ H Hr)
      as (buffer & hdr_sz & hdr & priv1 & priv2 & _ & _ & _ & _ & Hf).
    rewrite finish_load_eq in Hf.
    destruct (fu_rom_find_version _ _) as [v|f] eqn:Ev;
      [|injection Hf as <- <-; destruct Hr; discriminate].
    cbv zeta in Hf.
    set (priv0 := set_version _ priv2) in Hf.
    assert (Hv : forall priv3, version priv3 = version priv0 ->
      match update_checksum (hdrs priv3) (checksum_wip priv3) with
      | Ok wip =>
          (set_guid (Some (vendor priv3, model priv3)) (set_checksum_wip wip priv3),
           if bool_decide (version priv3 = None) then Err VersionNotFound
           else Ret tt)
      | Fault f => (priv3, Undefined f)
      end = (priv', r) ->
      match r with
      | Ret _ => exists v, version priv' = Some v
                           /\ forall b, b ∈ v -> b ∉ [x00; x0d; x0a; x20]
      | _ => version priv' = None
      end).
    { intros priv3 Hv3 G.
      destruct (update_checksum _ _) as [wip|f];
        [|injection G as <- <-; destruct Hr; discriminate].
      destruct (bool_decide_reflect (version priv3 = None)) as [Hn|Hn];
        injection G as <- <-; simpl; [exact Hn|].
      rewrite Hv3 in *. subst priv0. simpl in *.
      destruct v as [v|]; [|contradiction]. simpl. eexists. split; [reflexivity|].
      intros b Hb. apply g_strdelimit_nul_elem in Hb as [Hb Hd].
      apply g_strstrip_elem in Hb.
      apply fu_rom_find_version_no_nul in Ev.
      intros [->|Hin]%elem_of_cons; [contradiction|contradiction]. }
    destruct blank_ppid.
    - destruct (fu_rom_find_and_blank_serial_numbers priv0) as [priv3|f] eqn:Eb;
        [|injection Hf as <- <-; destruct Hr; discriminate].
      apply fu_rom_find_and_blank_serial_numbers_frame in Eb as (_ & _ & Hv3).
      apply (Hv priv3 Hv3 Hf).
    - apply (Hv priv0 eq_refl Hf). }
  destruct r as [[]|e|f]; [apply Hr; auto| |exact I].
  destruct e; try exact I. apply Hr. auto.
Qed.

Lemma X16_version_characters_witness :
  exists v,
    version (fst (fu_rom_load_file G_LITTLE_ENDIAN [Some rom_arc] false fu_rom_new))
    = Some v
    /\ forall b, b ∈ v -> b ∉ [x00; x0d; x0a; x20].
Proof.
  destruct (fu_rom_load_file G_LITTLE_ENDIAN [Some rom_arc] false fu_rom_new)
    as [priv' r] eqn:E.
  assert (Hr : r = Ret tt).
  { change r with (snd (priv', r)). rewrite <- E. vm_compute. reflexivity. }
  subst r. exact (X16_version_characters _ _ _ _ _ _ E).
Defined.

(** The pass over the headers changes bytes of the blocks and nothing
    else. *)
Lemma blank_header_frame (hdr hdr1 : FuRomPciHeader) :
  blank_header hdr = Ok hdr1 -> same_but_bytes hdr hdr1.
Proof.
  unfold blank_header, same_but_bytes. intros H. apply bind_Ok in H as (tmp & _ & H).
  destruct tmp as [p|].
  - apply bind_Ok in H as (hdr' & Hfix & H).
    apply bind_Ok in H as (_ & _ & H). injection H as ->.
    apply blank_and_fix_Ok in Hfix as (data & len & chk & b & Hb & _ & _ & ->).
    eexists. split; [reflexivity|]. rewrite length_insert.
    eapply blank_loop_length, Hb.
  - injection H as <-. exists (rom_data hdr). destruct hdr; auto.
Qed.

Lemma blank_headers_frame (l l1 : list FuRomPciHeader) :
  blank_headers l = Ok l1 ->
  Forall2 same_but_bytes l l1.
Proof.
  revert l1. induction l as [|hdr l IH]; intros l1 H; simpl in H.
  - injection H as <-. constructor.
  - apply bind_Ok in H as (hdr' & Hhdr & H). apply bind_Ok in H as (l' & Hl & H).
    injection H as <-. constructor; [apply blank_header_frame, Hhdr|apply IH, Hl].
Qed.

Lemma fu_rom_find_and_blank_serial_numbers_hdrs priv priv' :
  fu_rom_find_and_blank_serial_numbers priv = Ok priv' ->
  priv' = set_hdrs (hdrs priv') priv
  /\ Forall2 same_but_bytes (hdrs priv) (hdrs priv').
Proof.
  unfold fu_rom_find_and_blank_serial_numbers. intros H. destruct (_ || _).
  - injection H as <-. split; [destruct priv; reflexivity|].
    apply Forall2_same_length_lookup_2; [reflexivity|].
    intros i hdr hdr' Hl Hl'. exists (rom_data hdr).
    rewrite Hl in Hl'. injection Hl' as <-. destruct hdr; auto.
  - apply bind_Ok in H as (l & Hl & H). injection H as <-.
    split; [reflexivity|]. apply blank_headers_frame, Hl.
Qed.

(** The bytes given to the checksum. *)
Lemma update_checksum_wf l wip :
  Forall hdr_wf l -> update_checksum l wip = Ok (wip ++ concat (rom_data <$> l)).
Proof.
  revert wip. induction l as [|hdr l IH]; intros wip Hwf; simpl.
  - rewrite app_nil_r. reflexivity.
  - apply Forall_cons in Hwf as [(Hlen & Hpos & _) Hwf].
    rewrite (mem_bytes_in _ _ (reads_rom (rom_data hdr))) by lia. simpl.
    rewrite IH by exact Hwf. unfold slice. rewrite drop_0, take_ge by lia.
    rewrite <- app_assoc. reflexivity.
Qed.

(** What the loop of the headers leaves in the object. *)
Lemma load_headers_Ret host buffer priv priv1 hdr_sz hdr :
  load_headers host buffer priv = (priv1, Ret (hdr_sz, hdr)) ->
  ifr_hdr_sz host buffer = Ok hdr_sz
  /\ read_headers (S (length buffer)) buffer hdr_sz 0 (hdrs priv)
     = Some (Ok (hdrs priv1))
  /\ priv1 = set_hdrs (hdrs priv1) priv
  /\ head (hdrs priv1) = Some hdr.
Proof.
  unfold load_headers. intros H. rewrite m_bind_access in H.
  destruct (ifr_hdr_sz host buffer) as [hdr_sz'|f]; [|discriminate].
  rewrite m_bind_get in H.
  destruct (read_headers _ _ _ _ _) as [[l|f]|] eqn:E; [| |discriminate].
  - rewrite m_bind_access, m_bind_update in H. destruct l as [|hdr' l].
    + rewrite m_bind_access in H. destruct (mem_bytes _ _ _); discriminate.
    + rewrite m_bind_access in H.
      destruct (print_headers _); [|discriminate].
      injection H as <- <- <-. simpl. auto.
  - rewrite m_bind_access in H. discriminate.
Qed.

(** The test of the kind sets the ids and the kind, nothing else. *)
Lemma detect_kind_frame buffer hdr_sz hdr priv priv' r :
  detect_kind buffer hdr_sz hdr priv = (priv', r) ->
  exists k, priv' = set_kind k (set_ids (vendor_id hdr) (device_id hdr) priv).
Proof.
  unfold detect_kind. cbv zeta. intros H.
  rewrite !m_bind_update in H.
  set (priv0 := set_kind FU_ROM_KIND_PCI _) in H.
  assert (Hgo : forall hdr_sz',
    (if hdr_sz' >? Z.of_nat (length buffer) then m_error CorruptOverflow
     else
       let! k74 := m_access (memcmp_eq (buffer_read buffer) (hdr_sz' + 0x04)
                               (cstr "K74")) in
       do! (if k74 then m_update (set_kind FU_ROM_KIND_NVIDIA)
            else
              let! vbt := m_access (memcmp_eq (buffer_read buffer) hdr_sz'
                                      (cstr "$VBT")) in
              if vbt then m_update (set_kind FU_ROM_KIND_INTEL)
              else
                let! ati := m_access (memcmp_eq (buffer_read buffer) 0x30
                                        (cstr " 761295520")) in
                if ati then m_update (set_kind FU_ROM_KIND_ATI)
                else m_ret tt) then
       let! priv := m_get in
       if bool_decide (kind priv = FU_ROM_KIND_UNKNOWN) then m_error UnknownKind
       else m_ret tt) priv0 = (priv', r) ->
    exists k, priv' = set_kind k (set_ids (vendor_id hdr) (device_id hdr) priv)).
  { intros hdr_sz' G. destruct (_ >? _).
    - injection G as <- <-. eexists. reflexivity.
    - rewrite m_bind_access in G.
      destruct (memcmp_eq _ (hdr_sz' + 4) _) as [k74|f];
        [|injection G as <- <-; eexists; reflexivity].
      destruct k74.
      + rewrite m_bind_update, m_bind_get in G. simpl in G.
        injection G as <- <-. eexists. reflexivity.
      + rewrite m_bind_assoc, m_bind_access in G.
        destruct (memcmp_eq _ hdr_sz' _) as [vbt|f];
          [|injection G as <- <-; eexists; reflexivity].
        destruct vbt.
        * rewrite m_bind_update, m_bind_get in G. simpl in G.
          injection G as <- <-. eexists. reflexivity.
        * rewrite m_bind_assoc, m_bind_access in G.
          destruct (memcmp_eq _ 48 _) as [ati|f];
            [|injection G as <- <-; eexists; reflexivity].
          destruct ati.
          -- rewrite m_bind_update, m_bind_get in G. simpl in G.
             injection G as <- <-. eexists. reflexivity.
          -- rewrite m_bind_ret, m_bind_get in G. simpl in G.
             injection G as <- <-. eexists. reflexivity. }
  destruct (bool_decide _).
  - rewrite m_bind_access in H. destruct (le16 _ _ _) as [hdr_sz'|f].
    + eapply Hgo, H.
    + injection H as <- <-. eexists. reflexivity.
  - rewrite m_bind_ret in H. eapply Hgo, H.
Qed.

Lemma same_but_bytes_wf hdr hdr1 :
  same_but_bytes hdr hdr1 -> hdr_wf hdr -> hdr_wf hdr1.
Proof.
  intros (data & -> & Hlen) (H1 & H2 & H3). unfold hdr_wf. simpl.
  rewrite Hlen. auto.
Qed.

(** The end of the function, when it gets there: the pass changes bytes of
    the blocks only, the bytes of the blocks are given to the checksum, and
    the guid is that of the ids. *)
Lemma finish_load_end hdr blank_ppid priv priv' r :
  finish_load hdr blank_ppid priv = (priv', r) ->
  r = Ret tt \/ r = Err VersionNotFound ->
  Forall2 same_but_bytes (hdrs priv) (hdrs priv')
  /\ (blank_ppid = false -> hdrs priv' = hdrs priv)
  /\ update_checksum (hdrs priv') (checksum_wip priv) = Ok (checksum_wip priv')
  /\ vendor priv' = vendor priv /\ model priv' = model priv
  /\ guid priv' = Some (vendor priv, model priv).
Proof.
  intros H Hr. rewrite finish_load_eq in H.
  destruct (fu_rom_find_version _ _) as [v|f];
    [|injection H as <- <-; destruct Hr; discriminate].
  cbv zeta in H. set (priv0 := set_version _ priv) in H.
  assert (Hrefl : Forall2 same_but_bytes (hdrs priv) (hdrs priv)).
  { apply Forall2_same_length_lookup_2; [reflexivity|].
    intros i h h' Hl Hl'. exists (rom_data h).
    rewrite Hl in Hl'. injection Hl' as <-. destruct h; auto. }
  assert (Hend : forall priv1,
    priv1 = set_hdrs (hdrs priv1) priv0 ->
    match update_checksum (hdrs priv1) (checksum_wip priv1) with
    | Ok wip =>
        (set_guid (Some (vendor priv1, model priv1)) (set_checksum_wip wip priv1),
         if bool_decide (version priv1 = None) then Err VersionNotFound
         else Ret tt)
    | Fault f => (priv1, Undefined f)
    end = (priv', r) ->
    hdrs priv' = hdrs priv1
    /\ update_checksum (hdrs priv') (checksum_wip priv) = Ok (checksum_wip priv')
    /\ vendor priv' = vendor priv /\ model priv' = model priv
    /\ guid priv' = Some (vendor priv, model priv)).
  { intros priv1 E1 G.
    destruct (update_checksum _ _) as [wip|f] eqn:Eu;
      [|injection G as <- <-; destruct Hr; discriminate].
    injection G as <- _. rewrite E1 in Eu |- *. simpl in *. auto. }
  destruct blank_ppid.
  - destruct (fu_rom_find_and_blank_serial_numbers priv0) as [priv1|f] eqn:Eb;
      [|injection H as <- <-; destruct Hr; discriminate].
    apply fu_rom_find_and_blank_serial_numbers_hdrs in Eb as (E1 & Hfr).
    apply (Hend priv1 E1) in H as (-> & H). split; [exact Hfr|].
    split; [discriminate|exact H].
  - apply (Hend priv0) in H as (-> & H); [|reflexivity].
    split; [exact Hrefl|]. split; [reflexivity|exact H].
Qed.

(** X17.  When [fu_rom_load_file] gets to its end, with TRUE or with
    "Firmware version extractor not known", the array has a first header,
    the vendor and the model of the object are the vendor id and the device
    id of that header, and the guid is made from these two. *)
Theorem X17_ids_of_first_header (host : byte_order) (stream : GInputStream)
    (blank_ppid : bool) (priv priv' : FuRomPrivate) (r : result unit) :
  fu_rom_load_file host stream blank_ppid priv = (priv', r) ->
  r = Ret tt \/ r = Err VersionNotFound ->
  exists hdr l,
    hdrs priv' = hdr :: l
    /\ vendor priv' = vendor_id hdr /\ model priv' = device_id hdr
    /\ guid priv' = Some (vendor_id hdr, device_id hdr).
Proof.
  intros H Hr.
  destruct (fu_rom_load_file_finish _ _ _ _ _ _ H Hr)
    as (buffer & hdr_sz & hdr & priv1 & priv2 & _ & _ & Hl & Hk & Hf).
  apply load_headers_Ret in Hl as (_ & _ & _ & Hhead).
  apply detect_kind_frame in Hk as (k & ->).
  apply finish_load_end in Hf as (Hfr & _ & _ & Hv & Hm & Hg); [|exact Hr].
  simpl in *. apply head_Some in Hhead as (l & Hl). rewrite Hl in Hfr.
  apply Forall2_cons_inv_l in Hfr as (hdr1 & l1 & (data & -> & _) & _ & ->).
  exists (set_rom_data data hdr), l1. simpl. auto.
Qed.

Lemma X17_ids_of_first_header_witness :
  exists hdr l,
    hdrs (fst (fu_rom_load_file G_LITTLE_ENDIAN [Some rom_arc] false fu_rom_new))
    = hdr :: l
    /\ guid (fst (fu_rom_load_file G_LITTLE_ENDIAN [Some rom_arc] false fu_rom_new))
       = Some (vendor_id hdr, device_id hdr).
Proof.
  destruct (fu_rom_load_file G_LITTLE_ENDIAN [Some rom_arc] false fu_rom_new)
    as [priv' r] eqn:E.
  assert (Hr : r = Ret tt).
  { change r with (snd (priv', r)). rewrite <- E. vm_compute. reflexivity. }
  destruct (X17_ids_of_first_header _ _ _ _ _ _ E (or_introl Hr))
    as (hdr & l & Hh & _ & _ & Hg).
  exists hdr, l. auto.
Defined.

Lemma same_but_bytes_Forall_wf l l1 :
  Forall2 same_but_bytes l l1 -> Forall hdr_wf l -> Forall hdr_wf l1.
Proof.
  induction 1 as [|hdr hdr1 l l1 Hs _ IH]; intros Hwf; [constructor|].
  apply Forall_cons in Hwf as [Hwf1 Hwf]. constructor; [|apply IH, Hwf].
  eapply same_but_bytes_wf; eassumption.
Qed.

Lemma total_len_length l :
  Forall hdr_wf l -> Z.of_nat (length l) <= total_len l.
Proof.
  induction 1 as [|hdr l (_ & Hpos & _) _ IH]; [reflexivity|].
  change (total_len (hdr :: l)) with (rom_len hdr + total_len l).
  simpl length. lia.
Qed.

Lemma same_but_bytes_total_len l l1 :
  Forall2 same_but_bytes l l1 -> total_len l1 = total_len l.
Proof.
  induction 1 as [|hdr hdr1 l l1 (data & -> & _) _ IH]; [reflexivity|].
  change (total_len (set_rom_data data hdr :: l1))
    with (rom_len hdr + total_len l1).
  rewrite IH. reflexivity.
Qed.

(** The object at the end of the function: the headers are well formed and
    their blocks are what the checksum was given; with a new array they
    come from a tiling of the buffer from [hdr_sz] on. *)
Lemma fu_rom_load_file_end host stream blank_ppid priv priv' r :
  fu_rom_load_file host stream blank_ppid priv = (priv', r) ->
  r = Ret tt \/ r = Err VersionNotFound ->
  Forall hdr_wf (hdrs priv) ->
  Forall hdr_wf (hdrs priv')
  /\ checksum_wip priv' = checksum_wip priv ++ concat (rom_data <$> hdrs priv')
  /\ (hdrs priv = [] ->
      exists buffer hdr_sz l,
        buffer `prefix_of` stream_bytes stream
        /\ Z.of_nat (length buffer) <= buffer_sz
        /\ ifr_hdr_sz host buffer = Ok hdr_sz
        /\ contiguous buffer hdr_sz l /\ l <> []
        /\ Forall2 same_but_bytes l (hdrs priv')
        /\ (blank_ppid = false -> hdrs priv' = l)).
Proof.
  intros H Hr Hwf.
  destruct (fu_rom_load_file_finish _ _ _ _ _ _ H Hr)
    as (buffer & hdr_sz & hdr & priv1 & priv2 & Hpre & Hlen & Hl & Hk & Hf).
  apply load_headers_Ret in Hl as (Hifr & Hread & Hp1 & Hhead).
  apply detect_kind_frame in Hk as (k & ->).
  apply finish_load_end in Hf as (Hfr & Hsame & Hsum & _); [|exact Hr].
  simpl in Hfr, Hsame, Hsum.
  pose proof (ifr_hdr_sz_range _ _ _ Hifr) as Hh.
  assert (Hsz : Z.of_nat (length buffer) < 4294967296)
    by (unfold buffer_sz in Hlen; lia).
  assert (Hwf1 : Forall hdr_wf (hdrs priv1)).
  { eapply (read_headers_wf buffer hdr_sz _ 0); try eassumption; lia. }
  pose proof (same_but_bytes_Forall_wf _ _ Hfr Hwf1) as Hwf'.
  rewrite (update_checksum_wf _ _ Hwf') in Hsum. injection Hsum as Hsum.
  rewrite Hp1 in Hsum. simpl in Hsum.
  split; [exact Hwf'|]. split; [congruence|].
  intros Hnil. rewrite Hnil in Hread.
  exists buffer, hdr_sz, (hdrs priv1). split; [exact Hpre|].
  split; [lia|]. split; [exact Hifr|].
  apply read_headers_contiguous in Hread as (l2 & E & Hc); try lia.
  simpl in E. subst l2. rewrite Z.add_0_r in Hc.
  split; [exact Hc|]. split; [intros E; rewrite E in Hhead; discriminate|].
  split; [exact Hfr|exact Hsame].
Qed.

(** X18.  When [fu_rom_load_file] gets to its end, the bytes given to the
    checksum are those that the object had before and then the blocks of the
    headers of the array, one after the other, as they are after the pass
    over the serial numbers. *)
Theorem X18_checksum_bytes (host : byte_order) (stream : GInputStream)
    (blank_ppid : bool) (priv priv' : FuRomPrivate) (r : result unit) :
  fu_rom_load_file host stream blank_ppid priv = (priv', r) ->
  r = Ret tt \/ r = Err VersionNotFound ->
  Forall hdr_wf (hdrs priv) ->
  checksum_wip priv' = checksum_wip priv ++ concat (rom_data <$> hdrs priv').
Proof.
  intros H Hr Hwf.
  destruct (fu_rom_load_file_end _ _ _ _ _ _ H Hr Hwf) as (_ & Hsum & _).
  exact Hsum.
Qed.

Lemma X18_checksum_bytes_witness :
  checksum_wip (fst (fu_rom_load_file G_LITTLE_ENDIAN [Some rom_arc] true fu_rom_new))
  = concat (rom_data <$>
      hdrs (fst (fu_rom_load_file G_LITTLE_ENDIAN [Some rom_arc] true fu_rom_new))).
Proof.
  destruct (fu_rom_load_file G_LITTLE_ENDIAN [Some rom_arc] true fu_rom_new)
    as [priv' r] eqn:E.
  assert (Hr : r = Ret tt).
  { change r with (snd (priv', r)). rewrite <- E. vm_compute. reflexivity. }
  apply (X18_checksum_bytes _ _ _ _ _ _ E (or_introl Hr)). constructor.
Defined.

(** ** The kind *)

Lemma mem_bytes_buffer_short (buffer : list byte) (off : Z) (n : nat) :
  0 <= off -> (0 < n)%nat ->
  Z.of_nat (length buffer) < off + Z.of_nat n <= buffer_sz ->
  mem_bytes (buffer_read buffer) off n = Fault Uninitialised.
Proof.
  revert off. induction n as [|n IH]; intros off Hoff Hn Hlen; simpl.
  - lia.
  - unfold buffer_read at 1. destruct (Z.ltb_spec off 0); [lia|].
    destruct (buffer !! Z.to_nat off) as [b|] eqn:Hb.
    + simpl. apply lookup_lt_Some in Hb. rewrite IH by lia. reflexivity.
    + destruct (Z.ltb_spec off buffer_sz); [reflexivity|lia].
Qed.

(** X19.  The kind of a firmware whose buffer has 1024 bytes or more.
    [hdr_sz] is first replaced by the 16-bit value at 0x1a when the reserved
    bytes of the first header start with eleven characters '0'.  If it is
    larger than the size of the buffer the function fails with "firmware
    corrupt (overflow)".  If the 7 bytes from it on are in the buffer, the
    kind is NVIDIA for "K74" at [hdr_sz + 4], else Intel for "$VBT" at
    [hdr_sz], else ATI for " 761295520" at 0x30, else PCI, and the function
    goes on.  In between, the comparison with "K74" reads bytes of the
    buffer that were never written.  In all cases the vendor and the model
    are the ids of the header. *)
Theorem X19_kind_decision (buffer : list byte) (hdr_sz : Z)
    (hdr : FuRomPciHeader) (priv : FuRomPrivate) :
  1024 <= Z.of_nat (length buffer) -> 0 <= hdr_sz < 65536 ->
  let sz := Z.of_nat (length buffer) in
  let hdr_sz' := intel_hdr_sz buffer hdr_sz hdr in
  let ids := set_ids (vendor_id hdr) (device_id hdr) priv in
  detect_kind buffer hdr_sz hdr priv
  = if hdr_sz' >? sz then (set_kind FU_ROM_KIND_PCI ids, Err CorruptOverflow)
    else if hdr_sz' + 7 <=? sz
    then (set_kind (kind_of_marks buffer hdr_sz') ids, Ret tt)
    else (set_kind FU_ROM_KIND_PCI ids, Undefined Uninitialised).
Proof.
  intros Hlen Hh sz hdr_sz' ids.
  unfold detect_kind. cbv zeta. rewrite !m_bind_update.
  fold ids. fold sz.
  assert (Hgo : forall h, 0 <= h < 65536 ->
    (if h >? sz then m_error CorruptOverflow
     else
       let! k74 := m_access (memcmp_eq (buffer_read buffer) (h + 0x04)
                               (cstr "K74")) in
       do! (if k74 then m_update (set_kind FU_ROM_KIND_NVIDIA)
            else
              let! vbt := m_access (memcmp_eq (buffer_read buffer) h
                                      (cstr "$VBT")) in
              if vbt then m_update (set_kind FU_ROM_KIND_INTEL)
              else
                let! ati := m_access (memcmp_eq (buffer_read buffer) 0x30
                                        (cstr " 761295520")) in
                if ati then m_update (set_kind FU_ROM_KIND_ATI)
                else m_ret tt) then
       let! priv := m_get in
       if bool_decide (kind priv = FU_ROM_KIND_UNKNOWN) then m_error UnknownKind
       else m_ret tt) (set_kind FU_ROM_KIND_PCI ids)
    = if h >? sz then (set_kind FU_ROM_KIND_PCI ids, Err CorruptOverflow)
      else if h + 7 <=? sz
      then (set_kind (kind_of_marks buffer h) ids, Ret tt)
      else (set_kind FU_ROM_KIND_PCI ids, Undefined Uninitialised)).
  { intros h Hr. destruct (Z.gtb_spec h sz) as [Hgt|Hle]; [reflexivity|].
    rewrite m_bind_access. destruct (Z.leb_spec (h + 7) sz) as [Hin|Hout].
    - unfold kind_of_marks.
      rewrite (memcmp_eq_in _ _ (reads_buffer buffer)) by (simpl; lia).
      simpl length. destruct (bool_decide (slice buffer (h + 4) 3 = _)).
      + rewrite m_bind_update, m_bind_get. reflexivity.
      + rewrite m_bind_assoc, m_bind_access.
        rewrite (memcmp_eq_in _ _ (reads_buffer buffer)) by (simpl; lia).
        simpl length. destruct (bool_decide (slice buffer h 4 = _)).
        * rewrite m_bind_update, m_bind_get. reflexivity.
        * rewrite m_bind_assoc, m_bind_access.
          rewrite (memcmp_eq_in _ _ (reads_buffer buffer)) by (simpl; lia).
          simpl length. destruct (bool_decide (slice buffer 48 10 = _)).
          -- rewrite m_bind_update, m_bind_get. reflexivity.
          -- rewrite m_bind_ret, m_bind_get. reflexivity.
    - unfold memcmp_eq. rewrite mem_bytes_buffer_short;
        [reflexivity|lia|simpl; lia|simpl length; unfold buffer_sz; lia]. }
  unfold hdr_sz', intel_hdr_sz.
  destruct (bool_decide (take 11 (reserved hdr) = _)).
  - rewrite m_bind_access.
    rewrite (le16_in _ _ (reads_buffer buffer)) by lia.
    apply Hgo, le16_at_range.
  - rewrite m_bind_ret. apply Hgo, Hh.
Qed.

Lemma X19_kind_decision_witness :
  detect_kind rom_short_header 1024 hdr_short fu_rom_new
  = (set_kind FU_ROM_KIND_NVIDIA
       (set_ids (vendor_id hdr_short) (device_id hdr_short) fu_rom_new), Ret tt).
Proof.
  rewrite (X19_kind_decision rom_short_header 1024 hdr_short fu_rom_new);
    [|vm_compute; discriminate|lia].
  vm_compute. reflexivity.
Defined.

(** ** A file with no signature *)

Lemma fu_rom_pci_get_header_None (buffer : list byte) (off sz : Z) :
  0 <= off -> off + 16 <= Z.of_nat (length buffer) ->
  slice buffer off 2 <> [x55; xaa] -> slice buffer off 2 <> [x56; x4e] ->
  fu_rom_pci_get_header (buffer_read buffer) off sz = Ok None.
Proof.
  intros Hoff Hlen H1 H2. unfold fu_rom_pci_get_header.
  rewrite (memcmp_eq_in _ _ (reads_buffer buffer)) by (simpl; lia).
  simpl length. rewrite bool_decide_eq_false_2 by exact H1. simpl bind.
  rewrite (memcmp_eq_in _ _ (reads_buffer buffer)) by (simpl; lia).
  simpl length. rewrite bool_decide_eq_false_2 by exact H2. simpl bind.
  unfold fu_rom_get_hex_dump. simpl (16 <=? 0).  cbv iota.
  rewrite (mem_bytes_in _ _ (reads_buffer buffer)) by lia. reflexivity.
Qed.

Lemma load_buffer_no_signature host buffer blank_ppid priv :
  1024 <= Z.of_nat (length buffer) < 4294967296 -> hdrs priv = [] ->
  slice buffer 0 4 <> cstr "NVGI" ->
  slice buffer 0 2 <> [x55; xaa] -> slice buffer 0 2 <> [x56; x4e] ->
  load_buffer host buffer blank_ppid priv = (set_hdrs [] priv, Err NoHeaderFound).
Proof.
  intros Hlen Hnil Hn H1 H2. rewrite load_buffer_eq. unfold load_headers.
  rewrite m_bind_access, ifr_hdr_sz_without_nvgi by (lia || assumption).
  rewrite m_bind_get, Hnil.
  assert (Hr : read_headers (S (length buffer)) buffer 0 0 [] = Some (Ok [])).
  { simpl. change (u32 (0 + 0)) with 0.
    destruct (Z.gtb_spec (Z.of_nat (length buffer)) 0); [|lia].
    unfold header_round. cbv zeta. change (u32 (0 + 0)) with 0.
    rewrite fu_rom_pci_get_header_None by (lia || assumption).
    reflexivity. }
  rewrite Hr, m_bind_access, m_bind_update, m_bind_access.
  rewrite (mem_bytes_in _ _ (reads_buffer buffer)) by lia. reflexivity.
Qed.

(** X20.  A file that starts with none of "NVGI", 55 AA and 56 4E is never
    loaded, whatever follows: with a new array of headers
    [fu_rom_load_file] fails, in the reads or with "Failed to detect
    firmware header", and the array stays empty.  At offset 0 the scan for
    data that is not padding has no byte to look at, so no header is made
    up for such a file. *)
Theorem X20_no_signature (host : byte_order) (stream : GInputStream)
    (blank_ppid : bool) (priv : FuRomPrivate) :
  hdrs priv = [] ->
  take 4 (stream_bytes stream) <> cstr "NVGI" ->
  take 2 (stream_bytes stream) <> [x55; xaa] ->
  take 2 (stream_bytes stream) <> [x56; x4e] ->
  exists e,
    fu_rom_load_file host stream blank_ppid priv = (priv, Err e)
    /\ (e = IoError \/ e = TooSmall \/ e = NotResponding \/ e = NoHeaderFound).
Proof.
  intros Hnil Hn H1 H2.
  destruct (fu_rom_load_file_cases host stream blank_ppid priv)
    as [(e & He & H)|(k & Hlen & H)].
  - exists e. split; [exact H|tauto].
  - exists NoHeaderFound. split; [|auto]. rewrite H.
    assert (Hk : (1024 <= k)%nat) by (rewrite length_take in Hlen; lia).
    rewrite load_buffer_no_signature.
    + f_equal. destruct priv; simpl in *. subst. reflexivity.
    + unfold buffer_sz in Hlen. lia.
    + exact Hnil.
    + unfold slice. rewrite drop_0, take_take, Nat.min_l by lia. exact Hn.
    + unfold slice. rewrite drop_0, take_take, Nat.min_l by lia. exact H1.
    + unfold slice. rewrite drop_0, take_take, Nat.min_l by lia. exact H2.
Qed.

Lemma X20_no_signature_witness :
  exists e,
    fu_rom_load_file G_LITTLE_ENDIAN [Some (replicate 2048 x41)] true fu_rom_new
    = (fu_rom_new, Err e)
    /\ (e = IoError \/ e = TooSmall \/ e = NotResponding \/ e = NoHeaderFound).
Proof.
  apply (X20_no_signature G_LITTLE_ENDIAN [Some (replicate 2048 x41)] true
           fu_rom_new); [reflexivity|vm_compute; discriminate..].
Defined.

(** ** The ISBN segments *)

(** X21.  The loop over the ISBN segments follows the offsets that the
    segments give and has no other bound: when the segment at [off], not 0,
    gives [off] itself as the offset of the next segment, the loop started
    at [off] does not return, however many rounds it is given. *)
Theorem X21_certificate_loop_cycle (rd : reader) (l : list byte)
    (buffer sz off : Z) (fuel : nat) :
  reads rd l -> 0 < off < 65536 ->
  le16_at l (buffer + off + 13) = off ->
  certificate_loop fuel rd buffer sz off <> Ok tt.
Proof.
  intros Hrd Hoff Hnext. induction fuel as [|fuel IH]; [discriminate|].
  intros H. simpl in H.
  apply bind_Ok in H as (_ & _ & H).
  apply bind_Ok in H as (segment_kind & _ & H).
  apply bind_Ok in H as (b14 & Hb14 & H).
  apply bind_Ok in H as (b13 & Hb13 & H).
  apply (read_Ok_byte_at _ _ Hrd) in Hb14 as [Hb14 _].
  apply (read_Ok_byte_at _ _ Hrd) in Hb13 as [Hb13 _].
  cbv zeta in H. apply bind_Ok in H as (_ & _ & H).
  assert (Hn : u16 (Z.shiftl (b2z b14) 8 + b2z b13) = off).
  { rewrite Z.shiftl_mul_pow2, Hb14, Hb13 by lia. unfold le16_at in Hnext.
    replace (buffer + off + 13 + 1) with (buffer + off + 14) in Hnext by lia.
    change (2 ^ 8) with 256. rewrite u16_small; lia. }
  rewrite Hn in H. destruct (Z.eqb_spec off 0); [lia|]. exact (IH H).
Qed.

Lemma X21_certificate_loop_cycle_witness :
  certificate_loop (Z.to_nat 65536)
    (rom_read (patch 13 [x40; x00] (zeros 64) ++ patch 13 [x40; x00] (zeros 64)))
    0 128 64 <> Ok tt.
Proof.
  apply (X21_certificate_loop_cycle _ _ 0 128 64 _ (reads_rom _));
    [lia|reflexivity].
Defined.

(** ** fu_rom_extract_all *)

Lemma extract_loop_wf can_write l i files :
  Forall hdr_wf l -> 0 <= i -> i + Z.of_nat (length l) < 4294967296 ->
  exists n,
    (n <= length l)%nat
    /\ extract_loop can_write l i files
       = Ok (files ++ numbered i (take n l), bool_decide (n = length l))
    /\ (forall k, (k < n)%nat -> can_write (i + Z.of_nat k) = true)
    /\ ((n < length l)%nat -> can_write (i + Z.of_nat n) = false).
Proof.
  intros Hwf. revert i files.
  induction Hwf as [|hdr l (Hlen & Hpos & _) _ IH]; intros i files Hi Hbound.
  - exists 0%nat. simpl. rewrite app_nil_r.
    split; [lia|]. split; [reflexivity|]. split; intros; lia.
  - simpl. destruct (Z.eqb_spec (rom_len hdr) 0) as [E0|E0]; [lia|].
    rewrite (mem_bytes_in _ _ (reads_rom (rom_data hdr))) by lia. simpl bind.
    unfold slice. rewrite drop_0, take_ge by lia.
    destruct (can_write i) eqn:Ew.
    + simpl length in Hbound. rewrite u32_small by lia.
      destruct (IH (i + 1) (files ++ [(i, rom_data hdr)])) as (n & Hn & E & Hk & Hf);
        [lia|lia|].
      exists (S n). split; [simpl; lia|]. split; [|split].
      * rewrite E, <- app_assoc. simpl. f_equal. f_equal.
        apply bool_decide_ext. simpl. lia.
      * intros [|k] Hlt; [rewrite Z.add_0_r; exact Ew|].
        replace (i + Z.of_nat (S k)) with (i + 1 + Z.of_nat k) by lia.
        apply Hk. lia.
      * intros Hlt. replace (i + Z.of_nat (S n)) with (i + 1 + Z.of_nat n) by lia.
        apply Hf. simpl in Hlt. lia.
    + exists 0%nat. simpl. rewrite app_nil_r.
      split; [lia|]. split; [reflexivity|]. split; [intros; lia|].
      intros _. rewrite Z.add_0_r. exact Ew.
Qed.

Lemma numbered_snd i l : (numbered i l).*2 = rom_data <$> l.
Proof.
  revert i. induction l as [|hdr l IH]; intros i; [reflexivity|].
  simpl. rewrite IH. reflexivity.
Qed.

(** X22.  [fu_rom_extract_all] after a [fu_rom_load_file] that got to its
    end on a new object: every header of the array has a size that is not
    0, so no header is skipped; the files are written in the order of the
    array, the file with the number [k] holding the block of the header
    [k], up to the first call that fails; the function returns TRUE exactly
    when no call has failed, and then the files, one after the other, hold
    the bytes that the checksum was given. *)
Theorem X22_extract_all_after_load (host : byte_order) (stream : GInputStream)
    (blank_ppid : bool) (priv' : FuRomPrivate) (r : result unit)
    (can_write : Z -> bool) :
  fu_rom_load_file host stream blank_ppid fu_rom_new = (priv', r) ->
  r = Ret tt \/ r = Err VersionNotFound ->
  exists n,
    (n <= length (hdrs priv'))%nat
    /\ fu_rom_extract_all priv' can_write
       = Ok (numbered 0 (take n (hdrs priv')),
             bool_decide (n = length (hdrs priv')))
    /\ (forall k, (k < n)%nat -> can_write (Z.of_nat k) = true)
    /\ ((n < length (hdrs priv'))%nat -> can_write (Z.of_nat n) = false)
    /\ concat ((numbered 0 (hdrs priv')).*2) = checksum_wip priv'.
Proof.
  intros H Hr.
  destruct (fu_rom_load_file_end _ _ _ _ _ _ H Hr (Forall_nil_2 _))
    as (Hwf & Hsum & Hnew).
  destruct (Hnew eq_refl)
    as (buffer & hdr_sz & l & _ & Hlen & Hifr & Hc & _ & Hfr & _).
  pose proof (ifr_hdr_sz_range _ _ _ Hifr) as Hh.
  assert (Hh0 : 0 <= hdr_sz) by lia.
  pose proof (contiguous_concat _ _ _ Hh0 Hc) as (_ & Hle & _).
  pose proof (total_len_length _ Hwf) as Hcount.
  rewrite (same_but_bytes_total_len _ _ Hfr) in Hcount.
  assert (Hbound : 0 + Z.of_nat (length (hdrs priv')) < 4294967296)
    by (unfold buffer_sz in Hlen; lia).
  destruct (extract_loop_wf can_write (hdrs priv') 0 [] Hwf ltac:(lia) Hbound)
    as (n & Hn & E & Hk & Hf).
  exists n. split; [exact Hn|]. split; [exact E|].
  split; [exact Hk|]. split; [exact Hf|].
  rewrite numbered_snd, Hsum. reflexivity.
Qed.

Lemma X22_extract_all_after_load_witness :
  fu_rom_extract_all
    (fst (fu_rom_load_file G_LITTLE_ENDIAN [Some rom_padding] false fu_rom_new))
    (fun i => i <? 1)
  = Ok (numbered 0 (take 1 (hdrs (fst (fu_rom_load_file G_LITTLE_ENDIAN
                                         [Some rom_padding] false fu_rom_new)))),
        true).
Proof.
  destruct (fu_rom_load_file G_LITTLE_ENDIAN [Some rom_padding] false fu_rom_new)
    as [priv' r] eqn:E.
  assert (Hr : r = Ret tt \/ r = Err VersionNotFound).
  { change r with (snd (priv', r)). rewrite <- E. vm_compute. auto. }
  assert (Hl : length (hdrs priv') = 1%nat).
  { change priv' with (fst (priv', r)). rewrite <- E. vm_compute. reflexivity. }
  destruct (X22_extract_all_after_load _ _ _ _ _ (fun i => i <? 1) E Hr)
    as (n & Hn & Hx & Hk & Hf & _).
  simpl fst. rewrite Hx, Hl in *.
  destruct n as [|[|n]]; [|reflexivity|lia].
  specialize (Hf ltac:(lia)). discriminate.
Defined.

(** ** The array of headers over the calls *)

Lemma same_but_bytes_refl l : Forall2 same_but_bytes l l.
Proof.
  induction l as [|hdr l IH]; constructor; [|exact IH].
  exists (rom_data hdr). destruct hdr; auto.
Qed.

Lemma load_headers_grow host buffer priv priv1 r :
  Z.of_nat (length buffer) < 4294967296 ->
  load_headers host buffer priv = (priv1, r) ->
  exists l2, hdrs priv1 = hdrs priv ++ l2.
Proof.
  intros Hsz. unfold load_headers. intros H. rewrite m_bind_access in H.
  destruct (ifr_hdr_sz host buffer) as [hdr_sz|f] eqn:Hifr;
    [|injection H as <- _; exists []; rewrite app_nil_r; reflexivity].
  apply ifr_hdr_sz_range in Hifr.
  rewrite m_bind_get in H.
  destruct (read_headers _ _ _ _ _) as [[l|f]|] eqn:E.
  - apply read_headers_contiguous in E as (l2 & -> & _); try lia.
    exists l2. rewrite m_bind_access, m_bind_update in H.
    destruct (hdrs priv ++ l2) as [|hdr' l] eqn:El.
    + rewrite m_bind_access in H.
      destruct (mem_bytes _ _ _); injection H as <- _; reflexivity.
    + rewrite m_bind_access in H.
      destruct (print_headers _); injection H as <- _; reflexivity.
  - rewrite m_bind_access in H. injection H as <- _.
    exists []. rewrite app_nil_r. reflexivity.
  - injection H as <- _. exists []. rewrite app_nil_r. reflexivity.
Qed.

Lemma finish_load_hdrs hdr blank_ppid priv priv' r :
  finish_load hdr blank_ppid priv = (priv', r) ->
  Forall2 same_but_bytes (hdrs priv) (hdrs priv').
Proof.
  intros H. rewrite finish_load_eq in H.
  destruct (fu_rom_find_version _ _) as [v|f];
    [|injection H as <- _; apply same_but_bytes_refl].
  cbv zeta in H. set (priv0 := set_version _ priv) in H.
  assert (Hend : forall priv1,
    match update_checksum (hdrs priv1) (checksum_wip priv1) with
    | Ok wip =>
        (set_guid (Some (vendor priv1, model priv1)) (set_checksum_wip wip priv1),
         if bool_decide (version priv1 = None) then Err VersionNotFound
         else Ret tt)
    | Fault f => (priv1, Undefined f)
    end = (priv', r) ->
    hdrs priv' = hdrs priv1).
  { intros priv1 G. destruct (update_checksum _ _); injection G as <- _;
      reflexivity. }
  destruct blank_ppid.
  - destruct (fu_rom_find_and_blank_serial_numbers priv0) as [priv1|f] eqn:Eb;
      [|injection H as <- _; apply same_but_bytes_refl].
    apply fu_rom_find_and_blank_serial_numbers_hdrs in Eb as (_ & Hfr).
    rewrite (Hend _ H). exact Hfr.
  - rewrite (Hend _ H). apply same_but_bytes_refl.
Qed.

(** X23.  [fu_rom_load_file] never takes a header from the array, and
    never empties it: whatever the outcome, the headers that the object
    had before the call are the first ones of the array after it, with
    their fields the same and with as many bytes in their blocks, and the
    headers of the file come after them.  On an object that has loaded a
    file, the first header, from which the ids and the version are taken,
    is so that of the first file. *)
Theorem X23_headers_are_kept (host : byte_order) (stream : GInputStream)
    (blank_ppid : bool) (priv priv' : FuRomPrivate) (r : result unit) :
  fu_rom_load_file host stream blank_ppid priv = (priv', r) ->
  exists l1 l2,
    hdrs priv' = l1 ++ l2 /\ Forall2 same_but_bytes (hdrs priv) l1.
Proof.
  intros H.
  destruct (fu_rom_load_file_cases host stream blank_ppid priv)
    as [(e & _ & H')|(k & Hlen & H')]; rewrite H' in H.
  - injection H as <- _. exists (hdrs priv), [].
    rewrite app_nil_r. split; [reflexivity|apply same_but_bytes_refl].
  - rewrite load_buffer_eq in H.
    destruct (load_headers _ _ _) as [priv1 r1] eqn:E1.
    apply load_headers_grow in E1 as (l2 & Hl2);
      [|unfold buffer_sz in Hlen; lia].
    assert (Hgrow : forall priv2, hdrs priv2 = hdrs priv1 ->
      Forall2 same_but_bytes (hdrs priv2) (hdrs priv') ->
      exists l1 l2, hdrs priv' = l1 ++ l2
                    /\ Forall2 same_but_bytes (hdrs priv) l1).
    { intros priv2 E2 Hfr. rewrite E2, Hl2 in Hfr.
      apply Forall2_app_inv_l in Hfr as (k1 & k2 & Hk1 & _ & ->).
      exists k1, k2. auto. }
    destruct r1 as [[hdr_sz hdr]|e|f];
      [|injection H as <- _; apply (Hgrow priv1 eq_refl), same_but_bytes_refl..].
    destruct (detect_kind _ _ _ _) as [priv2 r2] eqn:E2.
    apply detect_kind_frame in E2 as (kd & ->).
    destruct r2 as [[]|e|f];
      [|injection H as <- _; apply (Hgrow priv1 eq_refl), same_but_bytes_refl..].
    apply finish_load_hdrs in H. apply (Hgrow _ eq_refl H).
Qed.

Lemma X23_headers_are_kept_witness :
  exists l1 l2,
    hdrs (fst (fu_rom_load_file G_LITTLE_ENDIAN [Some rom_arc] true
                 (rom_with FU_ROM_KIND_ATI [hdr_one_ppid]))) = l1 ++ l2
    /\ Forall2 same_but_bytes [hdr_one_ppid] l1.
Proof.
  destruct (fu_rom_load_file G_LITTLE_ENDIAN [Some rom_arc] true
              (rom_with FU_ROM_KIND_ATI [hdr_one_ppid])) as [priv' r] eqn:E.
  exact (X23_headers_are_kept _ _ _ _ _ _ E).
Defined.

(** ** The reads of the diagnostics *)

(** X24.  [fu_rom_pci_print_header] on a header whose block has [rom_len]
    bytes and whose code type is not 0x70.  The dump for "ImageLen" reads
    15 bytes, or [image_len] if that is less, from the offset
    [cpi_ptr + data_len] of the block on, whatever [rom_len] is: the
    function stays inside the block exactly when [image_len] is 0 or these
    bytes end at [rom_len] or before. *)
Theorem X24_print_header_in_bounds (hdr : FuRomPciHeader) :
  Z.of_nat (length (rom_data hdr)) = rom_len hdr ->
  code_type hdr <> 0x70 -> 0 <= cpi_ptr hdr + data_len hdr ->
  fu_rom_pci_print_header hdr = Ok tt
  <-> image_len hdr <= 0
      \/ cpi_ptr hdr + data_len hdr + Z.min (image_len hdr) 15 <= rom_len hdr.
Proof.
  intros Hlen Hct Hoff. unfold fu_rom_pci_print_header. cbv zeta.
  destruct (Z.eqb_spec (code_type hdr) 112) as [|_]; [contradiction|].
  assert (Hdump : forall sz, sz = Z.min (image_len hdr) 15 ->
    (exists u, fu_rom_get_hex_dump (rom_read (rom_data hdr))
                 (cpi_ptr hdr + data_len hdr) sz = Ok u)
    <-> image_len hdr <= 0
        \/ cpi_ptr hdr + data_len hdr + Z.min (image_len hdr) 15 <= rom_len hdr).
  { intros sz Hsz. rewrite <- Hsz. unfold fu_rom_get_hex_dump.
    destruct (Z.leb_spec sz 0) as [Hle|Hgt].
    - split; [intros _; lia|intros _; eexists; reflexivity].
    - split.
      + intros (u & H). apply bind_Ok in H as (bs & Hbs & _).
        apply (mem_bytes_Ok _ _ (reads_rom (rom_data hdr))) in Hbs as (_ & Hin).
        right. specialize (Hin ltac:(lia)). lia.
      + intros [H|H]; [lia|].
        rewrite (mem_bytes_in _ _ (reads_rom (rom_data hdr))) by lia.
        eexists. reflexivity. }
  assert (Hrest :
    (if (image_len hdr <=? rom_len hdr) && (image_len hdr >? 0)
     then do fu_rom_pci_header_get_checksum hdr then
          do rom_read (rom_data hdr) (image_len hdr - 1) then Ok tt
     else Ok tt) = Ok tt).
  { destruct (Z.leb_spec (image_len hdr) (rom_len hdr)); [|reflexivity].
    destruct (Z.gtb_spec (image_len hdr) 0); [|reflexivity]. simpl.
    rewrite fu_rom_pci_header_get_checksum_in by lia. simpl.
    rewrite rom_read_in by lia. reflexivity. }
  rewrite Hrest. clear Hrest.
  destruct (Z.ltb_spec (image_len hdr) 15) as [Hlt|Hge].
  - rewrite <- (Hdump (image_len hdr)) by lia.
    destruct (fu_rom_get_hex_dump _ _ _) as [[]|f]; simpl;
      split; try discriminate; eauto. intros (u & ?). discriminate.
  - rewrite <- (Hdump 15) by lia.
    destruct (fu_rom_get_hex_dump _ _ _) as [[]|f]; simpl;
      split; try discriminate; eauto. intros (u & ?). discriminate.
Qed.

Lemma X24_print_header_in_bounds_witness :
  fu_rom_pci_print_header hdr_pcir = Ok tt.
Proof.
  apply (X24_print_header_in_bounds hdr_pcir);
    [reflexivity|discriminate|discriminate|].
  right. vm_compute. discriminate.
Defined.

(** ** The version of ATI *)

(** X25.  [fu_rom_find_version_ati] returns the string that starts 4 bytes
    after the place where " VER0" was found, a marker of 5 bytes: the
    version starts with the character '0' of the marker. *)
Theorem X25_ati_version_keeps_zero (hdr : FuRomPciHeader) (p : Z)
    (v : list byte) :
  fu_rom_pci_strstr hdr (cstr " VER0") = Ok (Some p) ->
  fu_rom_find_version_ati hdr = Ok (Some v) ->
  g_strdup hdr (p + 4) = Ok v /\ head v = Some x30.
Proof.
  intros Hp H. unfold fu_rom_find_version_ati in H. rewrite Hp in H.
  simpl bind in H. apply bind_Ok in H as (v' & Hv & H). injection H as <-.
  split; [exact Hv|].
  pose proof (fu_rom_pci_strstr_Some_nonneg _ _ _ Hp) as Hnn.
  apply fu_rom_pci_strstr_Some in Hp as (Hd & _ & Hs & _).
  apply (read_cstring_Ok _ _ _ _ _ (reads_rom (rom_data hdr))) in Hv
    as (Hoff & Hsl & _ & Hend).
  assert (H4 : rom_data hdr !! Z.to_nat (p + 4) = Some x30).
  { replace (Z.to_nat (p + 4)) with (Z.to_nat p + 4)%nat by lia.
    rewrite <- (slice_lookup _ p 5 4) by lia. simpl length in Hs.
    rewrite Hs. reflexivity. }
  destruct v' as [|b v'].
  - simpl in Hend. rewrite Nat.add_0_r, H4 in Hend. discriminate.
  - simpl length in Hsl. rewrite (slice_cons _ _ _ x30) in Hsl by assumption.
    injection Hsl as <- _. reflexivity.
Qed.

Lemma X25_ati_version_keeps_zero_witness :
  g_strdup hdr_ati_ver (100 + 4) = Ok (cstr "012.3")
  /\ head (cstr "012.3") = Some x30.
Proof.
  apply (X25_ati_version_keeps_zero hdr_ati_ver 100); vm_compute; reflexivity.
Defined.

(** ** The step of the header loop *)

(** X26.  A round of the loop that decodes a header always goes on to the
    next round, with [jump] moved on by the [rom_len] of the header: a
    decoded header has a size that is not 0, so [image_len] never stands in
    for [rom_len] and the loop never breaks on a size of 0. *)
Theorem X26_decoded_header_continues (buffer : list byte) (hdr_sz jump : Z)
    (l : list FuRomPciHeader) (hdr : FuRomPciHeader) :
  0 <= hdr_sz -> 0 <= jump ->
  hdr_sz + jump < Z.of_nat (length buffer) < 4294967296 ->
  fu_rom_pci_get_header (buffer_read buffer) (hdr_sz + jump)
    (Z.of_nat (length buffer) - hdr_sz - jump) = Ok (Some hdr) ->
  header_round buffer hdr_sz jump l
  = Ok (Continue (jump + rom_len hdr)
          (l ++ [set_rom_offset (hdr_sz + jump) hdr])).
Proof.
  intros Hh Hj Hlt H. unfold header_round. cbv zeta.
  rewrite (u32_small (hdr_sz + jump)) by lia. rewrite H. simpl bind.
  apply (fu_rom_pci_get_header_Some _ _ _ _ _ (reads_buffer buffer)) in H
    as (_ & Hpos & Hin & _); [|lia].
  change (rom_len (set_rom_offset (hdr_sz + jump) hdr)) with (rom_len hdr).
  destruct (Z.eqb_spec (rom_len hdr) 0) as [E|E]; [lia|].
  destruct (Z.eqb_spec (rom_len hdr) 0) as [E'|E']; [lia|].
  rewrite u32_small by lia. reflexivity.
Qed.

Lemma X26_decoded_header_continues_witness :
  exists hdr,
    header_round rom_padding 0 0 []
    = Ok (Continue (0 + rom_len hdr) ([] ++ [set_rom_offset (0 + 0) hdr])).
Proof.
  destruct (fu_rom_pci_get_header (buffer_read rom_padding) (0 + 0)
              (Z.of_nat (length rom_padding) - 0 - 0)) as [[hdr|]|f] eqn:E;
    try (vm_compute in E; discriminate).
  exists hdr.
  apply (X26_decoded_header_continues rom_padding 0 0 [] hdr);
    [lia|lia|vm_compute; split; reflexivity|exact E].
Defined.

(** ** The text of the dumps *)

Lemma hex_digit_isprint (b : byte) :
  g_ascii_isprint (hex_digit (b2z b / 16)) = true
  /\ g_ascii_isprint (hex_digit (b2z b mod 16)) = true.
Proof. destruct b; split; vm_compute; reflexivity. Qed.

(** X27.  The string of [fu_rom_get_hex_dump (buffer, sz)] for a size that
    is not 0: it is built exactly when the [sz] bytes can be read, it has
    [4 * sz + 3] characters, and all of them are printable, whatever the
    bytes are. *)
Theorem X27_hex_dump_text (rd : reader) (l : list byte) (buffer sz : Z) :
  reads rd l -> 0 < sz < 4294967296 ->
  (fu_rom_get_hex_dump rd buffer sz = Ok tt
   <-> exists t, hex_dump_text rd buffer sz = Ok (Some t))
  /\ forall t, hex_dump_text rd buffer sz = Ok (Some t) ->
       Z.of_nat (length t) = 4 * sz + 3
       /\ Forall (fun c => g_ascii_isprint c = true) t.
Proof.
  intros Hrd Hsz. unfold fu_rom_get_hex_dump, hex_dump_text.
  destruct (Z.leb_spec sz 0) as [|_]; [lia|]. split.
  - destruct (mem_bytes rd buffer (Z.to_nat sz)) as [bs|f]; simpl.
    + split; [intros _; eexists; reflexivity|reflexivity].
    + split; [discriminate|intros (t & H); discriminate].
  - intros t H. apply bind_Ok in H as (bs & Hbs & H). injection H as <-.
    apply (mem_bytes_Ok _ _ Hrd) in Hbs as (-> & Hin).
    specialize (Hin ltac:(lia)) as (Hoff & Hlen).
    pose proof (slice_length l buffer (Z.to_nat sz) Hlen) as Hn.
    set (bs := slice l buffer (Z.to_nat sz)) in *. clearbody bs. split.
    + assert (Hc : forall bs' : list byte,
        length (concat ((fun b => [hex_digit (b2z b / 16);
                                   hex_digit (b2z b mod 16); x20]) <$> bs'))
        = (3 * length bs')%nat).
      { induction bs' as [|b bs' IH]; [reflexivity|].
        rewrite fmap_cons. cbn [concat app length]. rewrite IH. simpl. lia. }
      rewrite length_app, Hc. simpl length. rewrite length_fmap. lia.
    + apply Forall_app. split.
      * clear Hn. induction bs as [|b bs IH]; [constructor|].
        rewrite fmap_cons. cbn [concat app].
        destruct (hex_digit_isprint b) as [H1 H2].
        repeat (constructor; [assumption || reflexivity|]). exact IH.
      * repeat (constructor; [reflexivity|]).
        clear Hn. induction bs as [|b bs IH]; [constructor|].
        rewrite fmap_cons. constructor; [|exact IH].
        destruct (g_ascii_isprint b) eqn:E; [exact E|reflexivity].
Qed.

Lemma X27_hex_dump_text_witness :
  exists t,
    hex_dump_text (rom_read [x55; xaa; x41]) 0 3 = Ok (Some t)
    /\ Z.of_nat (length t) = 4 * 3 + 3.
Proof.
  eexists. split; [vm_compute; reflexivity|].
  apply (proj2 (X27_hex_dump_text _ _ 0 3 (reads_rom [x55; xaa; x41])
                  ltac:(lia))).
  vm_compute. reflexivity.
Defined.
